(** * Posture-analysis engine of Break_reminder

    A shallow embedding of [src/services/tensorflowPoseService.ts]: the
    landmark smoother, the metric calculator, the issue classifier with its
    consistency counters, the score aggregator, the output emitter and
    [stop].

    JavaScript numbers are modelled as exact rationals ([Q]): landmark
    coordinates and visibilities are finite, and every constant of the
    source is a decimal.  The only place where the source can divide by
    zero ([distanceRatio]) goes through [Num], which keeps the IEEE
    outcomes [Infinity] and [NaN] apart.  The counters and the clock are
    integers ([Z]).  [Math.sqrt], [Math.acos], [Math.atan2] and [Math.PI]
    belong to the JavaScript runtime and are taken as parameters
    ([MathLib]). *)

From Stdlib Require Import QArith Qround Qabs ZArith List String Bool Lia Lqa.
From Stdlib Require Import Sorted.
Import ListNotations.
Open Scope Q_scope.

(** ** Numbers *)

Module Js.

(** [a > b], [a < b], [a >= b] on numbers. *)
Definition gtb (a b : Q) : bool := negb (Qle_bool a b).
Definition ltb (a b : Q) : bool := negb (Qle_bool b a).
Definition geb (a b : Q) : bool := Qle_bool b a.

(** [a === 0]. *)
Definition is_zero (a : Q) : bool := Qeq_bool a 0.

Definition Math_max (a b : Q) : Q := if Qle_bool a b then b else a.
Definition Math_min (a b : Q) : Q := if Qle_bool a b then a else b.
Definition Math_abs (a : Q) : Q := Qabs a.

(** [Math.round] rounds to the nearest integer, halves upwards. *)
Definition Math_round (a : Q) : Q := inject_Z (Qfloor (a + 0.5)).

(** [Math.pow(a, 2)]. *)
Definition Math_pow2 (a : Q) : Q := a * a.

(** [list.length] as a number. *)
Definition len {A} (l : list A) : Q := inject_Z (Z.of_nat (List.length l)).

(** The result of a division whose divisor may be [0]. *)
Inductive Num : Type :=
| Fin (q : Q)
| Infinity
| NegInfinity
| NaN.

(** [a / b] where the divisor may be [+0]. *)
Definition div (a b : Q) : Num :=
  if is_zero b
  then (if is_zero a then NaN else if gtb a 0 then Infinity else NegInfinity)
  else Fin (a / b).

Definition num_ltb (n : Num) (c : Q) : bool :=
  match n with
  | Fin q => ltb q c
  | Infinity => false
  | NegInfinity => true
  | NaN => false
  end.

Definition num_gtb (n : Num) (c : Q) : bool :=
  match n with
  | Fin q => gtb q c
  | Infinity => true
  | NegInfinity => false
  | NaN => false
  end.

End Js.

Import Js.

(** ** JavaScript objects used as insertion-ordered maps

    [Object.entries] lists the string keys in insertion order, so an object
    is an association list; an assignment to a key already there keeps its
    place, an assignment to a new key appends it. *)

Module Obj.
Section WithValue.
Context {V : Type}.

Definition t := list (string * V).

Fixpoint get (o : t) (k : string) : option V :=
  match o with
  | [] => None
  | (k', v) :: o' => if String.eqb k' k then Some v else get o' k
  end.

Fixpoint set (o : t) (k : string) (v : V) : t :=
  match o with
  | [] => [(k, v)]
  | (k', v') :: o' =>
      if String.eqb k' k then (k', v) :: o' else (k', v') :: set o' k v
  end.

Fixpoint delete (o : t) (k : string) : t :=
  match o with
  | [] => []
  | (k', v') :: o' =>
      if String.eqb k' k then o' else (k', v') :: delete o' k
  end.

Definition keys (o : t) : list string := map fst o.

(** Well-formed objects have each key once. *)
Definition wf (o : t) : Prop := NoDup (keys o).

End WithValue.
Arguments t : clear implicits.
End Obj.

(** ** Data model *)

Record Landmark : Type := mkLandmark {
  x : Q;
  y : Q;
  z : Q;
  visibility : Q
}.

Record PoseLandmarks : Type := mkPose {
  nose : Landmark;
  leftEye : Landmark;
  rightEye : Landmark;
  leftEar : Landmark;
  rightEar : Landmark;
  leftShoulder : Landmark;
  rightShoulder : Landmark;
  leftElbow : Landmark;
  rightElbow : Landmark;
  leftWrist : Landmark;
  rightWrist : Landmark;
  leftHip : Landmark;
  rightHip : Landmark;
  leftKnee : Landmark;
  rightKnee : Landmark;
  leftAnkle : Landmark;
  rightAnkle : Landmark
}.

(** The seventeen joints, to quantify over the fields of a frame. *)
Inductive Joint : Type :=
| Nose | LeftEye | RightEye | LeftEar | RightEar
| LeftShoulder | RightShoulder | LeftElbow | RightElbow
| LeftWrist | RightWrist | LeftHip | RightHip
| LeftKnee | RightKnee | LeftAnkle | RightAnkle.

Definition joint (j : Joint) : PoseLandmarks -> Landmark :=
  match j with
  | Nose => nose | LeftEye => leftEye | RightEye => rightEye
  | LeftEar => leftEar | RightEar => rightEar
  | LeftShoulder => leftShoulder | RightShoulder => rightShoulder
  | LeftElbow => leftElbow | RightElbow => rightElbow
  | LeftWrist => leftWrist | RightWrist => rightWrist
  | LeftHip => leftHip | RightHip => rightHip
  | LeftKnee => leftKnee | RightKnee => rightKnee
  | LeftAnkle => leftAnkle | RightAnkle => rightAnkle
  end.

Record PostureAnalysis : Type := mkAnalysis {
  score : Q;
  issues : list string;
  neckAngle : Q;
  shoulderAlignment : Q;
  spineAlignment : Q;
  headPosition : Q;
  shoulderHeight : Q
}.

(** A keypoint of the pose detector. *)
Record Keypoint : Type := mkKeypoint {
  kp_x : Q;
  kp_y : Q;
  kp_score : Q
}.

Definition UPDATE_INTERVAL : Z := 2000.
Definition SMOOTHING_WINDOW : nat := 12.
Definition LANDMARK_SMOOTHING_WINDOW : nat := 6.
Definition CONSISTENCY_THRESHOLD : Z := 3.

(** ** Landmark extraction and smoothing *)

(** [getKeypoint(index)] reads [kp.x] of [keypoints[index]]: a missing
    entry raises a TypeError, modelled by [None]. *)
Definition getKeypoint (keypoints : list Keypoint) (index : nat)
  : option Landmark :=
  match nth_error keypoints index with
  | Some kp => Some (mkLandmark (kp_x kp) (kp_y kp) 0 (kp_score kp))
  | None => None
  end.

Notation "'let?' p ':=' e 'in' k" :=
  (match e with Some p => k | None => None end)
  (at level 10, p pattern, e at level 200, k at level 200, only parsing).

Definition extractLandmarks (keypoints : list Keypoint)
  : option PoseLandmarks :=
  let g := getKeypoint keypoints in
  let? k0 := g 0%nat in let? k1 := g 1%nat in let? k2 := g 2%nat in
  let? k3 := g 3%nat in let? k4 := g 4%nat in let? k5 := g 5%nat in
  let? k6 := g 6%nat in let? k7 := g 7%nat in let? k8 := g 8%nat in
  let? k9 := g 9%nat in let? k10 := g 10%nat in let? k11 := g 11%nat in
  let? k12 := g 12%nat in let? k13 := g 13%nat in let? k14 := g 14%nat in
  let? k15 := g 15%nat in let? k16 := g 16%nat in
  Some (mkPose k0 k1 k2 k3 k4 k5 k6 k7 k8 k9 k10 k11 k12 k13 k14 k15 k16).

Definition valid (l : Landmark) : bool := gtb (visibility l) 0.1.

(** [xs.reduce((sum, l) => sum + f(l), 0)]. *)
Definition reduce_sum {A} (f : A -> Q) (xs : list A) : Q :=
  fold_left (fun sum l => sum + f l) xs 0.

Definition averageLandmark (landmarks : list Landmark) : Landmark :=
  let validLandmarks := filter valid landmarks in
  match validLandmarks with
  | [] =>
      match landmarks with
      | l0 :: _ => l0
      | [] => mkLandmark 0 0 0 0
      end
  | _ :: _ =>
      let avgX := reduce_sum x validLandmarks / len validLandmarks in
      let avgY := reduce_sum y validLandmarks / len validLandmarks in
      let avgZ := reduce_sum z validLandmarks / len validLandmarks in
      let avgVisibility :=
        reduce_sum visibility validLandmarks / len validLandmarks in
      mkLandmark avgX avgY avgZ avgVisibility
  end.

(** [smoothLandmarks] over the window [landmarkHistory] (oldest entry
    first).  On an empty window the source evaluates
    [this.extractLandmarks([])], which raises. *)
Definition smoothLandmarks (landmarkHistory : list PoseLandmarks)
  : option PoseLandmarks :=
  match landmarkHistory with
  | [] => extractLandmarks []
  | [only] => Some only
  | _ :: _ :: _ =>
      let avg f := averageLandmark (map f landmarkHistory) in
      Some (mkPose (avg nose) (avg leftEye) (avg rightEye) (avg leftEar)
              (avg rightEar) (avg leftShoulder) (avg rightShoulder)
              (avg leftElbow) (avg rightElbow) (avg leftWrist)
              (avg rightWrist) (avg leftHip) (avg rightHip) (avg leftKnee)
              (avg rightKnee) (avg leftAnkle) (avg rightAnkle))
  end.

(** The arithmetic mean of a list of numbers. *)
Definition mean (qs : list Q) : Q := fold_left Qplus qs 0 / len qs.

(** ** Metric calculator *)

(** The numeric functions of the JavaScript runtime that have no exact
    rational counterpart. *)
Class MathLib : Type := {
  Math_sqrt : Q -> Q;
  Math_acos : Q -> Q;
  Math_atan2 : Q -> Q -> Q;
  Math_PI : Q
}.

Section Metrics.
Context {M : MathLib}.

Definition calculateNeckAngle (landmarks : PoseLandmarks) : Q :=
  let nose := nose landmarks in
  let leftEar := leftEar landmarks in
  let leftShoulder := leftShoulder landmarks in
  if ltb (visibility nose) 0.5 || ltb (visibility leftEar) 0.5
     || ltb (visibility leftShoulder) 0.5
  then 0
  else
    let vec1X := x leftEar - x leftShoulder in
    let vec1Y := y leftEar - y leftShoulder in
    let vec2X := x nose - x leftEar in
    let vec2Y := y nose - y leftEar in
    let dotProduct := vec1X * vec2X + vec1Y * vec2Y in
    let mag1 := Math_sqrt (vec1X * vec1X + vec1Y * vec1Y) in
    let mag2 := Math_sqrt (vec2X * vec2X + vec2Y * vec2Y) in
    if is_zero mag1 || is_zero mag2 then 0
    else
      let angleRad :=
        Math_acos (Math_max (-1) (Math_min 1 (dotProduct / (mag1 * mag2)))) in
      let angleDeg := angleRad * 180 / Math_PI in
      Math_max 0 (180 - angleDeg).

Definition calculateShoulderAlignment (landmarks : PoseLandmarks) : Q :=
  let leftShoulder := leftShoulder landmarks in
  let rightShoulder := rightShoulder landmarks in
  if ltb (visibility leftShoulder) 0.5 || ltb (visibility rightShoulder) 0.5
  then 0
  else
    let angleRad :=
      Math_atan2 (y rightShoulder - y leftShoulder)
                 (x rightShoulder - x leftShoulder) in
    Math_abs (angleRad * 180 / Math_PI).

Definition calculateSpineAlignment (landmarks : PoseLandmarks) : Q :=
  let leftShoulder := leftShoulder landmarks in
  let rightShoulder := rightShoulder landmarks in
  let leftHip := leftHip landmarks in
  let rightHip := rightHip landmarks in
  if ltb (visibility leftShoulder) 0.5 || ltb (visibility rightShoulder) 0.5
     || ltb (visibility leftHip) 0.5 || ltb (visibility rightHip) 0.5
  then 0
  else
    let shoulderMidX := (x leftShoulder + x rightShoulder) / 2 in
    let shoulderMidY := (y leftShoulder + y rightShoulder) / 2 in
    let hipMidX := (x leftHip + x rightHip) / 2 in
    let hipMidY := (y leftHip + y rightHip) / 2 in
    let angleRad :=
      Math_atan2 (hipMidX - shoulderMidX) (hipMidY - shoulderMidY) in
    Math_abs (angleRad * 180 / Math_PI).

Definition calculateHeadPosition (landmarks : PoseLandmarks) : Q :=
  let leftEar := leftEar landmarks in
  let rightEar := rightEar landmarks in
  let nose := nose landmarks in
  if ltb (visibility leftEar) 0.5 || ltb (visibility rightEar) 0.5
     || ltb (visibility nose) 0.5
  then 0
  else
    let earAngleRad :=
      Math_atan2 (y rightEar - y leftEar) (x rightEar - x leftEar) in
    Math_abs (earAngleRad * 180 / Math_PI).

Definition calculateShoulderHeight (landmarks : PoseLandmarks) : Q :=
  let leftShoulder := leftShoulder landmarks in
  let rightShoulder := rightShoulder landmarks in
  if ltb (visibility leftShoulder) 0.5 || ltb (visibility rightShoulder) 0.5
  then 0
  else Math_abs (y leftShoulder - y rightShoulder) * 10.

Definition detectSlouching (landmarks : PoseLandmarks) : bool :=
  let leftShoulder := leftShoulder landmarks in
  let rightShoulder := rightShoulder landmarks in
  let leftHip := leftHip landmarks in
  let rightHip := rightHip landmarks in
  if ltb (visibility leftShoulder) 0.5 || ltb (visibility rightShoulder) 0.5
     || ltb (visibility leftHip) 0.5 || ltb (visibility rightHip) 0.5
  then false
  else
    let shoulderCenterX := (x leftShoulder + x rightShoulder) / 2 in
    let hipCenterX := (x leftHip + x rightHip) / 2 in
    gtb shoulderCenterX (hipCenterX + 0.10).

Definition calculateHeadNeckScore (landmarks : PoseLandmarks) : Q :=
  let nose := nose landmarks in
  let leftEar := leftEar landmarks in
  let rightEar := rightEar landmarks in
  let leftShoulder := leftShoulder landmarks in
  let rightShoulder := rightShoulder landmarks in
  if ltb (visibility nose) 0.5 || ltb (visibility leftEar) 0.5
     || ltb (visibility rightEar) 0.5
     || ltb (visibility leftShoulder) 0.5
     || ltb (visibility rightShoulder) 0.5
  then 0
  else
    let score := 10 in
    let earCenterY := (y leftEar + y rightEar) / 2 in
    let shoulderCenterY := (y leftShoulder + y rightShoulder) / 2 in
    let headShoulderAlignment := Math_abs (earCenterY - shoulderCenterY) in
    let score :=
      if gtb headShoulderAlignment 0.15
      then score - Math_min 2 (headShoulderAlignment * 15) else score in
    let headTilt := Math_abs (y leftEar - y rightEar) in
    let score :=
      if gtb headTilt 0.08
      then score - Math_min 1.8 (headTilt * 20) else score in
    let noseShoulderDistance :=
      Math_abs (x nose - (x leftShoulder + x rightShoulder) / 2) in
    let score :=
      if gtb noseShoulderDistance 0.2
      then score - Math_min 2.5 (noseShoulderDistance * 10) else score in
    Math_max 0 score.

(** [Math.sqrt(Math.pow(a.x - b.x, 2) + Math.pow(a.y - b.y, 2))]. *)
Definition distance (ax ay bx by_ : Q) : Q :=
  Math_sqrt (Math_pow2 (ax - bx) + Math_pow2 (ay - by_)).

Definition detectTooCloseToCamera (landmarks : PoseLandmarks) : bool :=
  let leftShoulder := leftShoulder landmarks in
  let rightShoulder := rightShoulder landmarks in
  let nose := nose landmarks in
  if ltb (visibility leftShoulder) 0.5 || ltb (visibility rightShoulder) 0.5
     || ltb (visibility nose) 0.5
  then false
  else
    let shoulderDistance :=
      distance (x leftShoulder) (y leftShoulder)
               (x rightShoulder) (y rightShoulder) in
    let shoulderCenterX := (x leftShoulder + x rightShoulder) / 2 in
    let shoulderCenterY := (y leftShoulder + y rightShoulder) / 2 in
    let noseToShoulderDistance :=
      distance (x nose) (y nose) shoulderCenterX shoulderCenterY in
    let distanceRatio := div noseToShoulderDistance shoulderDistance in
    gtb shoulderDistance 0.8 || num_ltb distanceRatio 0.3.

Definition detectTooFarFromCamera (landmarks : PoseLandmarks) : bool :=
  let leftShoulder := leftShoulder landmarks in
  let rightShoulder := rightShoulder landmarks in
  let nose := nose landmarks in
  if ltb (visibility leftShoulder) 0.5 || ltb (visibility rightShoulder) 0.5
     || ltb (visibility nose) 0.5
  then false
  else
    let shoulderDistance :=
      distance (x leftShoulder) (y leftShoulder)
               (x rightShoulder) (y rightShoulder) in
    let shoulderCenterX := (x leftShoulder + x rightShoulder) / 2 in
    let shoulderCenterY := (y leftShoulder + y rightShoulder) / 2 in
    let noseToShoulderDistance :=
      distance (x nose) (y nose) shoulderCenterX shoulderCenterY in
    let distanceRatio := div noseToShoulderDistance shoulderDistance in
    ltb shoulderDistance 0.15 || num_gtb distanceRatio 0.8.

End Metrics.

(** ** Issue classifier and score aggregator *)

Open Scope string_scope.

(** The running state of the threshold checks of [analyzePosture]: the
    object [potentialIssues] and the variable [totalScore]. *)
Record Tally : Type := mkTally {
  potentialIssues : Obj.t bool;
  totalScore : Q
}.

(** [potentialIssues[key] = true; totalScore -= penalty]. *)
Definition flag (key : string) (penalty : Q) (t : Tally) : Tally :=
  mkTally (Obj.set (potentialIssues t) key true) (totalScore t - penalty).

(** Truthiness of [potentialIssues[issue]]. *)
Definition flagged (pot : Obj.t bool) (issue : string) : bool :=
  match Obj.get pot issue with
  | Some b => b
  | None => false
  end.

(** [this.issueConsistency[issue] || 0]. *)
Definition orZero (c : option Z) : Z :=
  match c with
  | Some n => n
  | None => 0%Z
  end.

(** First loop over [Object.entries(this.issueConsistency)]: counters of
    issues not detected in this frame go down by 3, not below 0. *)
Definition decayUndetected (pot : Obj.t bool) (ic : Obj.t Z) : Obj.t Z :=
  fold_left
    (fun acc (e : string * Z) =>
       let (issue, count) := e in
       if negb (flagged pot issue)
       then Obj.set acc issue (Z.max 0 (count - 3))
       else acc)
    ic ic.

(** Loop over [Object.entries(potentialIssues)]: counters of detected
    issues go up by 1. *)
Definition countDetected (pot : Obj.t bool) (ic : Obj.t Z) : Obj.t Z :=
  fold_left
    (fun acc (e : string * bool) =>
       let (issue, detected) := e in
       if detected
       then Obj.set acc issue (orZero (Obj.get acc issue) + 1)%Z
       else acc)
    pot ic.

(** The [switch] over the issue key; a key without a [case] pushes
    nothing. *)
Definition issueMessage (issue : string) : option string :=
  if issue =? "forward_head" then
    Some "Forward head posture - Try pulling your chin back and aligning your ears over your shoulders"
  else if issue =? "slight_forward_head" then
    Some "Slight forward head - Gently tuck your chin and lengthen the back of your neck"
  else if issue =? "uneven_shoulders" then
    Some "Uneven shoulders - Try to level your shoulders by relaxing the higher one"
  else if issue =? "slight_shoulder_imbalance" then
    Some "Slight shoulder imbalance - Focus on keeping both shoulders at the same height"
  else if issue =? "head_tilt" then
    Some "Head tilted - Try to keep your head level and centered"
  else if issue =? "slight_head_tilt" then
    Some "Slight head tilt - Gently straighten your head to center"
  else if issue =? "shoulder_height_imbalance" then
    Some "Shoulder height imbalance - Relax your shoulders and let them hang naturally"
  else if issue =? "slight_shoulder_height" then
    Some "Slight shoulder height difference - Focus on keeping shoulders level"
  else if issue =? "spine_alignment" then
    Some "Poor spine alignment - Sit up straight, imagine a string pulling you up from the top of your head"
  else if issue =? "slight_spine_deviation" then
    Some "Slight spine deviation - Gently straighten your back and engage your core"
  else if issue =? "slouching" then
    Some "Slouching detected - Roll your shoulders back and down, open your chest"
  else if issue =? "head_neck_alignment" then
    Some "Poor head and neck alignment - Try to align your head directly over your shoulders"
  else if issue =? "slight_head_neck" then
    Some "Slight head/neck misalignment - Gently adjust your head position"
  else if issue =? "too_close_to_camera" then
    Some "Too close to camera - Move back to get better posture detection"
  else if issue =? "too_far_from_camera" then
    Some "Too far from camera - Move closer for better posture detection"
  else None.

(** Third loop: the messages of the issues whose counter has reached the
    threshold and that are detected in this frame, in the order of
    [Object.entries(this.issueConsistency)]. *)
Definition consistentIssues (pot : Obj.t bool) (ic : Obj.t Z) : list string :=
  fold_left
    (fun acc (e : string * Z) =>
       let (issue, count) := e in
       if (CONSISTENCY_THRESHOLD <=? count)%Z && flagged pot issue
       then match issueMessage issue with
            | Some message => (acc ++ [message])%list
            | None => acc
            end
       else acc)
    ic [].

(** Positive feedback by score band. *)
Definition feedback (totalScore : Q) : list string :=
  if geb totalScore 8.0 then ["Excellent posture! Keep it up!"]
  else if geb totalScore 7.0 then
    ["Good posture overall, minor adjustments needed"]
  else if geb totalScore 6.0 then
    ["Posture is improving, keep working on it"]
  else [].

Definition tooFarAnalysis : PostureAnalysis :=
  mkAnalysis 5
    ["Too far from camera - Move closer for better posture detection"]
    0 0 0 0 0.

Definition repositionAnalysis : PostureAnalysis :=
  mkAnalysis 7.5
    ["Position yourself more clearly in front of the camera for better detection"]
    0 0 0 0 0.

Section Classifier.
Context {M : MathLib}.

(** [visibleLandmarks]: how many of nose, left shoulder and right shoulder
    have visibility above 0.2. *)
Definition visibleLandmarks (landmarks : PoseLandmarks) : nat :=
  let noseVisible := gtb (visibility (nose landmarks)) 0.2 in
  let leftShoulderVisible := gtb (visibility (leftShoulder landmarks)) 0.2 in
  let rightShoulderVisible := gtb (visibility (rightShoulder landmarks)) 0.2 in
  List.length
    (filter (fun b : bool => b)
       [noseVisible; leftShoulderVisible; rightShoulderVisible]).

(** The branch of [analyzePosture] taken when [visibleLandmarks < 2]. *)
Definition lowVisibilityAnalysis (landmarks : PoseLandmarks)
  : PostureAnalysis :=
  let leftShoulder := leftShoulder landmarks in
  let rightShoulder := rightShoulder landmarks in
  if gtb (visibility leftShoulder) 0.1 && gtb (visibility rightShoulder) 0.1
  then
    let shoulderDistance :=
      distance (x leftShoulder) (y leftShoulder)
               (x rightShoulder) (y rightShoulder) in
    if ltb shoulderDistance 0.1 then tooFarAnalysis else repositionAnalysis
  else repositionAnalysis.

(** The threshold checks of [analyzePosture], one definition per commented
    block of the source, each acting on [potentialIssues] and
    [totalScore]. *)

Definition checkForwardHead (neckAngle : Q) (t : Tally) : Tally :=
  if gtb neckAngle 30
  then flag "forward_head" (Math_min 2.0 (neckAngle * 0.08)) t
  else if gtb neckAngle 20
  then flag "slight_forward_head" (Math_min 0.8 (neckAngle * 0.04)) t
  else t.

Definition checkShoulderAlignment (shoulderAlignment : Q) (t : Tally)
  : Tally :=
  if gtb shoulderAlignment 20
  then flag "uneven_shoulders" (Math_min 1.5 (shoulderAlignment * 0.08)) t
  else if gtb shoulderAlignment 12
  then flag "slight_shoulder_imbalance"
         (Math_min 0.6 (shoulderAlignment * 0.04)) t
  else t.

Definition checkHeadTilt (headPosition : Q) (t : Tally) : Tally :=
  if gtb headPosition 25
  then flag "head_tilt" (Math_min 1.8 (headPosition * 0.08)) t
  else if gtb headPosition 15
  then flag "slight_head_tilt" (Math_min 0.7 (headPosition * 0.04)) t
  else t.

Definition checkShoulderHeight (shoulderHeight : Q) (t : Tally) : Tally :=
  if gtb shoulderHeight 30
  then flag "shoulder_height_imbalance"
         (Math_min 1.2 (shoulderHeight * 0.05)) t
  else if gtb shoulderHeight 22
  then flag "slight_shoulder_height" (Math_min 0.4 (shoulderHeight * 0.015)) t
  else t.

Definition checkSpineAlignment (spineAlignment : Q) (t : Tally) : Tally :=
  if gtb spineAlignment 40
  then flag "spine_alignment" (Math_min 1 (spineAlignment * 0.04)) t
  else if gtb spineAlignment 32
  then flag "slight_spine_deviation" (Math_min 0.4 (spineAlignment * 0.015)) t
  else t.

Definition checkSlouching (slouching : bool) (t : Tally) : Tally :=
  if slouching then flag "slouching" 1.3 t else t.

Definition checkHeadNeck (headNeckScore : Q) (t : Tally) : Tally :=
  if ltb headNeckScore 60 then flag "head_neck_alignment" 1 t
  else if ltb headNeckScore 70 then flag "slight_head_neck" 0.5 t
  else t.

Definition checkTooClose (tooCloseToCamera : bool) (t : Tally) : Tally :=
  if tooCloseToCamera then flag "too_close_to_camera" 2 t else t.

Definition checkTooFar (tooFarFromCamera : bool) (t : Tally) : Tally :=
  if tooFarFromCamera then flag "too_far_from_camera" 2 t else t.

(** The part of [analyzePosture] between the visibility gate and the
    counter update: [potentialIssues] and [totalScore] of the frame. *)
Definition evaluateIssues (landmarks : PoseLandmarks) : Tally :=
  let neckAngle := calculateNeckAngle landmarks in
  let shoulderAlignment := calculateShoulderAlignment landmarks in
  let headPosition := calculateHeadPosition landmarks in
  let shoulderHeight := calculateShoulderHeight landmarks in
  let spineAlignment := calculateSpineAlignment landmarks in
  let slouching := detectSlouching landmarks in
  let headNeckScore := calculateHeadNeckScore landmarks in
  let tooCloseToCamera := detectTooCloseToCamera landmarks in
  let tooFarFromCamera := detectTooFarFromCamera landmarks in
  let t := mkTally [] 10 in
  let t := checkForwardHead neckAngle t in
  let t := checkShoulderAlignment shoulderAlignment t in
  let t := checkHeadTilt headPosition t in
  let t := checkShoulderHeight shoulderHeight t in
  let t := checkSpineAlignment spineAlignment t in
  let t := checkSlouching slouching t in
  let t := checkHeadNeck headNeckScore t in
  let t := checkTooClose tooCloseToCamera t in
  let t := checkTooFar tooFarFromCamera t in
  t.

(** [analyzePosture] with [this.issueConsistency] passed in and out. *)
Definition analyzePosture (issueConsistency : Obj.t Z)
    (landmarks : PoseLandmarks) : Obj.t Z * PostureAnalysis :=
  if (visibleLandmarks landmarks <? 2)%nat
  then (issueConsistency, lowVisibilityAnalysis landmarks)
  else
    let t := evaluateIssues landmarks in
    let pot := potentialIssues t in
    let issueConsistency := decayUndetected pot issueConsistency in
    let issueConsistency := countDetected pot issueConsistency in
    let consistent := consistentIssues pot issueConsistency in
    let consistent := (consistent ++ feedback (totalScore t))%list in
    let finalScore := Math_max 2 (Math_min 10 (totalScore t)) in
    (issueConsistency,
     mkAnalysis finalScore consistent
       (calculateNeckAngle landmarks)
       (calculateShoulderAlignment landmarks)
       (calculateSpineAlignment landmarks)
       (calculateHeadPosition landmarks)
       (calculateShoulderHeight landmarks)).

End Classifier.

(** ** Score smoothing *)

Definition initializingAnalysis : PostureAnalysis :=
  mkAnalysis 85 ["Initializing posture analysis..."] 0 0 0 0 0.

(** Loop of [smoothPostureAnalysis] over
    [Object.entries(this.issueConsistency)]: counters at 0 are deleted. *)
Definition pruneZero (ic : Obj.t Z) : Obj.t Z :=
  fold_left
    (fun acc (e : string * Z) =>
       let (issue, count) := e in
       if (count =? 0)%Z then Obj.delete acc issue else acc)
    ic ic.

(** [smoothPostureAnalysis] with [this.postureHistory] (oldest entry first),
    [this.currentAnalysis] and [this.issueConsistency] passed in, and the
    counters passed out. *)
Definition smoothPostureAnalysis (postureHistory : list PostureAnalysis)
    (currentAnalysis : option PostureAnalysis) (issueConsistency : Obj.t Z)
  : Obj.t Z * PostureAnalysis :=
  match postureHistory with
  | [] =>
      (issueConsistency,
       match currentAnalysis with
       | Some a => a
       | None => initializingAnalysis
       end)
  | _ :: _ =>
      let n := len postureHistory in
      let avgScore := reduce_sum score postureHistory / n in
      let avgNeckAngle := reduce_sum neckAngle postureHistory / n in
      let avgShoulderAlignment :=
        reduce_sum shoulderAlignment postureHistory / n in
      let avgSpineAlignment := reduce_sum spineAlignment postureHistory / n in
      let avgHeadPosition := reduce_sum headPosition postureHistory / n in
      let avgShoulderHeight := reduce_sum shoulderHeight postureHistory / n in
      let latestAnalysis := last postureHistory initializingAnalysis in
      let issues := issues latestAnalysis in
      let issueConsistency :=
        if gtb avgScore 8.0 then [] else issueConsistency in
      let issueConsistency := pruneZero issueConsistency in
      (issueConsistency,
       mkAnalysis (Math_round avgScore) issues
         (Math_round (avgNeckAngle * 10) / 10)
         (Math_round (avgShoulderAlignment * 10) / 10)
         (Math_round (avgSpineAlignment * 10) / 10)
         (Math_round (avgHeadPosition * 10) / 10)
         (Math_round (avgShoulderHeight * 10) / 10))
  end.

(** [history.push(a); if (history.length > window) history.shift()]. *)
Definition pushBounded {A} (window : nat) (history : list A) (a : A)
  : list A :=
  let history := (history ++ [a])%list in
  if (window <? List.length history)%nat then tl history else history.

(** The last [n] entries of a list. *)
Definition lastN {A} (n : nat) (l : list A) : list A :=
  skipn (List.length l - n) l.

(** ** The engine: detection loop, emitter and [stop] *)

(** The callbacks registered with the browser and not cancelled.  Handles
    are positive integers; timers and animation-frame requests have
    separate handle spaces. *)
Record Browser : Type := mkBrowser {
  timeouts : list positive;
  frameRequests : list positive;
  nextTimeout : positive;
  nextFrameRequest : positive
}.

Definition setTimeout (b : Browser) : positive * Browser :=
  (nextTimeout b,
   mkBrowser (nextTimeout b :: timeouts b) (frameRequests b)
     (Pos.succ (nextTimeout b)) (nextFrameRequest b)).

Definition requestAnimationFrame (b : Browser) : positive * Browser :=
  (nextFrameRequest b,
   mkBrowser (timeouts b) (nextFrameRequest b :: frameRequests b)
     (nextTimeout b) (Pos.succ (nextFrameRequest b))).

Definition clearTimeout (h : positive) (b : Browser) : Browser :=
  mkBrowser (remove Pos.eq_dec h (timeouts b)) (frameRequests b)
    (nextTimeout b) (nextFrameRequest b).

Definition cancelAnimationFrame (h : positive) (b : Browser) : Browser :=
  mkBrowser (timeouts b) (remove Pos.eq_dec h (frameRequests b))
    (nextTimeout b) (nextFrameRequest b).

(** The mutable fields of [TensorFlowPoseService] that the loop, the
    smoothing and [stop] read or write.  The detector and the video element
    are set before the loop starts and never unset. *)
Record Service : Type := mkService {
  isInitialized : bool;
  currentAnalysis : option PostureAnalysis;
  animationFrame : option positive;
  lastUpdateTime : Z;
  isPageVisible : bool;
  postureHistory : list PostureAnalysis;
  landmarkHistory : list PoseLandmarks;
  issueConsistency : Obj.t Z
}.


(** The field initialisers of the class. *)
Definition newService : Service :=
  mkService false None None 0%Z true [] [] [].

(** What [await this.detector.estimatePoses(...)] produced. *)
Inductive Detection : Type :=
| DetectionFailure
| Poses (poses : list (list Keypoint)).

(** The [visibilitychange] listener. *)
Definition onVisibilityChange (hidden : bool) (s : Service) : Service :=
  mkService (isInitialized s) (currentAnalysis s) (animationFrame s)
    (lastUpdateTime s) (negb hidden) (postureHistory s) (landmarkHistory s)
    (issueConsistency s).

(** What happens to the engine: the scheduled callback runs, with the
    outcome of the detector and the value of [Date.now()], or the page
    changes visibility. *)
Inductive Event : Type :=
| Tick (d : Detection) (now : Z)
| VisibilityChange (hidden : bool).

Definition newBrowser : Browser := mkBrowser [] [] 1 1.

Section Engine.
Context {M : MathLib}.

(** The [try] block of [detectPose]: the new fields and the analysis handed
    to [onPostureUpdate], if any.  An exception leaves the fields written so
    far and publishes nothing. *)
Definition detectPoseBody (d : Detection) (now : Z) (s : Service)
  : Service * option PostureAnalysis :=
  match d with
  | DetectionFailure => (s, None)
  | Poses [] => (s, None)
  | Poses (keypoints :: _) =>
      match extractLandmarks keypoints with
      | None => (s, None)
      | Some rawLandmarks =>
          let lh :=
            pushBounded LANDMARK_SMOOTHING_WINDOW (landmarkHistory s)
              rawLandmarks in
          match smoothLandmarks lh with
          | None =>
              (mkService (isInitialized s) (currentAnalysis s)
                 (animationFrame s) (lastUpdateTime s) (isPageVisible s)
                 (postureHistory s) lh (issueConsistency s), None)
          | Some landmarks =>
              let (ic, analysis) :=
                analyzePosture (issueConsistency s) landmarks in
              let ph :=
                pushBounded SMOOTHING_WINDOW (postureHistory s) analysis in
              if (UPDATE_INTERVAL <=? now - lastUpdateTime s)%Z
              then
                let (ic', smoothedAnalysis) :=
                  smoothPostureAnalysis ph (currentAnalysis s) ic in
                (mkService (isInitialized s) (Some smoothedAnalysis)
                   (animationFrame s) now (isPageVisible s) ph lh ic',
                 Some smoothedAnalysis)
              else
                (mkService (isInitialized s) (currentAnalysis s)
                   (animationFrame s) (lastUpdateTime s) (isPageVisible s)
                   ph lh ic, None)
          end
      end
  end.

(** The end of [detectPose]: the next iteration is scheduled with
    [setTimeout] while the page is hidden and with [requestAnimationFrame]
    while it is visible. *)
Definition reschedule (s : Service) (b : Browser) : Service * Browser :=
  let (h, b') :=
    if negb (isPageVisible s) then setTimeout b
    else requestAnimationFrame b in
  (mkService (isInitialized s) (currentAnalysis s) (Some h)
     (lastUpdateTime s) (isPageVisible s) (postureHistory s)
     (landmarkHistory s) (issueConsistency s), b').

(** One iteration of the detection loop. *)
Definition detectPose (d : Detection) (now : Z) (w : Service * Browser)
  : (Service * Browser) * option PostureAnalysis :=
  let (s, b) := w in
  let (s', published) := detectPoseBody d now s in
  (reschedule s' b, published).

(** The analyses published during a run of the loop, each with the time
    of its publication. *)
Fixpoint runLoop (events : list Event) (w : Service * Browser)
  : (Service * Browser) * list (Z * PostureAnalysis) :=
  match events with
  | [] => (w, [])
  | Tick d now :: events' =>
      let (w', published) := detectPose d now w in
      let (w'', log) := runLoop events' w' in
      (w'',
       match published with
       | Some a => (now, a) :: log
       | None => log
       end)
  | VisibilityChange hidden :: events' =>
      runLoop events' (onVisibilityChange hidden (fst w), snd w)
  end.

End Engine.

Definition stop (w : Service * Browser) : Service * Browser :=
  let (s, b) := w in
  let (frame, b') :=
    match animationFrame s with
    | Some h =>
        (None,
         if negb (isPageVisible s) then clearTimeout h b
         else cancelAnimationFrame h b)
    | None => (None, b)
    end in
  (mkService false None frame (lastUpdateTime s) (isPageVisible s)
     (postureHistory s) (landmarkHistory s) (issueConsistency s), b').

(** ** The tracking service, consumer of the published analyses

    A shallow embedding of [src/services/trackingService.ts].  The methods
    pass the fields of [TrackingService] in and out and return the
    callbacks they invoke, in order.  [Date.now()] is an argument.  The
    bodies of the four interval callbacks are functions of their own; the
    interval handles, and [isPageVisible], which only drives logging, are
    left out, so that [startTracking] and [stopTracking] are modelled by
    what they do to the other fields.  [localStorage] holds what
    [saveData] and [saveSettings] wrote last ([JSON.stringify] followed by
    [JSON.parse] gives the value back). *)

Module Tracking.

Record TrackingData : Type := mkData {
  screenTime : Z;
  postureScore : Q;
  lastBreakTime : Z;
  commonIssues : list string;
  startTime : Z;
  breakCount : Z;
  postureHistory : list Q;
  averagePostureScore : Q;
  sessionTime : Z
}.

Record Settings : Type := mkSettings {
  reminderInterval : Q;
  postureCheckInterval : Q;
  enableNotifications : bool;
  enableBreakAlerts : bool
}.

(** [onBreakAlert] and [onPostureAlert] may be [null]: the two [has...]
    fields say whether they are set. *)
Record Service : Type := mkService {
  data : TrackingData;
  settings : Settings;
  hasBreakAlert : bool;
  hasPostureAlert : bool;
  lastPostureAlertTime : Z;
  postureAlertActive : bool;
  breakAlertActive : bool;
  lastBreakAlertTime : Z;
  storedData : option TrackingData;
  storedSettings : option Settings
}.

Inductive Callback : Type :=
| OnPostureChange (score : Q)
| OnScreenTimeUpdate (screenTime : Z)
| OnBreakAlert
| OnPostureAlert (issues : list string) (score : Q).

Definition defaultSettings : Settings := mkSettings 45 60 true true.

Definition withData (s : Service) (d : TrackingData) : Service :=
  mkService d (settings s) (hasBreakAlert s) (hasPostureAlert s)
    (lastPostureAlertTime s) (postureAlertActive s) (breakAlertActive s)
    (lastBreakAlertTime s) (storedData s) (storedSettings s).

Definition saveData (s : Service) : Service :=
  mkService (data s) (settings s) (hasBreakAlert s) (hasPostureAlert s)
    (lastPostureAlertTime s) (postureAlertActive s) (breakAlertActive s)
    (lastBreakAlertTime s) (Some (data s)) (storedSettings s).

Definition saveSettings (s : Service) : Service :=
  mkService (data s) (settings s) (hasBreakAlert s) (hasPostureAlert s)
    (lastPostureAlertTime s) (postureAlertActive s) (breakAlertActive s)
    (lastBreakAlertTime s) (storedData s) (Some (settings s)).

(** The constructor: default data stamped with [Date.now()] and the
    settings passed in or the default ones, over which [loadStoredData]
    spreads what the storage holds. *)
Definition newService (now : Z) (onBreakAlert onPostureAlert : bool)
    (userSettings : option Settings) (stored : option TrackingData)
    (storedSt : option Settings) : Service :=
  let defaults := mkData 0 85 now [] now 0 [] 85 0 in
  mkService
    (match stored with Some d => d | None => defaults end)
    (match storedSt with
     | Some st => st
     | None =>
         match userSettings with
         | Some st => st
         | None => defaultSettings
         end
     end)
    onBreakAlert onPostureAlert 0 false false 0 stored storedSt.

(** [startTracking]: the posture alert is reset, the intervals are
    started and the data saved. *)
Definition startTracking (s : Service) : Service :=
  saveData
    (mkService (data s) (settings s) (hasBreakAlert s) (hasPostureAlert s)
       (lastPostureAlertTime s) false (breakAlertActive s)
       (lastBreakAlertTime s) (storedData s) (storedSettings s)).

(** [stopTracking]: the intervals are cleared and the data saved. *)
Definition stopTracking (s : Service) : Service := saveData s.

Definition updateSettings (newSettings : Settings) (s : Service) : Service :=
  let s1 :=
    mkService (data s) newSettings (hasBreakAlert s) (hasPostureAlert s)
      (lastPostureAlertTime s) (postureAlertActive s) (breakAlertActive s)
      (lastBreakAlertTime s) (storedData s) (storedSettings s) in
  startTracking (stopTracking (saveSettings s1)).

Definition getCurrentSettings (s : Service) : Settings := settings s.

Definition takeBreak (now : Z) (s : Service) : Service :=
  let d := data s in
  let d' :=
    mkData 0 (postureScore d) now (commonIssues d) (startTime d)
      (breakCount d + 1) (postureHistory d) (averagePostureScore d)
      (sessionTime d) in
  saveData
    (mkService d' (settings s) (hasBreakAlert s) (hasPostureAlert s)
       (lastPostureAlertTime s) (postureAlertActive s) false
       (lastBreakAlertTime s) (storedData s) (storedSettings s)).

Definition getCurrentData (s : Service) : TrackingData := data s.

Definition dismissBreakAlert (s : Service) : Service :=
  mkService (data s) (settings s) (hasBreakAlert s) (hasPostureAlert s)
    (lastPostureAlertTime s) (postureAlertActive s) false
    (lastBreakAlertTime s) (storedData s) (storedSettings s).

Definition dismissPostureAlert (s : Service) : Service :=
  mkService (data s) (settings s) (hasBreakAlert s) (hasPostureAlert s)
    (lastPostureAlertTime s) false (breakAlertActive s)
    (lastBreakAlertTime s) (storedData s) (storedSettings s).

(** [commonIssues.includes(issue)]. *)
Definition includes (l : list string) (issue : string) : bool :=
  existsb (String.eqb issue) l.

Definition withCommonIssues (d : TrackingData) (l : list string)
  : TrackingData :=
  mkData (screenTime d) (postureScore d) (lastBreakTime d) l (startTime d)
    (breakCount d) (postureHistory d) (averagePostureScore d)
    (sessionTime d).

Definition addCommonIssue (issue : string) (s : Service) : Service :=
  if negb (includes (commonIssues (data s)) issue)
  then
    saveData
      (withData s
         (withCommonIssues (data s) (commonIssues (data s) ++ [issue])%list))
  else s.

Definition removeCommonIssue (issue : string) (s : Service) : Service :=
  saveData
    (withData s
       (withCommonIssues (data s)
          (filter (fun i => negb (String.eqb i issue))
             (commonIssues (data s))))).

Definition withPostureScore (d : TrackingData) (q : Q) : TrackingData :=
  mkData (screenTime d) q (lastBreakTime d) (commonIssues d) (startTime d)
    (breakCount d) (postureHistory d) (averagePostureScore d)
    (sessionTime d).

Definition updatePostureScore (score : Q) (issues : option (list string))
    (now : Z) (s : Service) : Service * list Callback :=
  let d := data s in
  let history := pushBounded 20 (postureHistory d) score in
  let average := reduce_sum (fun b => b) history / len history in
  let d' :=
    mkData (screenTime d) score (lastBreakTime d) (commonIssues d)
      (startTime d) (breakCount d) history average (sessionTime d) in
  let timeSinceLastAlert := (now - lastPostureAlertTime s)%Z in
  let alertCooldown := 60000%Z in
  let canTriggerAlert :=
    enableNotifications (settings s)
    && ltb score 3
    && match issues with
       | Some l => (0 <? List.length l)%nat
       | None => false
       end
    && negb (postureAlertActive s)
    && (alertCooldown <? timeSinceLastAlert)%Z in
  let alerted :=
    match issues with
    | Some (mainIssue :: _) => canTriggerAlert && hasPostureAlert s
    | _ => false
    end in
  let alert :=
    match issues with
    | Some (mainIssue :: _) =>
        if alerted then [OnPostureAlert [mainIssue] score] else []
    | _ => []
    end in
  (saveData
     (mkService d' (settings s) (hasBreakAlert s) (hasPostureAlert s)
        (if alerted then now else lastPostureAlertTime s)
        (if alerted then true else postureAlertActive s)
        (breakAlertActive s) (lastBreakAlertTime s) (storedData s)
        (storedSettings s)),
   (alert ++ [OnPostureChange score])%list).

(** The callback of [startPostureMonitoring]. *)
Definition postureMonitoringTick (s : Service) : Service := saveData s.

(** The callback of [startScreenTimeTracking]. *)
Definition screenTimeTick (s : Service) : Service * list Callback :=
  let d := data s in
  let d' :=
    mkData (screenTime d + 1) (postureScore d) (lastBreakTime d)
      (commonIssues d) (startTime d) (breakCount d) (postureHistory d)
      (averagePostureScore d) (sessionTime d) in
  (saveData (withData s d'), [OnScreenTimeUpdate (screenTime d')]).

(** The callback of [startSessionTimeTracking]. *)
Definition sessionTimeTick (now : Z) (s : Service) : Service :=
  let d := data s in
  let d' :=
    mkData (screenTime d) (postureScore d) (lastBreakTime d)
      (commonIssues d) (startTime d) (breakCount d) (postureHistory d)
      (averagePostureScore d) ((now - startTime d) / 60000)%Z in
  saveData (withData s d').

(** The callback of [startBreakAlerts]. *)
Definition breakAlertTick (now : Z) (s : Service) : Service * list Callback :=
  let timeSinceLastBreak := ((now - lastBreakTime (data s)) / 60000)%Z in
  let timeSinceLastBreakAlert := (now - lastBreakAlertTime s)%Z in
  let breakAlertCooldown := 300000%Z in
  if geb (inject_Z timeSinceLastBreak) (reminderInterval (settings s))
     && hasBreakAlert s
     && negb (breakAlertActive s)
     && (breakAlertCooldown <? timeSinceLastBreakAlert)%Z
  then
    (mkService (data s) (settings s) (hasBreakAlert s) (hasPostureAlert s)
       (lastPostureAlertTime s) (postureAlertActive s) true now
       (storedData s) (storedSettings s),
     [OnBreakAlert])
  else (s, []).

Definition simulatePoorPosture (s : Service) : Service * list Callback :=
  let score := Math_max 0 (postureScore (data s) - 20) in
  (saveData (withData s (withPostureScore (data s) score)),
   [OnPostureChange score]).

Definition simulateGoodPosture (s : Service) : Service * list Callback :=
  let score := Math_min 100 (postureScore (data s) + 15) in
  (saveData (withData s (withPostureScore (data s) score)),
   [OnPostureChange score]).

(** What is done to the service: a method call or the firing of one of
    its intervals. *)
Inductive Event : Type :=
| StartTracking
| StopTracking
| UpdateSettings (newSettings : Settings)
| UpdatePostureScore (score : Q) (issues : option (list string)) (now : Z)
| TakeBreak (now : Z)
| DismissBreakAlert
| DismissPostureAlert
| AddCommonIssue (issue : string)
| RemoveCommonIssue (issue : string)
| PostureMonitoringTick
| ScreenTimeTick
| SessionTimeTick (now : Z)
| BreakAlertTick (now : Z)
| SimulatePoorPosture
| SimulateGoodPosture.

Definition step (e : Event) (s : Service) : Service * list Callback :=
  match e with
  | StartTracking => (startTracking s, [])
  | StopTracking => (stopTracking s, [])
  | UpdateSettings newSettings => (updateSettings newSettings s, [])
  | UpdatePostureScore score issues now =>
      updatePostureScore score issues now s
  | TakeBreak now => (takeBreak now s, [])
  | DismissBreakAlert => (dismissBreakAlert s, [])
  | DismissPostureAlert => (dismissPostureAlert s, [])
  | AddCommonIssue issue => (addCommonIssue issue s, [])
  | RemoveCommonIssue issue => (removeCommonIssue issue s, [])
  | PostureMonitoringTick => (postureMonitoringTick s, [])
  | ScreenTimeTick => screenTimeTick s
  | SessionTimeTick now => (sessionTimeTick now s, [])
  | BreakAlertTick now => breakAlertTick now s
  | SimulatePoorPosture => simulatePoorPosture s
  | SimulateGoodPosture => simulateGoodPosture s
  end.

(** The callbacks invoked during a sequence of events, each with the
    event that caused it. *)
Fixpoint run (events : list Event) (s : Service)
  : Service * list (Event * Callback) :=
  match events with
  | [] => (s, [])
  | e :: events' =>
      let (s', callbacks) := step e s in
      let (s'', log) := run events' s' in
      (s'', (map (fun c => (e, c)) callbacks ++ log)%list)
  end.

(** [handlePostureAnalysis] of the application: the published analysis is
    handed to [updatePostureScore] with its score and its issues. *)
Definition handlePostureAnalysis (analysis : PostureAnalysis) (now : Z)
    (s : Service) : Service * list Callback :=
  updatePostureScore (score analysis) (Some (issues analysis)) now s.

End Tracking.

(** ** A rational approximation of the runtime's numeric functions

    Used to evaluate the model on concrete frames; the theorems below hold
    for every [MathLib]. *)

Module Approx.

(** Square root to six decimals. *)
Definition sqrt (q : Q) : Q :=
  Z.sqrt (Qfloor (q * 1000000000000)) # 1000000.

Definition PI : Q := 3.141592653589793.

(** [atan t = 2 * atan (half t)]. *)
Definition half (t : Q) : Q := Qred (t / (1 + sqrt (1 + t * t))).

Definition series (t : Q) : Q :=
  let t2 := t * t in
  Qred (t * (1 - t2 * (1 / 3 - t2 * (1 / 5 - t2 * (1 / 7 - t2 * (1 / 9)))))).

(** Arc tangent to nine decimals. *)
Definition atan (t : Q) : Q :=
  Qfloor (8 * series (half (half (half t))) * 1000000000) # 1000000000.

Definition atan2 (b a : Q) : Q :=
  if gtb a 0 then atan (b / a)
  else if ltb a 0 then
    (if geb b 0 then atan (b / a) + PI else atan (b / a) - PI)
  else if gtb b 0 then PI / 2
  else if ltb b 0 then - (PI / 2)
  else 0.

Definition acos (c : Q) : Q := atan2 (sqrt (1 - c * c)) c.

End Approx.

Definition approxMath : MathLib :=
  {| Math_sqrt := Approx.sqrt;
     Math_acos := Approx.acos;
     Math_atan2 := Approx.atan2;
     Math_PI := Approx.PI |}.

(** * Vocabulary of the properties *)

(** ** Threshold checks and counters *)

(** [extends t t']: [t'] is [t] after some more issues were flagged, each
    with a penalty that is not negative. *)
Inductive extends (t : Tally) : Tally -> Prop :=
| extends_refl : extends t t
| extends_flag k p t' : 0 <= p -> extends t t' -> extends t (flag k p t').

(** Every entry of [potentialIssues] holds [true], and each key occurs
    once. *)
Definition allDetected (pot : Obj.t bool) : Prop :=
  Obj.wf pot /\ forall k b, In (k, b) pot -> b = true.

(** The counter of an issue, 0 when the issue is not tracked. *)
Definition counter (ic : Obj.t Z) (issue : string) : Z :=
  orZero (Obj.get ic issue).

(** The cases of the [switch] of [analyzePosture], as a table. *)
Definition issueTable : list (string * string) :=
  [("forward_head",
    "Forward head posture - Try pulling your chin back and aligning your ears over your shoulders");
   ("slight_forward_head",
    "Slight forward head - Gently tuck your chin and lengthen the back of your neck");
   ("uneven_shoulders",
    "Uneven shoulders - Try to level your shoulders by relaxing the higher one");
   ("slight_shoulder_imbalance",
    "Slight shoulder imbalance - Focus on keeping both shoulders at the same height");
   ("head_tilt", "Head tilted - Try to keep your head level and centered");
   ("slight_head_tilt",
    "Slight head tilt - Gently straighten your head to center");
   ("shoulder_height_imbalance",
    "Shoulder height imbalance - Relax your shoulders and let them hang naturally");
   ("slight_shoulder_height",
    "Slight shoulder height difference - Focus on keeping shoulders level");
   ("spine_alignment",
    "Poor spine alignment - Sit up straight, imagine a string pulling you up from the top of your head");
   ("slight_spine_deviation",
    "Slight spine deviation - Gently straighten your back and engage your core");
   ("slouching",
    "Slouching detected - Roll your shoulders back and down, open your chest");
   ("head_neck_alignment",
    "Poor head and neck alignment - Try to align your head directly over your shoulders");
   ("slight_head_neck",
    "Slight head/neck misalignment - Gently adjust your head position");
   ("too_close_to_camera",
    "Too close to camera - Move back to get better posture detection");
   ("too_far_from_camera",
    "Too far from camera - Move closer for better posture detection")].

(** The strings pushed as positive feedback. *)
Definition feedbackMessages : list string :=
  ["Excellent posture! Keep it up!";
   "Good posture overall, minor adjustments needed";
   "Posture is improving, keep working on it"].

(** Boolean test that the strings of a list are pairwise different. *)
Fixpoint distinct (l : list string) : bool :=
  match l with
  | [] => true
  | s :: l' => negb (existsb (String.eqb s) l') && distinct l'
  end.

(** ** Metrics *)

(** The five metrics of a [PostureAnalysis]. *)
Inductive Metric : Type :=
| NeckAngle | ShoulderAlignment | SpineAlignment | HeadPosition
| ShoulderHeight.

(** The joints whose visibility the metric's function tests. *)
Definition relevantJoints (m : Metric) : list Joint :=
  match m with
  | NeckAngle => [Nose; LeftEar; LeftShoulder]
  | ShoulderAlignment => [LeftShoulder; RightShoulder]
  | SpineAlignment => [LeftShoulder; RightShoulder; LeftHip; RightHip]
  | HeadPosition => [LeftEar; RightEar; Nose]
  | ShoulderHeight => [LeftShoulder; RightShoulder]
  end.

(** The field of the analysis that reports the metric. *)
Definition reported (m : Metric) : PostureAnalysis -> Q :=
  match m with
  | NeckAngle => neckAngle
  | ShoulderAlignment => shoulderAlignment
  | SpineAlignment => spineAlignment
  | HeadPosition => headPosition
  | ShoulderHeight => shoulderHeight
  end.

(** ** Runs of the classifier and of the loop *)

(** One call of [analyzePosture] in a run: the counters it found, the
    frame, the counters it left and the analysis it returned. *)
Record Step : Type := mkStep {
  before : Obj.t Z;
  frame : PoseLandmarks;
  after : Obj.t Z;
  analysis : PostureAnalysis
}.

(** The history and current analysis of a smoothing pass, or [None] when
    the loop did not run one. *)
Definition Smoothing : Type :=
  option (list PostureAnalysis * option PostureAnalysis).

(** The frame passes the visibility gate. *)
Definition classified (lm : PoseLandmarks) : bool :=
  negb (visibleLandmarks lm <? 2)%nat.

(** The iteration completed a per-frame analysis: the detector returned a
    pose with its seventeen keypoints. *)
Definition analysed (d : Detection) : bool :=
  match d with
  | Poses (keypoints :: _) =>
      match extractLandmarks keypoints with
      | Some _ => true
      | None => false
      end
  | _ => false
  end.

(** Two publications are at least [UPDATE_INTERVAL] apart. *)
Definition spaced (e1 e2 : Z * PostureAnalysis) : Prop :=
  (fst e1 + UPDATE_INTERVAL <= fst e2)%Z.

Section Vocabulary.
Context {M : MathLib}.

(** The function that computes the metric. *)
Definition calculate (m : Metric) : PoseLandmarks -> Q :=
  match m with
  | NeckAngle => calculateNeckAngle
  | ShoulderAlignment => calculateShoulderAlignment
  | SpineAlignment => calculateSpineAlignment
  | HeadPosition => calculateHeadPosition
  | ShoulderHeight => calculateShoulderHeight
  end.

(** The too-far test of the low-visibility branch: both shoulders seen
    with visibility above 0.1 and less than 0.1 apart. *)
Definition shouldersCollapsed (lm : PoseLandmarks) : bool :=
  gtb (visibility (leftShoulder lm)) 0.1
  && gtb (visibility (rightShoulder lm)) 0.1
  && ltb (distance (x (leftShoulder lm)) (y (leftShoulder lm))
            (x (rightShoulder lm)) (y (rightShoulder lm))) 0.1.

(** What [smoothPostureAnalysis] does to the counters when the loop runs
    it after a frame. *)
Definition smoothCounters (sm : Smoothing) (ic : Obj.t Z) : Obj.t Z :=
  match sm with
  | Some (history, current) => fst (smoothPostureAnalysis history current ic)
  | None => ic
  end.

(** [analyzePosture] on consecutive frames, each followed by the smoothing
    pass that the loop ran after it, if any. *)
Fixpoint analyzeFrames (ic : Obj.t Z)
    (frames : list (PoseLandmarks * Smoothing)) : list Step :=
  match frames with
  | [] => []
  | (lm, sm) :: frames' =>
      let r := analyzePosture ic lm in
      mkStep ic lm (fst r) (snd r)
      :: analyzeFrames (smoothCounters sm (fst r)) frames'
  end.

(** What a step of the classifier guarantees for the issue [issue] whose
    text is [message]. *)
Definition stepShows (st : Step) (issue message : string) : Prop :=
  let pot := potentialIssues (evaluateIssues (frame st)) in
  let shown := In message (issues (analysis st)) in
  if classified (frame st)
  then
    (shown <->
     (CONSISTENCY_THRESHOLD <= counter (after st) issue)%Z /\
     flagged pot issue = true) /\
    (counter (before st) issue = 0%Z -> ~ shown) /\
    (flagged pot issue = false -> ~ shown)
  else
    after st = before st /\
    analysis st = lowVisibilityAnalysis (frame st).

(** The counters after [analyzePosture] ran on each frame in turn, with
    the smoothing passes in between. *)
Definition countersAfter (ic : Obj.t Z)
    (frames : list (PoseLandmarks * Smoothing)) : Obj.t Z :=
  fold_left
    (fun ic (e : PoseLandmarks * Smoothing) =>
       smoothCounters (snd e) (fst (analyzePosture ic (fst e))))
    frames ic.

(** The frame passes the visibility gate and flags the issue. *)
Definition qualifies (issue : string) (lm : PoseLandmarks) : bool :=
  classified lm && flagged (potentialIssues (evaluateIssues lm)) issue.

(** How many of the frames qualify for the issue. *)
Definition qualifyingFrames (issue : string) (frames : list PoseLandmarks)
  : nat :=
  List.length (filter (qualifies issue) frames).

End Vocabulary.

(** ** Sample inputs *)

(** A frame none of whose joints is seen, all placed at abscissa [px]. *)
Definition unseenAt (px : Q) : PoseLandmarks :=
  let l := mkLandmark px 0.5 0 0 in
  mkPose l l l l l l l l l l l l l l l l l.

(** A frame in which nose and shoulders are barely seen and the shoulders
    coincide. *)
Definition faintFrame : PoseLandmarks :=
  let l := mkLandmark 0.5 0.5 0 0.15 in
  mkPose l l l l l l l l l l l l l l l l l.

(** A frame in which every joint is clearly seen. *)
Definition visibleFrame : PoseLandmarks :=
  let at_ px py := mkLandmark px py 0 0.9 in
  mkPose (at_ 0.5 0.2) (at_ 0.47 0.18) (at_ 0.53 0.18) (at_ 0.44 0.2)
    (at_ 0.56 0.2) (at_ 0.35 0.4) (at_ 0.65 0.4) (at_ 0.3 0.6)
    (at_ 0.7 0.6) (at_ 0.3 0.8) (at_ 0.7 0.8) (at_ 0.4 0.8) (at_ 0.6 0.8)
    (at_ 0.4 0.9) (at_ 0.6 0.9) (at_ 0.4 0.95) (at_ 0.6 0.95).

(** Two per-frame analyses: the reposition analysis of the visibility
    gate, then a frame scored 9 with a neck angle of 12.34. *)
Definition sampleHistory : list PostureAnalysis :=
  [repositionAnalysis;
   mkAnalysis 9 ["Excellent posture! Keep it up!"] 12.34 0 0 0 0].

(** Three clearly seen frames, with a smoothing pass after the second
    one. *)
Definition sampleRun : list (PoseLandmarks * Smoothing) :=
  [(visibleFrame, None);
   (visibleFrame, Some ([repositionAnalysis], None));
   (visibleFrame, None)].

(** A pose with seventeen confidently detected keypoints. *)
Definition samplePose : list Keypoint :=
  repeat (mkKeypoint 0.5 0.5 0.9) 17.

(** ** Further vocabulary *)

(** The MoveNet keypoint index of each joint ([keypointMap]). *)
Definition jointIndex (j : Joint) : nat :=
  match j with
  | Nose => 0 | LeftEye => 1 | RightEye => 2 | LeftEar => 3 | RightEar => 4
  | LeftShoulder => 5 | RightShoulder => 6 | LeftElbow => 7
  | RightElbow => 8 | LeftWrist => 9 | RightWrist => 10 | LeftHip => 11
  | RightHip => 12 | LeftKnee => 13 | RightKnee => 14 | LeftAnkle => 15
  | RightAnkle => 16
  end.

(** The landmark that [getKeypoint] builds from a keypoint. *)
Definition landmarkOf (kp : Keypoint) : Landmark :=
  mkLandmark (kp_x kp) (kp_y kp) 0 (kp_score kp).

(** The issue key has a [case] in the [switch] of [analyzePosture]. *)
Definition knownIssue (issue : string) : Prop :=
  In issue (map fst issueTable).

(** Counters as the engine keeps them: each key once, a known issue, with
    a count that is not negative. *)
Definition countersOk (ic : Obj.t Z) : Prop :=
  Obj.wf ic /\
  forall issue count, In (issue, count) ic ->
                      (0 <= count)%Z /\ knownIssue issue.

(** Which issue keys the thresholds of [analyzePosture] select for a
    frame: for each metric the severe key above the upper threshold, the
    slight key between the two thresholds. *)
Definition detects {M : MathLib} (lm : PoseLandmarks) (issue : string)
  : bool :=
  let neck := calculateNeckAngle lm in
  let shoulders := calculateShoulderAlignment lm in
  let head := calculateHeadPosition lm in
  let height := calculateShoulderHeight lm in
  let spine := calculateSpineAlignment lm in
  if issue =? "forward_head" then gtb neck 30
  else if issue =? "slight_forward_head"
  then negb (gtb neck 30) && gtb neck 20
  else if issue =? "uneven_shoulders" then gtb shoulders 20
  else if issue =? "slight_shoulder_imbalance"
  then negb (gtb shoulders 20) && gtb shoulders 12
  else if issue =? "head_tilt" then gtb head 25
  else if issue =? "slight_head_tilt"
  then negb (gtb head 25) && gtb head 15
  else if issue =? "shoulder_height_imbalance" then gtb height 30
  else if issue =? "slight_shoulder_height"
  then negb (gtb height 30) && gtb height 22
  else if issue =? "spine_alignment" then gtb spine 40
  else if issue =? "slight_spine_deviation"
  then negb (gtb spine 40) && gtb spine 32
  else if issue =? "slouching" then detectSlouching lm
  else if issue =? "head_neck_alignment" then true
  else if issue =? "too_close_to_camera" then detectTooCloseToCamera lm
  else if issue =? "too_far_from_camera" then detectTooFarFromCamera lm
  else false.

(** The smoothing pass, if any, does not take the high-score branch that
    clears the counters. *)
Definition calm (sm : Smoothing) : bool :=
  match sm with
  | Some (history, _) => negb (gtb (mean (map score history)) 8.0)
  | None => true
  end.

(** The fields of the service that the analysis reads and writes; the
    scheduling fields are left out. *)
Definition analysisState (s : Service)
  : option PostureAnalysis * Z * list PostureAnalysis * list PoseLandmarks
    * Obj.t Z :=
  (currentAnalysis s, lastUpdateTime s, postureHistory s, landmarkHistory s,
   issueConsistency s).

(** The event is an iteration that completed a per-frame analysis. *)
Definition productive (e : Event) : bool :=
  match e with
  | Tick d _ => analysed d
  | VisibilityChange _ => false
  end.

(** A per-frame score as [analyzePosture] returns them. *)
Definition scoreInRange (a : PostureAnalysis) : Prop :=
  2 <= score a /\ score a <= 10.

(** A per-frame analysis as [analyzePosture] returns them: the score in
    [2, 10] and no negative metric. *)
Definition wellScored (a : PostureAnalysis) : Prop :=
  scoreInRange a /\ forall m, 0 <= reported m a.

(** A published analysis: the score a whole number from 2 to 10 and no
    negative metric. *)
Definition wholeScored (a : PostureAnalysis) : Prop :=
  (exists n : Z, score a = inject_Z n /\ (2 <= n <= 10)%Z) /\
  forall m, 0 <= reported m a.

(** The scores handed to [updatePostureScore] during a sequence of
    events, in order. *)
Definition scoresOf (events : list Tracking.Event) : list Q :=
  flat_map
    (fun e =>
       match e with
       | Tracking.UpdatePostureScore q _ _ => [q]
       | _ => []
       end) events.

(** The posture alerts of a log: time, issues and score. *)
Definition postureAlertsOf (log : list (Tracking.Event * Tracking.Callback))
  : list (Z * list string * Q) :=
  flat_map
    (fun ec : Tracking.Event * Tracking.Callback =>
       match ec with
       | (Tracking.UpdatePostureScore _ _ now, Tracking.OnPostureAlert l q) =>
           [(now, l, q)]
       | _ => []
       end) log.

(** The times of the break alerts of a log. *)
Definition breakAlertsOf (log : list (Tracking.Event * Tracking.Callback))
  : list Z :=
  flat_map
    (fun ec : Tracking.Event * Tracking.Callback =>
       match ec with
       | (Tracking.BreakAlertTick now, Tracking.OnBreakAlert) => [now]
       | _ => []
       end) log.

(** The time of a posture alert. *)
Definition alertTime (a : Z * list string * Q) : Z := fst (fst a).

(** No event of the sequence satisfies [p]. *)
Definition noneOf (p : Tracking.Event -> bool) (events : list Tracking.Event)
  : bool :=
  forallb (fun e => negb (p e)) events.

(** The events that reset [postureAlertActive]. *)
Definition resetsPostureAlert (e : Tracking.Event) : bool :=
  match e with
  | Tracking.DismissPostureAlert | Tracking.StartTracking
  | Tracking.UpdateSettings _ => true
  | _ => false
  end.

(** The events that reset [breakAlertActive]. *)
Definition resetsBreakAlert (e : Tracking.Event) : bool :=
  match e with
  | Tracking.DismissBreakAlert | Tracking.TakeBreak _ => true
  | _ => false
  end.

(** The event is a call of [takeBreak]. *)
Definition isTakeBreak (e : Tracking.Event) : bool :=
  match e with
  | Tracking.TakeBreak _ => true
  | _ => false
  end.

(** The stored average is the mean of the stored history. *)
Definition averageIsMean (s : Tracking.Service) : Prop :=
  Tracking.averagePostureScore (Tracking.data s)
  = mean (Tracking.postureHistory (Tracking.data s)).


(** The common issues of a tracking service. *)
Definition commonIssuesOf (s : Tracking.Service) : list string :=
  Tracking.commonIssues (Tracking.data s).

(** A tracking service as the application creates it, at time 1000 with
    both alert handlers and an empty storage. *)
Definition sampleTracking : Tracking.Service :=
  Tracking.newService 1000 true true None None None.

(** A frame seen well enough to pass the visibility gate, but with no
    joint above 0.5. *)
Definition dimFrame : PoseLandmarks :=
  let at_ px py := mkLandmark px py 0 0.3 in
  mkPose (at_ 0.5 0.2) (at_ 0.47 0.18) (at_ 0.53 0.18) (at_ 0.44 0.2)
    (at_ 0.56 0.2) (at_ 0.35 0.4) (at_ 0.65 0.4) (at_ 0.3 0.6)
    (at_ 0.7 0.6) (at_ 0.3 0.8) (at_ 0.7 0.8) (at_ 0.4 0.8) (at_ 0.6 0.8)
    (at_ 0.4 0.9) (at_ 0.6 0.9) (at_ 0.4 0.95) (at_ 0.6 0.95).

(** * Properties *)

(** ** The model on concrete inputs *)

Example Math_round_halves_upwards :
  Math_round 7.5 == 8 /\ Math_round (-2.5) == -2 /\ Math_round 2.4 == 2.
Proof. vm_compute. tauto. Qed.

Example pushBounded_drops_oldest :
  pushBounded 3 [1; 2; 3]%Z 4%Z = [2; 3; 4]%Z /\
  pushBounded 3 [1; 2]%Z 3%Z = [1; 2; 3]%Z.
Proof. split; reflexivity. Qed.

Example extractLandmarks_needs_all_keypoints :
  extractLandmarks [] = None /\
  extractLandmarks (removelast samplePose) = None /\
  option_map nose (extractLandmarks samplePose)
  = Some (mkLandmark 0.5 0.5 0 0.9).
Proof. repeat split; reflexivity. Qed.

Example averageLandmark_skips_unseen :
  let l :=
    averageLandmark
      [mkLandmark 0.2 0.4 0 0.9; mkLandmark 0.9 0.9 0 0.05;
       mkLandmark 0.4 0.6 0 0.7] in
  x l == 0.3 /\ y l == 0.5 /\ z l == 0 /\ visibility l == 0.8.
Proof. vm_compute. tauto. Qed.

Example issues_surface_on_third_frame :
  map (fun st => issues (analysis st))
    (analyzeFrames (M := approxMath) [] sampleRun)
  = [["Good posture overall, minor adjustments needed"];
     ["Good posture overall, minor adjustments needed"];
     ["Forward head posture - Try pulling your chin back and aligning your ears over your shoulders";
      "Poor head and neck alignment - Try to align your head directly over your shoulders";
      "Good posture overall, minor adjustments needed"]].
Proof. vm_compute. reflexivity. Qed.

(** ** Facts about numbers *)

Module JsFacts.

Lemma gtb_true a b : gtb a b = true <-> b < a.
Proof.
  unfold gtb. rewrite negb_true_iff, <- not_true_iff_false, Qle_bool_iff.
  split; intro H; lra.
Qed.

Lemma gtb_false a b : gtb a b = false <-> a <= b.
Proof.
  unfold gtb. rewrite negb_false_iff, Qle_bool_iff. reflexivity.
Qed.

Lemma ltb_true a b : ltb a b = true <-> a < b.
Proof.
  unfold ltb. rewrite negb_true_iff, <- not_true_iff_false, Qle_bool_iff.
  split; intro H; lra.
Qed.

Lemma ltb_false a b : ltb a b = false <-> b <= a.
Proof.
  unfold ltb. rewrite negb_false_iff, Qle_bool_iff. reflexivity.
Qed.

Lemma geb_true a b : geb a b = true <-> b <= a.
Proof. unfold geb. apply Qle_bool_iff. Qed.

Lemma Math_max_ge_l a b : a <= Math_max a b.
Proof.
  unfold Math_max. destruct (Qle_bool a b) eqn:E.
  - now apply Qle_bool_iff.
  - lra.
Qed.

Lemma Math_max_ge_r a b : b <= Math_max a b.
Proof.
  unfold Math_max. destruct (Qle_bool a b) eqn:E.
  - lra.
  - apply not_true_iff_false in E. rewrite Qle_bool_iff in E. lra.
Qed.

Lemma Math_max_lub a b c : a <= c -> b <= c -> Math_max a b <= c.
Proof. unfold Math_max. destruct (Qle_bool a b); auto. Qed.

Lemma Math_min_le_l a b : Math_min a b <= a.
Proof.
  unfold Math_min. destruct (Qle_bool a b) eqn:E.
  - lra.
  - apply not_true_iff_false in E. rewrite Qle_bool_iff in E. lra.
Qed.

Lemma Math_min_le_r a b : Math_min a b <= b.
Proof.
  unfold Math_min. destruct (Qle_bool a b) eqn:E.
  - now apply Qle_bool_iff.
  - lra.
Qed.

Lemma Math_min_glb a b c : c <= a -> c <= b -> c <= Math_min a b.
Proof. unfold Math_min. destruct (Qle_bool a b); auto. Qed.

End JsFacts.

Import JsFacts.

(** ** Facts about objects *)

Module ObjFacts.
Section WithValue.
Context {V : Type}.
Implicit Types (o : Obj.t V) (k : string) (v : V).

Lemma get_set_same o k v : Obj.get (Obj.set o k v) k = Some v.
Proof.
  induction o as [|[k' v'] o IH]; simpl.
  - now rewrite String.eqb_refl.
  - destruct (String.eqb k' k) eqn:E; simpl; rewrite E; auto.
Qed.

Lemma get_set_other o k k' v :
  k <> k' -> Obj.get (Obj.set o k v) k' = Obj.get o k'.
Proof.
  intros Hne. induction o as [|[k0 v0] o IH]; simpl.
  - destruct (String.eqb k k') eqn:E; auto.
    apply String.eqb_eq in E. contradiction.
  - destruct (String.eqb k0 k) eqn:E; simpl.
    + apply String.eqb_eq in E. subst k0.
      destruct (String.eqb k k') eqn:E'; auto.
      apply String.eqb_eq in E'. contradiction.
    + now rewrite IH.
Qed.

Lemma get_None o k : Obj.get o k = None <-> ~ In k (Obj.keys o).
Proof.
  induction o as [|[k0 v0] o IH]; simpl.
  - tauto.
  - destruct (String.eqb k0 k) eqn:E.
    + apply String.eqb_eq in E. split; [discriminate | intros H; tauto].
    + apply String.eqb_neq in E. rewrite IH. tauto.
Qed.

Lemma get_In o k v : Obj.get o k = Some v -> In (k, v) o.
Proof.
  induction o as [|[k0 v0] o IH]; simpl; [discriminate|].
  destruct (String.eqb k0 k) eqn:E.
  - apply String.eqb_eq in E. intros [= ->]. subst. now left.
  - intros H. right. auto.
Qed.

Lemma In_get o k v : Obj.wf o -> In (k, v) o -> Obj.get o k = Some v.
Proof.
  unfold Obj.wf. induction o as [|[k0 v0] o IH]; simpl; [tauto|].
  intros Hnd [H|H].
  - injection H as -> ->. now rewrite String.eqb_refl.
  - inversion Hnd as [|? ? Hnotin Hnd']; subst.
    destruct (String.eqb k0 k) eqn:E.
    + apply String.eqb_eq in E. subst k0. exfalso. apply Hnotin.
      change (In (fst (k, v)) (map fst o)). now apply in_map.
    + auto.
Qed.

Lemma keys_set o k v :
  Obj.keys (Obj.set o k v) =
  if in_dec string_dec k (Obj.keys o) then Obj.keys o
  else (Obj.keys o ++ [k])%list.
Proof.
  induction o as [|[k0 v0] o IH]; simpl; auto.
  destruct (String.eqb k0 k) eqn:E; simpl.
  - apply String.eqb_eq in E. subst k0.
    destruct (string_dec k k); [|contradiction].
    now destruct (in_dec string_dec k (Obj.keys o)).
  - apply String.eqb_neq in E.
    destruct (string_dec k0 k); [contradiction|].
    rewrite IH. now destruct (in_dec string_dec k (Obj.keys o)).
Qed.

Lemma wf_set o k v : Obj.wf o -> Obj.wf (Obj.set o k v).
Proof.
  unfold Obj.wf. rewrite keys_set.
  destruct (in_dec string_dec k (Obj.keys o)) as [Hin|Hnin]; auto.
  intros Hnd. apply NoDup_app; auto.
  - repeat constructor. simpl. tauto.
  - intros a Ha [<-|[]]. contradiction.
Qed.

Lemma keys_delete_incl o k a :
  In a (Obj.keys (Obj.delete o k)) -> In a (Obj.keys o).
Proof.
  induction o as [|[k0 v0] o IH]; simpl; auto.
  destruct (String.eqb k0 k); simpl; tauto.
Qed.

Lemma wf_delete o k : Obj.wf o -> Obj.wf (Obj.delete o k).
Proof.
  unfold Obj.wf. induction o as [|[k0 v0] o IH]; simpl; auto.
  intros Hnd. inversion Hnd as [|? ? Hnotin Hnd']; subst.
  destruct (String.eqb k0 k); simpl; auto.
  constructor; auto. intros Hin. apply Hnotin.
  now apply keys_delete_incl in Hin.
Qed.

Lemma get_delete_same o k : Obj.wf o -> Obj.get (Obj.delete o k) k = None.
Proof.
  unfold Obj.wf. induction o as [|[k0 v0] o IH]; simpl; auto.
  intros Hnd. inversion Hnd as [|? ? Hnotin Hnd']; subst.
  destruct (String.eqb k0 k) eqn:E; simpl.
  - apply String.eqb_eq in E. subst k0. now apply get_None.
  - rewrite E. auto.
Qed.

Lemma get_delete_other o k k' :
  k <> k' -> Obj.get (Obj.delete o k) k' = Obj.get o k'.
Proof.
  intros Hne. induction o as [|[k0 v0] o IH]; simpl; auto.
  destruct (String.eqb k0 k) eqn:E; simpl.
  - apply String.eqb_eq in E. subst k0.
    destruct (String.eqb k k') eqn:E'; auto.
    apply String.eqb_eq in E'. contradiction.
  - now rewrite IH.
Qed.

End WithValue.
End ObjFacts.

Import ObjFacts.

(** ** Landmark smoother *)

Lemma reduce_sum_map {A} (f : A -> Q) (xs : list A) :
  reduce_sum f xs = fold_left Qplus (map f xs) 0.
Proof.
  unfold reduce_sum. generalize 0. induction xs as [|a xs IH]; simpl; auto.
Qed.

Lemma len_map {A B} (f : A -> B) (xs : list A) : len (map f xs) = len xs.
Proof. unfold len. now rewrite length_map. Qed.

Lemma reduce_sum_mean {A} (f : A -> Q) (xs : list A) :
  reduce_sum f xs / len xs = mean (map f xs).
Proof. unfold mean. now rewrite reduce_sum_map, len_map. Qed.

Lemma joint_smoothed (j : Joint) (a b : PoseLandmarks) rest frame :
  smoothLandmarks (a :: b :: rest) = Some frame ->
  joint j frame = averageLandmark (map (joint j) (a :: b :: rest)).
Proof.
  unfold smoothLandmarks. intros [= <-]. now destruct j.
Qed.

Lemma averageLandmark_spec (first : Landmark) (rest : list Landmark) :
  match filter valid (first :: rest) with
  | [] => averageLandmark (first :: rest) = first
  | passing =>
      averageLandmark (first :: rest) =
      mkLandmark (mean (map x passing)) (mean (map y passing))
        (mean (map z passing)) (mean (map visibility passing))
  end.
Proof.
  unfold averageLandmark.
  destruct (filter valid (first :: rest)) as [|p ps]; auto.
  now rewrite !reduce_sum_mean.
Qed.

Lemma mean_singleton (q : Q) : mean [q] == q.
Proof. unfold mean, len. simpl. field. Qed.

(** C7, refuted as stated: when no entry of the window passes the
    visibility floor, the smoothed joint is the oldest entry of the window
    and not the most recent one; and on an empty window [smoothLandmarks]
    raises instead of returning a placeholder frame. *)
Lemma smoothLandmarks_fallback_not_latest :
  let window := [unseenAt 0.1; unseenAt 0.9] in
  filter valid (map nose window) = [] /\
  option_map nose (smoothLandmarks window) = Some (nose (unseenAt 0.1)) /\
  option_map nose (smoothLandmarks window)
    <> Some (nose (last window (unseenAt 0))) /\
  smoothLandmarks [] = None.
Proof.
  repeat split; try reflexivity.
  vm_compute. discriminate.
Qed.

(** C7, amended: for every non-empty landmark window ([first] being its
    oldest frame) the smoother returns a complete frame without raising,
    and for every joint the smoothed landmark is the arithmetic mean of x,
    y, z (and visibility) over the window entries whose visibility exceeds
    0.1; when no entry passes that floor it is the oldest entry of the
    window.  On an empty list [averageLandmark] returns the zero-position,
    zero-visibility placeholder. *)
Theorem smoothLandmarks_mean_or_oldest :
  forall (first : PoseLandmarks) (rest : list PoseLandmarks) (j : Joint),
    (exists frame,
        smoothLandmarks (first :: rest) = Some frame /\
        match filter valid (map (joint j) (first :: rest)) with
        | [] => joint j frame = joint j first
        | passing =>
            x (joint j frame) == mean (map x passing) /\
            y (joint j frame) == mean (map y passing) /\
            z (joint j frame) == mean (map z passing) /\
            visibility (joint j frame) == mean (map visibility passing)
        end) /\
    averageLandmark [] = mkLandmark 0 0 0 0.
Proof.
  intros first rest j. split; [|reflexivity].
  destruct rest as [|second rest].
  - exists first. split; [reflexivity|].
    simpl. destruct (valid (joint j first)); [|reflexivity].
    simpl. now rewrite !mean_singleton.
  - destruct (smoothLandmarks (first :: second :: rest)) as [frame|] eqn:E;
      [|discriminate].
    exists frame. split; [reflexivity|].
    rewrite (joint_smoothed j _ _ _ _ E).
    pose proof (averageLandmark_spec (joint j first)
                  (map (joint j) (second :: rest))) as H.
    change (joint j first :: map (joint j) (second :: rest))
      with (map (joint j) (first :: second :: rest)) in H.
    destruct (filter valid (map (joint j) (first :: second :: rest)))
      as [|p ps]; [exact H|].
    rewrite H. simpl. repeat split; reflexivity.
Qed.

(** ** Threshold checks *)

Lemma extends_trans t1 t2 t3 : extends t1 t2 -> extends t2 t3 -> extends t1 t3.
Proof.
  intros H12 H23. induction H23; auto using extends_flag.
Qed.

Lemma extends_one k p t : 0 <= p -> extends t (flag k p t).
Proof. intros. apply extends_flag; auto using extends_refl. Qed.

Ltac two_tiers m :=
  match goal with
  | |- extends _ (if gtb m ?hi then _ else if gtb m ?lo then _ else _) =>
      let E1 := fresh "E" in
      let E2 := fresh "E" in
      destruct (gtb m hi) eqn:E1;
      [ apply gtb_true in E1
      | destruct (gtb m lo) eqn:E2; [ apply gtb_true in E2 | ] ];
      try apply extends_refl;
      apply extends_one; apply Math_min_glb; lra
  end.

Lemma checkForwardHead_extends m t : extends t (checkForwardHead m t).
Proof. unfold checkForwardHead. two_tiers m. Qed.

Lemma checkShoulderAlignment_extends m t :
  extends t (checkShoulderAlignment m t).
Proof. unfold checkShoulderAlignment. two_tiers m. Qed.

Lemma checkHeadTilt_extends m t : extends t (checkHeadTilt m t).
Proof. unfold checkHeadTilt. two_tiers m. Qed.

Lemma checkShoulderHeight_extends m t : extends t (checkShoulderHeight m t).
Proof. unfold checkShoulderHeight. two_tiers m. Qed.

Lemma checkSpineAlignment_extends m t : extends t (checkSpineAlignment m t).
Proof. unfold checkSpineAlignment. two_tiers m. Qed.

Lemma checkSlouching_extends b t : extends t (checkSlouching b t).
Proof.
  unfold checkSlouching. destruct b; [apply extends_one; lra|].
  apply extends_refl.
Qed.

Lemma checkHeadNeck_extends s t : extends t (checkHeadNeck s t).
Proof.
  unfold checkHeadNeck.
  destruct (ltb s 60); [apply extends_one; lra|].
  destruct (ltb s 70); [apply extends_one; lra|apply extends_refl].
Qed.

Lemma checkTooClose_extends b t : extends t (checkTooClose b t).
Proof.
  unfold checkTooClose. destruct b; [apply extends_one; lra|].
  apply extends_refl.
Qed.

Lemma checkTooFar_extends b t : extends t (checkTooFar b t).
Proof.
  unfold checkTooFar. destruct b; [apply extends_one; lra|].
  apply extends_refl.
Qed.

Create HintDb tally.

#[local] Hint Resolve checkForwardHead_extends checkShoulderAlignment_extends
  checkHeadTilt_extends checkShoulderHeight_extends
  checkSpineAlignment_extends checkSlouching_extends checkHeadNeck_extends
  checkTooClose_extends checkTooFar_extends : tally.

Lemma extends_score t t' : extends t t' -> totalScore t' <= totalScore t.
Proof.
  induction 1 as [|k p t' Hp _ IH]; simpl; lra.
Qed.

Lemma flagged_set_true (pot : Obj.t bool) k k' :
  flagged pot k = true -> flagged (Obj.set pot k' true) k = true.
Proof.
  unfold flagged. destruct (string_dec k' k) as [->|Hne].
  - now rewrite get_set_same.
  - now rewrite get_set_other.
Qed.

Lemma extends_flagged t t' k :
  extends t t' ->
  flagged (potentialIssues t) k = true ->
  flagged (potentialIssues t') k = true.
Proof.
  induction 1; auto. intros H'. simpl. auto using flagged_set_true.
Qed.

Lemma In_set {V} (o : Obj.t V) k v e :
  In e (Obj.set o k v) -> In e o \/ e = (k, v).
Proof.
  induction o as [|[k0 v0] o IH]; simpl.
  - intros [<-|[]]. now right.
  - destruct (String.eqb k0 k) eqn:E; simpl.
    + apply String.eqb_eq in E. subst k0. intros [<-|H]; auto.
    + intros [<-|H]; auto. destruct (IH H); auto.
Qed.

Lemma extends_allDetected t t' :
  extends t t' ->
  allDetected (potentialIssues t) -> allDetected (potentialIssues t').
Proof.
  induction 1 as [|k p t' Hp _ IH]; auto.
  intros H0. destruct (IH H0) as [Hwf Hall]. split; simpl.
  - now apply wf_set.
  - intros k0 b Hin. apply In_set in Hin as [Hin|[= _ ->]]; eauto.
Qed.

Lemma allDetected_flagged pot k :
  allDetected pot -> (flagged pot k = true <-> In k (Obj.keys pot)).
Proof.
  intros [Hwf Hall]. unfold flagged.
  destruct (Obj.get pot k) as [b|] eqn:E.
  - apply get_In in E. rewrite (Hall _ _ E). split; auto. intros _.
    change k with (fst (k, b)). now apply in_map.
  - split; [discriminate|]. intros Hin. now apply get_None in E.
Qed.

Section ClassifierFacts.
Context {M : MathLib}.

Lemma evaluateIssues_extends lm : extends (mkTally [] 10) (evaluateIssues lm).
Proof.
  unfold evaluateIssues. cbv zeta.
  repeat (eapply extends_trans; [|solve [auto with tally]]).
  apply extends_refl.
Qed.

Lemma evaluateIssues_allDetected lm :
  allDetected (potentialIssues (evaluateIssues lm)).
Proof.
  apply (extends_allDetected _ _ (evaluateIssues_extends lm)).
  split; [constructor|]. intros k b [].
Qed.

Lemma calculateHeadNeckScore_range lm :
  0 <= calculateHeadNeckScore lm /\ calculateHeadNeckScore lm <= 10.
Proof.
  unfold calculateHeadNeckScore.
  destruct (_ || _); [lra|]. cbv zeta.
  split; [apply Math_max_ge_l|].
  apply Math_max_lub; [lra|].
  repeat match goal with
         | |- context [gtb ?a ?b] =>
             let E := fresh "E" in
             destruct (gtb a b) eqn:E; [apply gtb_true in E|]
         end;
    repeat match goal with
           | |- context [Math_min ?a ?b] =>
               let H := fresh "H" in
               assert (H : 0 <= Math_min a b)
                 by (apply Math_min_glb; lra);
               generalize dependent (Math_min a b); intros
           end;
    lra.
Qed.

Lemma checkHeadNeck_always lm t :
  checkHeadNeck (calculateHeadNeckScore lm) t = flag "head_neck_alignment" 1 t.
Proof.
  unfold checkHeadNeck.
  destruct (ltb (calculateHeadNeckScore lm) 60) eqn:E; auto.
  apply ltb_false in E. pose proof (calculateHeadNeckScore_range lm). lra.
Qed.

End ClassifierFacts.

(** ** Consistency counters *)

Lemma decay_fold_wf pot (l acc : Obj.t Z) :
  Obj.wf acc ->
  Obj.wf
    (fold_left
       (fun acc (e : string * Z) =>
          let (issue, count) := e in
          if negb (flagged pot issue)
          then Obj.set acc issue (Z.max 0 (count - 3))
          else acc) l acc).
Proof.
  revert acc. induction l as [|[k c] l IH]; simpl; auto.
  intros acc Hwf. apply IH. destruct (negb (flagged pot k)); auto.
  now apply wf_set.
Qed.

Lemma decay_fold_get pot (l acc : Obj.t Z) k :
  Obj.wf l ->
  Obj.get
    (fold_left
       (fun acc (e : string * Z) =>
          let (issue, count) := e in
          if negb (flagged pot issue)
          then Obj.set acc issue (Z.max 0 (count - 3))
          else acc) l acc) k =
  match Obj.get l k with
  | Some c => if flagged pot k then Obj.get acc k else Some (Z.max 0 (c - 3))
  | None => Obj.get acc k
  end.
Proof.
  unfold Obj.wf. revert acc. induction l as [|[k0 c0] l IH]; simpl; auto.
  intros acc Hnd. inversion Hnd as [|? ? Hnotin Hnd']; subst.
  rewrite IH by assumption.
  destruct (String.eqb k0 k) eqn:E.
  - apply String.eqb_eq in E. subst k0.
    apply get_None in Hnotin. rewrite Hnotin.
    destruct (flagged pot k); simpl; auto using get_set_same.
  - apply String.eqb_neq in E.
    assert (Hacc : Obj.get
                     (if negb (flagged pot k0)
                      then Obj.set acc k0 (Z.max 0 (c0 - 3)) else acc) k
                   = Obj.get acc k).
    { destruct (negb (flagged pot k0)); auto using get_set_other. }
    now rewrite Hacc.
Qed.

Lemma decayUndetected_wf pot ic : Obj.wf ic -> Obj.wf (decayUndetected pot ic).
Proof. apply decay_fold_wf. Qed.

Lemma decayUndetected_get pot ic k :
  Obj.wf ic ->
  Obj.get (decayUndetected pot ic) k =
  if flagged pot k then Obj.get ic k
  else option_map (fun c => Z.max 0 (c - 3)) (Obj.get ic k).
Proof.
  intros Hwf. unfold decayUndetected. rewrite decay_fold_get by assumption.
  destruct (Obj.get ic k), (flagged pot k); reflexivity.
Qed.

Lemma countDetected_wf pot ic : Obj.wf ic -> Obj.wf (countDetected pot ic).
Proof.
  unfold countDetected. revert ic.
  induction pot as [|[k b] pot IH]; simpl; auto.
  intros ic Hwf. apply IH. destruct b; auto using wf_set.
Qed.

Lemma countDetected_get pot ic k :
  allDetected pot ->
  Obj.get (countDetected pot ic) k =
  if flagged pot k then Some (orZero (Obj.get ic k) + 1)%Z
  else Obj.get ic k.
Proof.
  intros Hall.
  assert (Hkeys :
    Obj.get (countDetected pot ic) k =
    if in_dec string_dec k (Obj.keys pot)
    then Some (orZero (Obj.get ic k) + 1)%Z else Obj.get ic k).
  { destruct Hall as [Hwf Htrue]. unfold countDetected, Obj.wf in *.
    revert ic. induction pot as [|[k0 b0] pot IH]; intros ic; simpl; auto.
    inversion Hwf as [|? ? Hnotin Hwf']; subst.
    assert (b0 = true) by (apply (Htrue k0); now left). subst b0.
    rewrite IH by (auto; intros; eapply Htrue; right; eauto).
    destruct (string_dec k0 k) as [->|Hne].
    - destruct (in_dec string_dec k (Obj.keys pot)); [contradiction|].
      apply get_set_same.
    - rewrite get_set_other by assumption.
      destruct (in_dec string_dec k (Obj.keys pot)); reflexivity. }
  rewrite Hkeys.
  pose proof (allDetected_flagged pot k Hall) as Hf.
  destruct (in_dec string_dec k (Obj.keys pot)) as [Hin|Hnin].
  - apply Hf in Hin. now rewrite Hin.
  - destruct (flagged pot k); auto. exfalso. apply Hnin. now apply Hf.
Qed.

Lemma consistent_fold pot (ic : Obj.t Z) (acc : list string) :
  fold_left
    (fun acc (e : string * Z) =>
       let (issue, count) := e in
       if (CONSISTENCY_THRESHOLD <=? count)%Z && flagged pot issue
       then match issueMessage issue with
            | Some message => (acc ++ [message])%list
            | None => acc
            end
       else acc) ic acc =
  (acc ++
   flat_map
     (fun e : string * Z =>
        if (CONSISTENCY_THRESHOLD <=? snd e)%Z && flagged pot (fst e)
        then match issueMessage (fst e) with
             | Some message => [message]
             | None => []
             end
        else []) ic)%list.
Proof.
  revert acc. induction ic as [|[k c] ic IH]; intros acc; simpl.
  - now rewrite app_nil_r.
  - rewrite IH.
    destruct ((CONSISTENCY_THRESHOLD <=? c)%Z && flagged pot k); auto.
    destruct (issueMessage k); auto. now rewrite <- app_assoc.
Qed.

Lemma consistentIssues_In pot ic message :
  In message (consistentIssues pot ic) <->
  exists issue count,
    In (issue, count) ic /\ (CONSISTENCY_THRESHOLD <= count)%Z /\
    flagged pot issue = true /\ issueMessage issue = Some message.
Proof.
  unfold consistentIssues. rewrite consistent_fold. simpl.
  rewrite in_flat_map. split.
  - intros [[k c] [Hin Hm]]. simpl in Hm.
    destruct (CONSISTENCY_THRESHOLD <=? c)%Z eqn:Ec; [|destruct Hm].
    destruct (flagged pot k) eqn:Ef; [|destruct Hm]. simpl in Hm.
    destruct (issueMessage k) eqn:Em; [|destruct Hm].
    destruct Hm as [<-|[]]. exists k, c. apply Z.leb_le in Ec. auto.
  - intros (k & c & Hin & Hc & Hf & Hm). exists (k, c). split; auto.
    simpl. apply Z.leb_le in Hc. rewrite Hc, Hf, Hm. simpl. auto.
Qed.

Lemma prune_fold_wf (l acc : Obj.t Z) :
  Obj.wf acc ->
  Obj.wf
    (fold_left
       (fun acc (e : string * Z) =>
          let (issue, count) := e in
          if (count =? 0)%Z then Obj.delete acc issue else acc) l acc).
Proof.
  revert acc. induction l as [|[k c] l IH]; simpl; auto.
  intros acc Hwf. apply IH. destruct (c =? 0)%Z; auto using wf_delete.
Qed.

Lemma prune_fold_get (l acc : Obj.t Z) k :
  Obj.wf l -> Obj.wf acc ->
  Obj.get
    (fold_left
       (fun acc (e : string * Z) =>
          let (issue, count) := e in
          if (count =? 0)%Z then Obj.delete acc issue else acc) l acc) k =
  match Obj.get l k with
  | Some c => if (c =? 0)%Z then None else Obj.get acc k
  | None => Obj.get acc k
  end.
Proof.
  unfold Obj.wf at 1. revert acc.
  induction l as [|[k0 c0] l IH]; simpl; auto.
  intros acc Hnd Hacc. inversion Hnd as [|? ? Hnotin Hnd']; subst.
  rewrite IH by (auto; destruct (c0 =? 0)%Z; auto using wf_delete).
  destruct (String.eqb k0 k) eqn:E.
  - apply String.eqb_eq in E. subst k0.
    apply get_None in Hnotin. rewrite Hnotin.
    destruct (c0 =? 0)%Z; auto using get_delete_same.
  - apply String.eqb_neq in E.
    assert (Hk : Obj.get (if (c0 =? 0)%Z then Obj.delete acc k0 else acc) k
                 = Obj.get acc k).
    { destruct (c0 =? 0)%Z; auto using get_delete_other. }
    now rewrite Hk.
Qed.

Lemma pruneZero_wf ic : Obj.wf ic -> Obj.wf (pruneZero ic).
Proof. apply prune_fold_wf. Qed.

Lemma pruneZero_get ic k :
  Obj.wf ic ->
  Obj.get (pruneZero ic) k =
  match Obj.get ic k with
  | Some c => if (c =? 0)%Z then None else Some c
  | None => None
  end.
Proof.
  intros Hwf. unfold pruneZero. rewrite prune_fold_get by assumption.
  destruct (Obj.get ic k) as [c|]; reflexivity.
Qed.

(** ** Issue messages *)

Lemma distinct_NoDup l : distinct l = true -> NoDup l.
Proof.
  induction l as [|s l IH]; simpl; [constructor|].
  intros H. apply andb_true_iff in H as [Hs Hl]. constructor; auto.
  intros Hin. apply negb_true_iff in Hs.
  assert (existsb (String.eqb s) l = true); [|congruence].
  apply existsb_exists. exists s. split; auto. apply String.eqb_refl.
Qed.

Lemma issueMessage_table issue message :
  issueMessage issue = Some message -> In (issue, message) issueTable.
Proof.
  unfold issueMessage.
  repeat match goal with
         | |- context [String.eqb issue ?s] =>
             let E := fresh "E" in
             destruct (String.eqb issue s) eqn:E;
             [ apply String.eqb_eq in E; subst issue; intros [= <-];
               unfold issueTable; simpl; tauto | ]
         end.
  discriminate.
Qed.

Lemma messages_NoDup :
  NoDup (map snd issueTable ++ feedbackMessages).
Proof. apply distinct_NoDup. vm_compute. reflexivity. Qed.

Lemma NoDup_snd_inj {A B} (l : list (A * B)) a a' b :
  NoDup (map snd l) -> In (a, b) l -> In (a', b) l -> a = a'.
Proof.
  induction l as [|[a0 b0] l IH]; simpl; [tauto|].
  intros Hnd. inversion Hnd as [|? ? Hnotin Hnd']; subst.
  intros [H|H] [H'|H'].
  - congruence.
  - injection H as -> ->. exfalso. apply Hnotin.
    change b with (snd (a', b)). now apply in_map.
  - injection H' as -> ->. exfalso. apply Hnotin.
    change b with (snd (a, b)). now apply in_map.
  - auto.
Qed.

Lemma NoDup_app_disjoint {A} (l1 l2 : list A) a :
  NoDup (l1 ++ l2) -> In a l1 -> ~ In a l2.
Proof.
  induction l1 as [|b l1 IH]; simpl; [tauto|].
  intros Hnd. inversion Hnd as [|? ? Hnotin Hnd']; subst.
  intros [->|Hin] Hin2; [|now apply IH].
  apply Hnotin, in_or_app. now right.
Qed.

Lemma issueMessage_inj issue issue' message :
  issueMessage issue = Some message ->
  issueMessage issue' = Some message -> issue = issue'.
Proof.
  intros H H'. apply issueMessage_table in H, H'.
  pose proof messages_NoDup as Hnd. apply NoDup_app_remove_r in Hnd.
  eapply NoDup_snd_inj; eauto.
Qed.

Lemma issueMessage_not_feedback issue message q :
  issueMessage issue = Some message -> ~ In message (feedback q).
Proof.
  intros H Hin. apply issueMessage_table in H.
  assert (Hf : In message feedbackMessages).
  { unfold feedback in Hin. unfold feedbackMessages.
    destruct (geb q 8.0); [simpl in *; tauto|].
    destruct (geb q 7.0); [simpl in *; tauto|].
    destruct (geb q 6.0); simpl in *; tauto. }
  apply (NoDup_app_disjoint _ _ message messages_NoDup); auto.
  change message with (snd (issue, message)). now apply in_map.
Qed.

(** ** The classifier, frame by frame *)

Section ClassifierSteps.
Context {M : MathLib}.

Lemma analyzePosture_wf ic lm :
  Obj.wf ic -> Obj.wf (fst (analyzePosture ic lm)).
Proof.
  intros Hwf. unfold analyzePosture.
  destruct (visibleLandmarks lm <? 2)%nat; simpl; auto.
  now apply countDetected_wf, decayUndetected_wf.
Qed.

Lemma smoothCounters_wf sm ic : Obj.wf ic -> Obj.wf (smoothCounters sm ic).
Proof.
  intros Hwf. destruct sm as [[history current]|]; simpl; auto.
  destruct history as [|h hs]; simpl; auto.
  apply pruneZero_wf. destruct (gtb _ 8.0); auto. constructor.
Qed.

Lemma counter_smoothed sm ic issue :
  Obj.wf ic ->
  counter (smoothCounters sm ic) issue = counter ic issue \/
  counter (smoothCounters sm ic) issue = 0%Z.
Proof.
  intros Hwf. destruct sm as [[history current]|]; simpl; auto.
  destruct history as [|h hs]; simpl; auto.
  unfold counter. destruct (gtb _ 8.0); [now right|].
  rewrite pruneZero_get by assumption.
  destruct (Obj.get ic issue) as [c|]; auto.
  destruct (Z.eqb_spec c 0); subst; auto.
Qed.

Lemma counter_after ic lm issue :
  Obj.wf ic -> classified lm = true ->
  Obj.get (fst (analyzePosture ic lm)) issue =
  if flagged (potentialIssues (evaluateIssues lm)) issue
  then Some (counter ic issue + 1)%Z
  else option_map (fun c => Z.max 0 (c - 3)) (Obj.get ic issue).
Proof.
  intros Hwf Hc. unfold classified in Hc. apply negb_true_iff in Hc.
  unfold analyzePosture. rewrite Hc. simpl.
  rewrite countDetected_get by apply evaluateIssues_allDetected.
  rewrite decayUndetected_get by assumption.
  unfold counter.
  now destruct (flagged (potentialIssues (evaluateIssues lm)) issue).
Qed.

Lemma issues_after ic lm :
  classified lm = true ->
  issues (snd (analyzePosture ic lm)) =
  (consistentIssues (potentialIssues (evaluateIssues lm))
     (fst (analyzePosture ic lm))
   ++ feedback (totalScore (evaluateIssues lm)))%list.
Proof.
  intros Hc. unfold classified in Hc. apply negb_true_iff in Hc.
  unfold analyzePosture. rewrite Hc. reflexivity.
Qed.

Lemma shown_iff ic lm issue message :
  Obj.wf ic -> classified lm = true ->
  issueMessage issue = Some message ->
  In message (issues (snd (analyzePosture ic lm))) <->
  (CONSISTENCY_THRESHOLD <= counter (fst (analyzePosture ic lm)) issue)%Z /\
  flagged (potentialIssues (evaluateIssues lm)) issue = true.
Proof.
  intros Hwf Hc Hm. rewrite issues_after by assumption.
  pose proof (analyzePosture_wf ic lm Hwf) as Hwf'.
  rewrite in_app_iff, consistentIssues_In. unfold counter. split.
  - intros [(issue' & count & Hin & Hge & Hf & Hm')|Hfb].
    + assert (issue' = issue) by (eapply issueMessage_inj; eauto).
      subst issue'. rewrite (In_get _ _ _ Hwf' Hin). auto.
    + exfalso. eapply issueMessage_not_feedback; eauto.
  - intros [Hge Hf]. left.
    destruct (Obj.get (fst (analyzePosture ic lm)) issue) as [c|] eqn:E.
    + exists issue, c. auto using get_In.
    + simpl in Hge. unfold CONSISTENCY_THRESHOLD in Hge. lia.
Qed.

Lemma step_shows ic lm issue message :
  Obj.wf ic -> issueMessage issue = Some message ->
  stepShows (mkStep ic lm (fst (analyzePosture ic lm))
               (snd (analyzePosture ic lm))) issue message.
Proof.
  intros Hwf Hm. unfold stepShows. simpl.
  destruct (classified lm) eqn:Hc.
  - pose proof (shown_iff ic lm issue message Hwf Hc Hm) as Hiff.
    pose proof (counter_after ic lm issue Hwf Hc) as Hget.
    split; [exact Hiff|]. split.
    + intros H0 Hin. apply Hiff in Hin as [Hge Hf].
      unfold counter in Hge. rewrite Hget, Hf, H0 in Hge. simpl in Hge.
      unfold CONSISTENCY_THRESHOLD in Hge. lia.
    + intros Hf Hin. apply Hiff in Hin as [_ Hf']. congruence.
  - unfold classified in Hc. apply negb_false_iff in Hc.
    unfold analyzePosture. rewrite Hc. auto.
Qed.

End ClassifierSteps.

(** C1, refuted as stated: a frame that fails the visibility gate with
    coinciding shoulders lists the too-far-from-camera issue although no
    counter exists for it and nothing was flagged. *)
Lemma too_far_listed_without_counter :
  let r := analyzePosture (M := approxMath) [] faintFrame in
  issueMessage "too_far_from_camera" =
    Some "Too far from camera - Move closer for better posture detection" /\
  In "Too far from camera - Move closer for better posture detection"
    (issues (snd r)) /\
  counter (fst r) "too_far_from_camera" = 0%Z.
Proof. vm_compute. tauto. Qed.

(** C1, amended: for every sequence of frames analysed from well-formed
    counters, whatever smoothing passes run in between, on every frame
    that passes the visibility gate an issue is in the per-frame issues
    list exactly when its counter (after this frame's update) is at least
    3 and the issue is flagged in this frame; it is never listed on a
    frame that found its counter at 0, and never on a frame that does not
    flag it, whatever its counter.  A frame that fails the visibility gate
    leaves the counters as they are and returns the fixed low-visibility
    analysis. *)
Theorem shown_only_when_consistent_and_flagged :
  forall (M : MathLib) (frames : list (PoseLandmarks * Smoothing))
         (ic : Obj.t Z) (issue message : string),
    Obj.wf ic ->
    issueMessage issue = Some message ->
    Forall (fun st => stepShows st issue message) (analyzeFrames ic frames).
Proof.
  intros M frames.
  induction frames as [|[lm sm] frames IH]; intros ic issue message Hwf Hm.
  - constructor.
  - simpl. constructor.
    + now apply step_shows.
    + apply IH; auto using analyzePosture_wf, smoothCounters_wf.
Qed.

(** C1, amended, on the three frames of [sampleRun] analysed by a fresh
    engine. *)
Lemma shown_only_when_consistent_and_flagged_witness :
  Forall
    (fun st =>
       stepShows (M := approxMath) st "head_neck_alignment"
         "Poor head and neck alignment - Try to align your head directly over your shoulders")
    (analyzeFrames (M := approxMath) [] sampleRun).
Proof.
  apply (shown_only_when_consistent_and_flagged approxMath sampleRun []
           "head_neck_alignment").
  - constructor.
  - reflexivity.
Defined.

(** ** Counter updates *)

Lemma smooth_prunes latest history current (ic : Obj.t Z) issue :
  Obj.wf ic ->
  Obj.get ic issue = Some 0%Z ->
  Obj.get (fst (smoothPostureAnalysis (latest :: history) current ic)) issue
  = None.
Proof.
  intros Hwf H0. unfold smoothPostureAnalysis. cbv zeta. cbn [fst].
  destruct (gtb _ 8.0); [reflexivity|].
  rewrite pruneZero_get by assumption. now rewrite H0.
Qed.

(** C5: in every classification step (a frame past the visibility gate,
    counters well formed), an issue that the frame flags has its counter
    raised by exactly 1, from 0 if it was not tracked and without any cap;
    a tracked issue that the frame does not flag has its counter lowered by
    3, not below 0; and a counter that has reached 0 is deleted by the
    pruning loop of the next smoothing pass. *)
Theorem counters_step :
  forall (M : MathLib) (ic : Obj.t Z) (lm : PoseLandmarks) (issue : string),
    Obj.wf ic ->
    classified lm = true ->
    let pot := potentialIssues (evaluateIssues lm) in
    let ic' := fst (analyzePosture ic lm) in
    (if flagged pot issue
     then Obj.get ic' issue = Some (counter ic issue + 1)%Z
     else Obj.get ic' issue =
          option_map (fun c => Z.max 0 (c - 3)) (Obj.get ic issue)) /\
    (forall latest history current,
        Obj.get ic' issue = Some 0%Z ->
        Obj.get
          (fst (smoothPostureAnalysis (latest :: history) current ic')) issue
        = None).
Proof.
  intros M ic lm issue Hwf Hc pot ic'. split.
  - subst pot ic'. rewrite counter_after by assumption.
    now destruct (flagged _ issue).
  - intros latest history current H0.
    apply smooth_prunes; auto. now apply analyzePosture_wf.
Qed.

(** C5 on a clearly seen frame, with a slouching counter at 2 that the frame
    does not confirm. *)
Lemma counters_step_witness :
  let ic := [("slouching", 2%Z); ("head_neck_alignment", 7%Z)] in
  let pot := potentialIssues (evaluateIssues (M := approxMath) visibleFrame) in
  let ic' := fst (analyzePosture (M := approxMath) ic visibleFrame) in
  (if flagged pot "slouching"
   then Obj.get ic' "slouching" = Some (counter ic "slouching" + 1)%Z
   else Obj.get ic' "slouching" =
        option_map (fun c => Z.max 0 (c - 3)) (Obj.get ic "slouching")) /\
  (forall latest history current,
      Obj.get ic' "slouching" = Some 0%Z ->
      Obj.get
        (fst (smoothPostureAnalysis (latest :: history) current ic'))
        "slouching"
      = None).
Proof.
  apply (counters_step approxMath
           [("slouching", 2%Z); ("head_neck_alignment", 7%Z)]
           visibleFrame "slouching").
  - repeat constructor; simpl; intuition discriminate.
  - vm_compute. reflexivity.
Defined.

(** ** Visibility gate, score range and metrics *)

Section GateFacts.
Context {M : MathLib}.

Lemma lowVisibilityAnalysis_cases lm :
  lowVisibilityAnalysis lm =
  if shouldersCollapsed lm then tooFarAnalysis else repositionAnalysis.
Proof.
  unfold lowVisibilityAnalysis, shouldersCollapsed.
  destruct (gtb (visibility (leftShoulder lm)) 0.1); auto.
  destruct (gtb (visibility (rightShoulder lm)) 0.1); auto.
Qed.

Lemma reported_after ic lm m :
  reported m (snd (analyzePosture ic lm)) =
  if classified lm then calculate m lm else 0.
Proof.
  unfold classified, analyzePosture.
  destruct (visibleLandmarks lm <? 2)%nat; simpl.
  - rewrite lowVisibilityAnalysis_cases.
    destruct (shouldersCollapsed lm); now destruct m.
  - now destruct m.
Qed.

Lemma calculate_unseen m lm :
  (forall j, In j (relevantJoints m) -> visibility (joint j lm) < 0.5) ->
  calculate m lm = 0.
Proof.
  intros H.
  assert (Hfirst : forall j, hd_error (relevantJoints m) = Some j ->
                             ltb (visibility (joint j lm)) 0.5 = true).
  { intros j Hj. apply ltb_true, H.
    destruct (relevantJoints m); [discriminate|].
    injection Hj as ->. now left. }
  destruct m; simpl in *;
    [ pose proof (Hfirst Nose eq_refl) as E
    | pose proof (Hfirst LeftShoulder eq_refl) as E
    | pose proof (Hfirst LeftShoulder eq_refl) as E
    | pose proof (Hfirst LeftEar eq_refl) as E
    | pose proof (Hfirst LeftShoulder eq_refl) as E ];
    simpl in E.
  - unfold calculateNeckAngle. now rewrite E.
  - unfold calculateShoulderAlignment. now rewrite E.
  - unfold calculateSpineAlignment. now rewrite E.
  - unfold calculateHeadPosition. now rewrite E.
  - unfold calculateShoulderHeight. now rewrite E.
Qed.

End GateFacts.

(** C2: when fewer than 2 of nose, left shoulder and right shoulder have
    visibility above 0.2, [analyzePosture] returns a fixed analysis with the
    five metrics at 0: score 5 with the too-far-from-camera issue when the
    shoulders (both seen with visibility above 0.1) are less than 0.1
    apart, score 7.5 with the reposition issue otherwise; the counters are
    not touched.  For every other frame the score lies in [2, 10]. *)
Theorem gate_result_and_score_range :
  forall (M : MathLib) (ic : Obj.t Z) (lm : PoseLandmarks),
    let r := analyzePosture ic lm in
    if (visibleLandmarks lm <? 2)%nat
    then
      fst r = ic /\
      snd r =
      if shouldersCollapsed lm
      then mkAnalysis 5
             ["Too far from camera - Move closer for better posture detection"]
             0 0 0 0 0
      else mkAnalysis 7.5
             ["Position yourself more clearly in front of the camera for better detection"]
             0 0 0 0 0
    else 2 <= score (snd r) /\ score (snd r) <= 10.
Proof.
  intros M ic lm r. subst r. unfold analyzePosture.
  destruct (visibleLandmarks lm <? 2)%nat; simpl.
  - split; [reflexivity|]. apply lowVisibilityAnalysis_cases.
  - split; [apply Math_max_ge_l|].
    apply Math_max_lub; [lra|apply Math_min_le_l].
Qed.

(** C6: when every joint relevant to a metric has visibility below 0.5,
    the metric's function returns exactly 0, and so does the metric's field
    of the per-frame analysis. *)
Theorem unseen_joints_zero_metric :
  forall (M : MathLib) (m : Metric) (lm : PoseLandmarks) (ic : Obj.t Z),
    (forall j, In j (relevantJoints m) -> visibility (joint j lm) < 0.5) ->
    calculate m lm = 0 /\ reported m (snd (analyzePosture ic lm)) = 0.
Proof.
  intros M m lm ic H. pose proof (calculate_unseen m lm H) as H0.
  split; [exact H0|]. rewrite reported_after.
  now destruct (classified lm).
Qed.

(** C6 on a frame whose joints all have visibility 0.15. *)
Lemma unseen_joints_zero_metric_witness :
  calculate (M := approxMath) SpineAlignment faintFrame = 0 /\
  reported SpineAlignment
    (snd (analyzePosture (M := approxMath) [] faintFrame)) = 0.
Proof.
  apply (unseen_joints_zero_metric approxMath SpineAlignment faintFrame []).
  intros j _. destruct j; reflexivity.
Defined.

(** C10: [calculateHeadNeckScore] always lies in [0, 10], hence below 60:
    on every frame that passes the visibility gate the check flags
    ["head_neck_alignment"] and subtracts its penalty of 1, so that neither
    the total nor the returned per-frame score exceeds 9. *)
Theorem head_neck_penalty_on_every_frame :
  forall (M : MathLib) (ic : Obj.t Z) (lm : PoseLandmarks),
    classified lm = true ->
    (0 <= calculateHeadNeckScore lm /\ calculateHeadNeckScore lm <= 10) /\
    calculateHeadNeckScore lm < 60 /\
    (forall t, checkHeadNeck (calculateHeadNeckScore lm) t
               = flag "head_neck_alignment" 1 t) /\
    flagged (potentialIssues (evaluateIssues lm)) "head_neck_alignment"
    = true /\
    totalScore (evaluateIssues lm) <= 9 /\
    score (snd (analyzePosture ic lm)) <= 9.
Proof.
  intros M ic lm Hc.
  pose proof (calculateHeadNeckScore_range lm) as Hr.
  split; [exact Hr|]. split; [lra|].
  split; [intros t; apply checkHeadNeck_always|].
  assert (Hext : exists t6,
             extends (mkTally [] 10) t6 /\
             extends (flag "head_neck_alignment" 1 t6) (evaluateIssues lm)).
  { unfold evaluateIssues. cbv zeta. rewrite checkHeadNeck_always.
    eexists. split; cycle 1.
    - eapply extends_trans; [apply checkTooClose_extends|].
      apply checkTooFar_extends.
    - repeat (eapply extends_trans; [|solve [auto with tally]]).
      apply extends_refl. }
  destruct Hext as (t6 & H6 & Hlast).
  assert (Htotal : totalScore (evaluateIssues lm) <= 9).
  { apply extends_score in H6, Hlast. simpl in *. lra. }
  split.
  - apply (extends_flagged _ _ _ Hlast). simpl. unfold flagged.
    now rewrite get_set_same.
  - split; [exact Htotal|].
    unfold classified in Hc. apply negb_true_iff in Hc.
    unfold analyzePosture. rewrite Hc. simpl.
    apply Math_max_lub; [lra|].
    pose proof (Math_min_le_r 10 (totalScore (evaluateIssues lm))). lra.
Qed.

(** C10 on a clearly seen frame. *)
Lemma head_neck_penalty_on_every_frame_witness :
  (0 <= calculateHeadNeckScore visibleFrame /\
   calculateHeadNeckScore visibleFrame <= 10) /\
  calculateHeadNeckScore visibleFrame < 60 /\
  (forall t, checkHeadNeck (calculateHeadNeckScore visibleFrame) t
             = flag "head_neck_alignment" 1 t) /\
  flagged (potentialIssues (evaluateIssues (M := approxMath) visibleFrame))
    "head_neck_alignment" = true /\
  totalScore (evaluateIssues (M := approxMath) visibleFrame) <= 9 /\
  score (snd (analyzePosture (M := approxMath) [] visibleFrame)) <= 9.
Proof.
  apply (head_neck_penalty_on_every_frame approxMath [] visibleFrame).
  vm_compute. reflexivity.
Defined.

(** ** Score smoothing *)

Lemma lastN_snoc {A} (n : nat) (l : list A) (a : A) :
  lastN (S n) (l ++ [a]) = (lastN n l ++ [a])%list.
Proof.
  unfold lastN. rewrite length_app. simpl.
  replace (List.length l + 1 - S n)%nat with (List.length l - n)%nat by lia.
  rewrite skipn_app.
  replace (List.length l - n - List.length l)%nat with 0%nat by lia.
  reflexivity.
Qed.

Lemma lastN_all {A} (n : nat) (l : list A) :
  (List.length l <= n)%nat -> lastN n l = l.
Proof.
  intros H. unfold lastN.
  now replace (List.length l - n)%nat with 0%nat by lia.
Qed.

Lemma lastN_length {A} (n : nat) (l : list A) :
  List.length (lastN n l) = Nat.min n (List.length l).
Proof. unfold lastN. rewrite length_skipn. lia. Qed.

Lemma lastN_lastN {A} (n m : nat) (l : list A) :
  (n <= m)%nat -> lastN n (lastN m l) = lastN n l.
Proof.
  intros H. unfold lastN. rewrite length_skipn, skipn_skipn. f_equal. lia.
Qed.

Lemma tl_lastN {A} (l : list A) :
  tl l = lastN (List.length l - 1) l.
Proof.
  unfold lastN. destruct l as [|a l]; [reflexivity|].
  cbn [List.length tl].
  replace (S (List.length l) - (S (List.length l) - 1))%nat with 1%nat
    by lia.
  reflexivity.
Qed.

Lemma pushBounded_lastN {A} (w : nat) (l : list A) (a : A) :
  (0 < w)%nat ->
  pushBounded w (lastN w l) a = lastN w (l ++ [a]).
Proof.
  intros Hw. unfold pushBounded. cbv zeta.
  assert (Hlen : List.length (lastN w l ++ [a])
                 = (Nat.min w (List.length l) + 1)%nat).
  { rewrite length_app, lastN_length. reflexivity. }
  destruct (Nat.ltb_spec w (List.length (lastN w l ++ [a]))) as [E|E].
  - rewrite tl_lastN, Hlen.
    replace (Nat.min w (List.length l) + 1 - 1)%nat with w by lia.
    rewrite <- lastN_snoc. apply lastN_lastN. lia.
  - rewrite (lastN_all w l) by lia. symmetry. apply lastN_all.
    rewrite length_app. simpl. lia.
Qed.

Lemma pushBounded_fold {A} (w : nat) (l : list A) :
  (0 < w)%nat ->
  fold_left (pushBounded w) l [] = lastN (Nat.min (List.length l) w) l.
Proof.
  intros Hw.
  assert (H : fold_left (pushBounded w) l [] = lastN w l).
  { induction l as [|a l IH] using rev_ind; [reflexivity|].
    rewrite fold_left_app. simpl. rewrite IH.
    now apply pushBounded_lastN. }
  rewrite H. unfold lastN. f_equal. lia.
Qed.

Lemma smoothPostureAnalysis_nonempty history current ic :
  history <> [] ->
  smoothPostureAnalysis history current ic =
  (pruneZero (if gtb (mean (map score history)) 8.0 then [] else ic),
   mkAnalysis (Math_round (mean (map score history)))
     (issues (last history initializingAnalysis))
     (Math_round (mean (map neckAngle history) * 10) / 10)
     (Math_round (mean (map shoulderAlignment history) * 10) / 10)
     (Math_round (mean (map spineAlignment history) * 10) / 10)
     (Math_round (mean (map headPosition history) * 10) / 10)
     (Math_round (mean (map shoulderHeight history) * 10) / 10)).
Proof.
  destruct history as [|h hs]; [congruence|]. intros _.
  unfold smoothPostureAnalysis. cbv zeta. now rewrite !reduce_sum_mean.
Qed.

(** C3, refuted as stated: the smoothed score and metrics are rounded, so
    they differ from the arithmetic means (8.25 and 6.17 here). *)
Lemma smoothed_values_are_rounded :
  let window := lastN (Nat.min 2 12) sampleHistory in
  let history := fold_left (pushBounded SMOOTHING_WINDOW) sampleHistory [] in
  let smoothed := snd (smoothPostureAnalysis history None []) in
  mean (map score window) == 8.25 /\
  score smoothed == 8 /\
  ~ score smoothed == mean (map score window) /\
  mean (map neckAngle window) == 6.17 /\
  neckAngle smoothed == 6.2 /\
  ~ neckAngle smoothed == mean (map neckAngle window).
Proof. vm_compute. intuition discriminate. Qed.

(** C3, amended: for every non-empty sequence of N per-frame analyses
    pushed into the bounded history, the smoothed score is the arithmetic
    mean of the scores of the last min(N, 12) analyses rounded to the
    nearest integer, each of the five smoothed metrics is the arithmetic
    mean over the same analyses rounded to one decimal, and the issues
    list is exactly the issues list of the most recent analysis. *)
Theorem smoothed_is_rounded_mean_with_latest_issues :
  forall (earlier : list PostureAnalysis) (latest : PostureAnalysis)
         (current : option PostureAnalysis) (ic : Obj.t Z),
    let analyses := (earlier ++ [latest])%list in
    let window := lastN (Nat.min (List.length analyses) 12) analyses in
    let history := fold_left (pushBounded SMOOTHING_WINDOW) analyses [] in
    let smoothed := snd (smoothPostureAnalysis history current ic) in
    score smoothed = Math_round (mean (map score window)) /\
    neckAngle smoothed = Math_round (mean (map neckAngle window) * 10) / 10 /\
    shoulderAlignment smoothed
    = Math_round (mean (map shoulderAlignment window) * 10) / 10 /\
    spineAlignment smoothed
    = Math_round (mean (map spineAlignment window) * 10) / 10 /\
    headPosition smoothed
    = Math_round (mean (map headPosition window) * 10) / 10 /\
    shoulderHeight smoothed
    = Math_round (mean (map shoulderHeight window) * 10) / 10 /\
    issues smoothed = issues latest.
Proof.
  intros earlier latest current ic analyses window history smoothed.
  assert (Hh : history = window).
  { subst history window. apply pushBounded_fold.
    unfold SMOOTHING_WINDOW. lia. }
  assert (Hw : window = (lastN (Nat.min (List.length earlier) 11) earlier
                         ++ [latest])%list).
  { subst window analyses. rewrite length_app. simpl.
    replace (Nat.min (List.length earlier + 1) 12)
      with (S (Nat.min (List.length earlier) 11)) by lia.
    apply lastN_snoc. }
  assert (Hne : window <> []).
  { rewrite Hw. intros H. symmetry in H. now apply app_cons_not_nil in H. }
  subst smoothed. rewrite Hh.
  rewrite (smoothPostureAnalysis_nonempty window current ic Hne).
  cbn [snd score issues neckAngle shoulderAlignment spineAlignment
       headPosition shoulderHeight].
  repeat split. rewrite Hw. now rewrite last_last.
Qed.

(** ** Clearing the counters *)

Section Clearing.
Context {M : MathLib}.

Lemma countersAfter_wf ic frames :
  Obj.wf ic -> Obj.wf (countersAfter ic frames).
Proof.
  unfold countersAfter. revert ic.
  induction frames as [|[lm sm] frames IH]; simpl;
    auto using analyzePosture_wf, smoothCounters_wf.
Qed.

Lemma counter_step_bound ic lm issue (n : Z) :
  Obj.wf ic -> (0 <= n)%Z -> (counter ic issue <= n)%Z ->
  (counter (fst (analyzePosture ic lm)) issue
   <= n + (if qualifies issue lm then 1 else 0))%Z.
Proof.
  intros Hwf Hn Hc. unfold qualifies.
  destruct (classified lm) eqn:Ecl; simpl.
  - unfold counter at 1. rewrite counter_after by assumption.
    destruct (flagged _ issue); simpl; [lia|].
    unfold counter in Hc. destruct (Obj.get ic issue); simpl in *; lia.
  - unfold classified in Ecl. apply negb_false_iff in Ecl.
    unfold analyzePosture. rewrite Ecl. simpl. lia.
Qed.

Lemma counter_bound ic frames issue (n : Z) :
  Obj.wf ic -> (0 <= n)%Z -> (counter ic issue <= n)%Z ->
  (counter (countersAfter ic frames) issue
   <= n + Z.of_nat (qualifyingFrames issue (map fst frames)))%Z.
Proof.
  unfold countersAfter, qualifyingFrames. revert ic n.
  induction frames as [|[lm sm] frames IH]; intros ic n Hwf Hn Hc; simpl.
  - lia.
  - pose proof (counter_step_bound ic lm issue n Hwf Hn Hc) as Hstep.
    pose proof (analyzePosture_wf ic lm Hwf) as Hwf'.
    pose proof (counter_smoothed sm _ issue Hwf') as Hsm.
    pose proof (smoothCounters_wf sm _ Hwf') as Hwf''.
    destruct (qualifies issue lm); simpl List.length.
    + specialize (IH _ (n + 1)%Z Hwf''). lia.
    + specialize (IH _ n Hwf''). lia.
Qed.

End Clearing.

(** C4, refuted as stated: a smoothed score of 8 does not clear the
    counters, neither when the mean of the history is exactly 8 nor when
    it is 7.5 and rounds to 8. *)
Lemma smoothed_score_eight_keeps_counters :
  let ic := [("forward_head", 2%Z)] in
  let exactly8 := [mkAnalysis 8 ["Excellent posture! Keep it up!"] 0 0 0 0 0] in
  let rounded8 := [repositionAnalysis] in
  (score (snd (smoothPostureAnalysis exactly8 None ic)) == 8 /\
   fst (smoothPostureAnalysis exactly8 None ic) = ic) /\
  (score (snd (smoothPostureAnalysis rounded8 None ic)) == 8 /\
   fst (smoothPostureAnalysis rounded8 None ic) = ic).
Proof. vm_compute. intuition congruence. Qed.

(** C4, amended: whenever the mean of the scores in the history, before
    rounding, is strictly above 8.0, the smoothing step leaves the counter
    map empty; every issue listed on a later frame has then been flagged
    on at least 3 frames past the visibility gate since the clearing,
    whatever smoothing passes ran in between. *)
Theorem high_mean_clears_counters :
  forall (M : MathLib) (history : list PostureAnalysis)
         (current : option PostureAnalysis) (ic : Obj.t Z)
         (earlier : list (PoseLandmarks * Smoothing)) (lm : PoseLandmarks)
         (issue message : string),
    8.0 < mean (map score history) ->
    issueMessage issue = Some message ->
    classified lm = true ->
    let cleared := fst (smoothPostureAnalysis history current ic) in
    In message
      (issues (snd (analyzePosture (countersAfter cleared earlier) lm))) ->
    cleared = [] /\
    (3 <= qualifyingFrames issue (map fst earlier ++ [lm]))%nat.
Proof.
  intros M history current ic earlier lm issue message Hmean Hm Hcl cleared.
  assert (Hne : history <> []).
  { intros ->. vm_compute in Hmean. discriminate. }
  assert (Hclear : cleared = []).
  { subst cleared. rewrite smoothPostureAnalysis_nonempty by assumption.
    cbn [fst]. apply gtb_true in Hmean. now rewrite Hmean. }
  rewrite Hclear. intros Hin. split; [reflexivity|].
  assert (Hwf : Obj.wf (countersAfter [] earlier)).
  { apply countersAfter_wf. constructor. }
  apply (shown_iff _ lm issue message Hwf Hcl Hm) in Hin as [Hge _].
  pose proof (counter_bound [] (earlier ++ [(lm, None)]) issue 0) as Hb.
  unfold countersAfter at 1 in Hb. rewrite fold_left_app in Hb.
  rewrite map_app in Hb.
  simpl in Hb. fold (countersAfter [] earlier) in Hb.
  unfold CONSISTENCY_THRESHOLD in Hge.
  assert (Hwf0 : Obj.wf (@nil (string * Z))) by constructor.
  specialize (Hb Hwf0). unfold counter at 1 in Hb. simpl in Hb.
  unfold counter in Hge. unfold counter in Hb. lia.
Qed.

(** C4, amended, on a history of one analysis scored 9, followed by the
    frames of [sampleRun] and one more. *)
Lemma high_mean_clears_counters_witness :
  let history := [mkAnalysis 9 ["Excellent posture! Keep it up!"] 0 0 0 0 0] in
  let cleared :=
    fst (smoothPostureAnalysis history None [("slouching", 4%Z)]) in
  cleared = [] /\
  (3 <= qualifyingFrames (M := approxMath) "head_neck_alignment"
          (map fst sampleRun ++ [visibleFrame]))%nat.
Proof.
  apply (high_mean_clears_counters approxMath
           [mkAnalysis 9 ["Excellent posture! Keep it up!"] 0 0 0 0 0]
           None [("slouching", 4%Z)]
           sampleRun visibleFrame "head_neck_alignment"
           "Poor head and neck alignment - Try to align your head directly over your shoulders").
  - vm_compute. reflexivity.
  - reflexivity.
  - vm_compute. reflexivity.
  - vm_compute. tauto.
Defined.

(** ** Output emitter *)

Lemma pushBounded_nonempty {A} (w : nat) (h : list A) (a : A) :
  (0 < w)%nat -> pushBounded w h a <> [].
Proof.
  intros Hw. unfold pushBounded. cbv zeta.
  destruct (Nat.ltb_spec w (List.length (h ++ [a]))) as [E|E].
  - destruct (h ++ [a])%list as [|b [|c l]]; simpl in *; try lia.
    discriminate.
  - intros H. symmetry in H. now apply app_cons_not_nil in H.
Qed.

Lemma smoothLandmarks_nonempty (h : list PoseLandmarks) :
  h <> [] -> exists frame, smoothLandmarks h = Some frame.
Proof.
  destruct h as [|a [|b h]]; [congruence| |]; intros _; simpl; eauto.
Qed.

Lemma smoothed_independent_of_counters h current ic ic' :
  snd (smoothPostureAnalysis h current ic)
  = snd (smoothPostureAnalysis h current ic').
Proof. destruct h; reflexivity. Qed.

Section EmitterFacts.
Context {M : MathLib}.

Lemma detectPoseBody_publish d now s :
  let r := detectPoseBody d now s in
  if analysed d && (UPDATE_INTERVAL <=? now - lastUpdateTime s)%Z
  then
    snd r = Some (snd (smoothPostureAnalysis (postureHistory (fst r))
                         (currentAnalysis s) (issueConsistency s))) /\
    currentAnalysis (fst r) = snd r /\
    lastUpdateTime (fst r) = now
  else
    snd r = None /\
    currentAnalysis (fst r) = currentAnalysis s /\
    lastUpdateTime (fst r) = lastUpdateTime s.
Proof.
  unfold detectPoseBody, analysed.
  destruct d as [|[|keypoints poses]]; simpl; auto.
  destruct (extractLandmarks keypoints) as [raw|]; simpl; auto.
  destruct (smoothLandmarks_nonempty
              (pushBounded LANDMARK_SMOOTHING_WINDOW (landmarkHistory s) raw))
    as [landmarks ->].
  { apply pushBounded_nonempty. unfold LANDMARK_SMOOTHING_WINDOW. lia. }
  destruct (analyzePosture (issueConsistency s) landmarks) as [ic a].
  destruct (UPDATE_INTERVAL <=? now - lastUpdateTime s)%Z; simpl; auto.
  destruct (smoothPostureAnalysis _ (currentAnalysis s) ic)
    as [ic' smoothed] eqn:E.
  simpl. repeat split.
  rewrite (smoothed_independent_of_counters _ _ _ ic), E. reflexivity.
Qed.

Lemma reschedule_lastUpdateTime s b :
  lastUpdateTime (fst (reschedule s b)) = lastUpdateTime s.
Proof.
  unfold reschedule. now destruct (negb (isPageVisible s)).
Qed.

Lemma detectPose_interval d now w a :
  snd (detectPose d now w) = Some a ->
  (lastUpdateTime (fst w) + UPDATE_INTERVAL <= now)%Z /\
  lastUpdateTime (fst (fst (detectPose d now w))) = now.
Proof.
  destruct w as [s b]. unfold detectPose.
  pose proof (detectPoseBody_publish d now s) as H. cbv zeta in H.
  destruct (detectPoseBody d now s) as [s' published]. simpl in *.
  rewrite reschedule_lastUpdateTime. intros ->.
  destruct (analysed d); simpl in H.
  - destruct (UPDATE_INTERVAL <=? now - lastUpdateTime s)%Z eqn:E.
    + apply Z.leb_le in E. destruct H as (_ & _ & H). split; [lia|exact H].
    + destruct H as [H _]. discriminate.
  - destruct H as [H _]. discriminate.
Qed.

Lemma detectPose_silent d now w :
  snd (detectPose d now w) = None ->
  lastUpdateTime (fst (fst (detectPose d now w))) = lastUpdateTime (fst w).
Proof.
  destruct w as [s b]. unfold detectPose.
  pose proof (detectPoseBody_publish d now s) as H. cbv zeta in H.
  destruct (detectPoseBody d now s) as [s' published]. simpl in *.
  rewrite reschedule_lastUpdateTime. intros ->.
  destruct (analysed d && (UPDATE_INTERVAL <=? now - lastUpdateTime s)%Z).
  - destruct H as [H _]. discriminate.
  - now destruct H as (_ & _ & H).
Qed.

Lemma runLoop_spaced events w :
  StronglySorted spaced (snd (runLoop events w)) /\
  Forall (fun e => (lastUpdateTime (fst w) + UPDATE_INTERVAL <= fst e)%Z)
    (snd (runLoop events w)).
Proof.
  revert w. induction events as [|[d now|hidden] events IH]; intros w.
  - simpl. split; constructor.
  - simpl.
    pose proof (detectPose_interval d now w) as Hpub.
    pose proof (detectPose_silent d now w) as Hsil.
    destruct (detectPose d now w) as [w' published].
    specialize (IH w'). destruct (runLoop events w') as [w'' log].
    simpl in *. destruct IH as [Hsorted Hall].
    destruct published as [a|].
    + destruct (Hpub a eq_refl) as [Hge Hnow]. rewrite Hnow in Hall.
      split.
      * constructor; auto.
      * constructor; [exact Hge|].
        eapply Forall_impl; [|exact Hall]. unfold UPDATE_INTERVAL in *.
        simpl. intros e He. lia.
    + rewrite (Hsil eq_refl) in Hall. auto.
  - simpl. apply (IH (onVisibilityChange hidden (fst w), snd w)).
Qed.

End EmitterFacts.

(** C8: on an iteration that completed a per-frame analysis, the smoothed
    analysis of the history is published (handed to [onPostureUpdate] and
    stored as the current analysis) if and only if [now - lastUpdateTime]
    is at least 2000 ms, and then [lastUpdateTime] becomes [now]; in every
    other case nothing is published and [lastUpdateTime] is kept.  Hence in
    every run of the loop, whatever its frame rate, any two publications
    are at least 2000 ms apart. *)
Theorem publish_at_most_once_per_interval :
  forall (M : MathLib) (d : Detection) (now : Z) (s : Service)
         (events : list Event) (w : Service * Browser),
    let r := detectPoseBody d now s in
    (if analysed d
     then
       if (2000 <=? now - lastUpdateTime s)%Z
       then
         snd r = Some (snd (smoothPostureAnalysis (postureHistory (fst r))
                              (currentAnalysis s) (issueConsistency s))) /\
         currentAnalysis (fst r) = snd r /\
         lastUpdateTime (fst r) = now
       else snd r = None /\ lastUpdateTime (fst r) = lastUpdateTime s
     else snd r = None /\ lastUpdateTime (fst r) = lastUpdateTime s) /\
    StronglySorted (fun e1 e2 => (fst e1 + 2000 <= fst e2)%Z)
      (snd (runLoop events w)).
Proof.
  intros M d now s events w r. split.
  - pose proof (detectPoseBody_publish d now s) as H. cbv zeta in H.
    subst r. change UPDATE_INTERVAL with 2000%Z in H.
    destruct (analysed d); simpl in H.
    + destruct (2000 <=? now - lastUpdateTime s)%Z; tauto.
    + tauto.
  - apply (runLoop_spaced events w).
Qed.

(** ** Stopping the engine *)

Section StopFacts.
Context {M : MathLib}.

Lemma detectPose_scheduled d now w :
  let w1 := fst (detectPose d now w) in
  exists h,
    animationFrame (fst w1) = Some h /\
    (if isPageVisible (fst w1) then In h (frameRequests (snd w1))
     else In h (timeouts (snd w1))).
Proof.
  destruct w as [s b]. unfold detectPose.
  destruct (detectPoseBody d now s) as [s' published]. simpl.
  unfold reschedule. destruct (isPageVisible s'); simpl;
    eexists; split; try reflexivity; simpl; auto.
Qed.

End StopFacts.

(** C9, refuted as stated: after one analysed frame, [stop] leaves both
    rolling history buffers filled; and when the page was hidden after the
    loop had requested an animation frame, [stop] calls [clearTimeout] and
    the request stays registered. *)
Lemma stop_keeps_histories :
  let w1 :=
    fst (detectPose (M := approxMath) (Poses [samplePose]) 5000
           (newService, newBrowser)) in
  let hidden := (onVisibilityChange true (fst w1), snd w1) in
  (postureHistory (fst (stop w1)) <> [] /\
   landmarkHistory (fst (stop w1)) <> []) /\
  (animationFrame (fst w1) = Some 1%positive /\
   In 1%positive (frameRequests (snd w1)) /\
   In 1%positive (frameRequests (snd (stop hidden)))).
Proof.
  vm_compute. repeat split; try discriminate; auto.
Qed.

(** C9, amended: after an iteration of the loop has scheduled the next
    one, and with the page visibility unchanged since, [stop] cancels that
    scheduled timer or animation-frame callback, forgets its handle, and
    clears the current analysis and the initialised flag; the landmark
    window, the per-frame analysis window, the consistency counters and
    the last publication time are left as they were. *)
Theorem stop_cancels_and_clears_current :
  forall (M : MathLib) (d : Detection) (now : Z) (w : Service * Browser),
    let w1 := fst (detectPose d now w) in
    let w2 := stop w1 in
    (exists h,
        animationFrame (fst w1) = Some h /\
        (if isPageVisible (fst w1)
         then In h (frameRequests (snd w1)) /\ ~ In h (frameRequests (snd w2))
         else In h (timeouts (snd w1)) /\ ~ In h (timeouts (snd w2)))) /\
    animationFrame (fst w2) = None /\
    currentAnalysis (fst w2) = None /\
    isInitialized (fst w2) = false /\
    postureHistory (fst w2) = postureHistory (fst w1) /\
    landmarkHistory (fst w2) = landmarkHistory (fst w1) /\
    issueConsistency (fst w2) = issueConsistency (fst w1) /\
    lastUpdateTime (fst w2) = lastUpdateTime (fst w1).
Proof.
  intros M d now w w1 w2.
  destruct (detectPose_scheduled d now w) as (h & Hh & Hin).
  fold w1 in Hh, Hin. subst w2. destruct w1 as [s1 b1]. simpl in *.
  unfold stop. rewrite Hh. split.
  - exists h. split; [reflexivity|].
    destruct (isPageVisible s1); simpl; split; auto; apply remove_In.
  - destruct (negb (isPageVisible s1)); simpl; repeat split.
Qed.

(** * Further properties of the posture engine *)

(** ** Landmark extraction *)

Lemma getKeypoint_landmarkOf keypoints index :
  getKeypoint keypoints index = option_map landmarkOf (nth_error keypoints index).
Proof. unfold getKeypoint. now destruct (nth_error keypoints index). Qed.

Ltac read_keypoint kps i :=
  let E := fresh "E" in
  destruct (nth_error kps i) eqn:E; cbn [option_map];
  [ | apply nth_error_None in E; lia ].

(** X1: [extractLandmarks] returns a frame exactly when the pose has at
    least seventeen keypoints, and raises otherwise; in the frame every
    joint is the keypoint at the joint's MoveNet index, with z at 0 and
    the keypoint score as visibility (keypoints past the seventeenth are
    ignored). *)
Theorem extractLandmarks_reads_seventeen_keypoints :
  forall keypoints : list Keypoint,
    match extractLandmarks keypoints with
    | Some frame =>
        (17 <= List.length keypoints)%nat /\
        forall j, option_map landmarkOf (nth_error keypoints (jointIndex j))
                  = Some (joint j frame)
    | None => (List.length keypoints < 17)%nat
    end.
Proof.
  intros keypoints. unfold extractLandmarks. cbv zeta.
  rewrite !getKeypoint_landmarkOf.
  read_keypoint keypoints 0%nat. read_keypoint keypoints 1%nat.
  read_keypoint keypoints 2%nat. read_keypoint keypoints 3%nat.
  read_keypoint keypoints 4%nat. read_keypoint keypoints 5%nat.
  read_keypoint keypoints 6%nat. read_keypoint keypoints 7%nat.
  read_keypoint keypoints 8%nat. read_keypoint keypoints 9%nat.
  read_keypoint keypoints 10%nat. read_keypoint keypoints 11%nat.
  read_keypoint keypoints 12%nat. read_keypoint keypoints 13%nat.
  read_keypoint keypoints 14%nat. read_keypoint keypoints 15%nat.
  read_keypoint keypoints 16%nat.
  split.
  - assert (H : nth_error keypoints 16 <> None) by congruence.
    apply nth_error_Some in H. lia.
  - intros j. destruct j; cbn [jointIndex joint];
      match goal with
      | H : nth_error keypoints ?i = Some ?k
        |- option_map _ (nth_error keypoints ?i) = _ => now rewrite H
      end.
Qed.

(** ** Averages stay within bounds *)

Lemma len_cons {A} (a : A) (l : list A) : len (a :: l) == len l + 1.
Proof.
  unfold len. cbn [List.length]. rewrite Nat2Z.inj_succ, <- Z.add_1_r.
  now rewrite inject_Z_plus.
Qed.

Lemma len_nonneg {A} (l : list A) : 0 <= len l.
Proof.
  unfold len. change 0 with (inject_Z 0). rewrite <- Zle_Qle. lia.
Qed.

Lemma sum_lower (lo : Q) (qs : list Q) (acc : Q) :
  Forall (fun q => lo <= q) qs -> acc + lo * len qs <= fold_left Qplus qs acc.
Proof.
  intros H. revert acc. induction H as [|q qs Hlo _ IH]; intros acc.
  - unfold len. simpl. ring_simplify. apply Qle_refl.
  - simpl fold_left. eapply Qle_trans; [|exact (IH (acc + q))].
    rewrite (len_cons q qs). ring_simplify. lra.
Qed.

Lemma sum_upper (hi : Q) (qs : list Q) (acc : Q) :
  Forall (fun q => q <= hi) qs -> fold_left Qplus qs acc <= acc + hi * len qs.
Proof.
  intros H. revert acc. induction H as [|q qs Hhi _ IH]; intros acc.
  - unfold len. simpl. ring_simplify. apply Qle_refl.
  - simpl fold_left. eapply Qle_trans; [exact (IH (acc + q))|].
    rewrite (len_cons q qs). ring_simplify. lra.
Qed.

Lemma len_pos {A} (l : list A) : l <> [] -> 0 < len l.
Proof.
  destruct l as [|a l]; [congruence|]. intros _.
  pose proof (len_cons a l). pose proof (len_nonneg l). lra.
Qed.

Lemma mean_bounds (lo hi : Q) (qs : list Q) :
  qs <> [] ->
  Forall (fun q => lo <= q /\ q <= hi) qs ->
  lo <= mean qs /\ mean qs <= hi.
Proof.
  intros Hne H.
  assert (H1 : Forall (fun q => lo <= q) qs)
    by (eapply Forall_impl; [|exact H]; simpl; tauto).
  assert (H2 : Forall (fun q => q <= hi) qs)
    by (eapply Forall_impl; [|exact H]; simpl; tauto).
  pose proof (sum_lower lo qs 0 H1). pose proof (sum_upper hi qs 0 H2).
  pose proof (len_pos qs Hne) as Hpos.
  unfold mean. split.
  - apply Qle_shift_div_l; [exact Hpos|]. lra.
  - apply Qle_shift_div_r; [exact Hpos|]. lra.
Qed.





(** ** Metrics *)

Lemma calculate_nonneg {M : MathLib} (m : Metric) (lm : PoseLandmarks) :
  0 <= calculate m lm.
Proof.
  destruct m; simpl.
  - unfold calculateNeckAngle. destruct (_ || _); [lra|]. cbv zeta.
    destruct (_ || _); [lra|]. apply Math_max_ge_l.
  - unfold calculateShoulderAlignment. destruct (_ || _); [lra|].
    apply Qabs_nonneg.
  - unfold calculateSpineAlignment. destruct (_ || _); [lra|].
    apply Qabs_nonneg.
  - unfold calculateHeadPosition. destruct (_ || _); [lra|].
    apply Qabs_nonneg.
  - unfold calculateShoulderHeight. destruct (_ || _); [lra|].
    cbv zeta. unfold Math_abs.
    pose proof (Qabs_nonneg (y (leftShoulder lm) - y (rightShoulder lm))).
    lra.
Qed.

(** X3: none of the five metrics is ever negative, whatever the frame:
    neither the value its function computes nor the field of the
    per-frame analysis. *)
Theorem metrics_never_negative :
  forall (M : MathLib) (m : Metric) (lm : PoseLandmarks) (ic : Obj.t Z),
    0 <= calculate m lm /\ 0 <= reported m (snd (analyzePosture ic lm)).
Proof.
  intros M m lm ic. pose proof (calculate_nonneg m lm) as H.
  split; [exact H|]. rewrite reported_after.
  destruct (classified lm); [exact H|lra].
Qed.

(** ** Which issues a frame flags *)

Lemma flagged_flag k p t k' :
  flagged (potentialIssues (flag k p t)) k'
  = (k' =? k)%string || flagged (potentialIssues t) k'.
Proof.
  unfold flagged, flag. cbn [potentialIssues].
  destruct (String.eqb_spec k' k) as [->|Hne].
  - now rewrite get_set_same.
  - rewrite get_set_other by congruence. reflexivity.
Qed.

Lemma flagged_two_tiers (c1 c2 : bool) k1 p1 k2 p2 t k' :
  flagged
    (potentialIssues
       (if c1 then flag k1 p1 t else if c2 then flag k2 p2 t else t)) k'
  = ((k' =? k1)%string && c1)
    || (((k' =? k2)%string && (negb c1 && c2))
        || flagged (potentialIssues t) k').
Proof.
  destruct c1, c2; rewrite ?flagged_flag;
    destruct (k' =? k1)%string, (k' =? k2)%string; reflexivity.
Qed.

Lemma flagged_one_tier (c : bool) k p t k' :
  flagged (potentialIssues (if c then flag k p t else t)) k'
  = ((k' =? k)%string && c) || flagged (potentialIssues t) k'.
Proof.
  destruct c; rewrite ?flagged_flag; destruct (k' =? k)%string; reflexivity.
Qed.

(** The flags of a frame, as a function of its metrics. *)
Lemma flagged_evaluateIssues (M : MathLib) (lm : PoseLandmarks)
    (issue : string) :
  flagged (potentialIssues (evaluateIssues lm)) issue = detects lm issue.
Proof.
  unfold evaluateIssues. cbv zeta.
  rewrite checkHeadNeck_always.
  unfold checkTooFar, checkTooClose, checkSlouching, checkSpineAlignment,
    checkShoulderHeight, checkHeadTilt, checkShoulderAlignment,
    checkForwardHead.
  rewrite !flagged_one_tier, flagged_flag, flagged_one_tier,
    !flagged_two_tiers.
  unfold detects. cbv zeta.
  generalize (gtb (calculateNeckAngle lm) 30), (gtb (calculateNeckAngle lm) 20),
    (gtb (calculateShoulderAlignment lm) 20),
    (gtb (calculateShoulderAlignment lm) 12),
    (gtb (calculateHeadPosition lm) 25), (gtb (calculateHeadPosition lm) 15),
    (gtb (calculateShoulderHeight lm) 30),
    (gtb (calculateShoulderHeight lm) 22),
    (gtb (calculateSpineAlignment lm) 40),
    (gtb (calculateSpineAlignment lm) 32),
    (detectSlouching lm), (detectTooCloseToCamera lm),
    (detectTooFarFromCamera lm).
  intros n30 n20 s20 s12 h25 h15 g30 g22 p40 p32 sl close far.
  change (flagged (potentialIssues (mkTally [] 10)) issue) with false.
  repeat match goal with
         | |- context [(issue =? ?k)%string] =>
             let E := fresh "E" in
             destruct (String.eqb_spec issue k) as [E|E];
             [ subst issue; vm_compute;
               repeat match goal with
                      | |- context [if ?b then _ else _] => destruct b
                      end; reflexivity
             | ]
         end.
  reflexivity.
Qed.

(** X4: the issues a frame flags are exactly those its metrics select:
    the severe key of a metric above its upper threshold, the slight key
    between the two thresholds (never both), slouching and the two camera
    distance keys as their detectors say, ["head_neck_alignment"] always;
    ["slight_head_neck"] and every other key are never flagged. *)
Theorem flagged_iff_detected :
  forall (M : MathLib) (lm : PoseLandmarks) (issue : string),
    flagged (potentialIssues (evaluateIssues lm)) issue = detects lm issue.
Proof. intros M lm issue. apply flagged_evaluateIssues. Qed.

(** X5: the message of ["slight_head_neck"] is never listed by
    [analyzePosture], whatever the frame and the counters: its branch
    needs a head and neck score of at least 60, on a scale that ends at
    10. *)
Theorem slight_head_neck_never_listed :
  forall (M : MathLib) (ic : Obj.t Z) (lm : PoseLandmarks),
    ~ In "Slight head/neck misalignment - Gently adjust your head position"
        (issues (snd (analyzePosture ic lm))).
Proof.
  intros M ic lm Hin.
  destruct (classified lm) eqn:Hc.
  - rewrite issues_after in Hin by assumption.
    apply in_app_or in Hin as [Hin|Hin].
    + apply consistentIssues_In in Hin as (issue & count & _ & _ & Hf & Hm).
      assert (issue = "slight_head_neck")
        by (eapply issueMessage_inj; [exact Hm|reflexivity]).
      subst issue. rewrite flagged_evaluateIssues in Hf. discriminate.
    + exact (issueMessage_not_feedback "slight_head_neck" _ _ eq_refl Hin).
  - unfold classified in Hc. apply negb_false_iff in Hc.
    unfold analyzePosture in Hin. rewrite Hc in Hin. cbn [snd] in Hin.
    rewrite lowVisibilityAnalysis_cases in Hin.
    destruct (shouldersCollapsed lm); simpl in Hin;
      destruct Hin as [Hin|[]]; discriminate.
Qed.

(** ** Frames seen only dimly *)

Section DimFrames.
Context {M : MathLib}.
Variable lm : PoseLandmarks.
Hypothesis Hshoulder : visibility (leftShoulder lm) < 0.5.
Hypothesis Hnose : visibility (nose lm) < 0.5.

Lemma dim_evaluateIssues :
  evaluateIssues lm = flag "head_neck_alignment" 1 (mkTally [] 10).
Proof.
  apply ltb_true in Hshoulder, Hnose.
  unfold evaluateIssues. cbv zeta. rewrite checkHeadNeck_always.
  unfold calculateNeckAngle, calculateShoulderAlignment,
    calculateHeadPosition, calculateShoulderHeight, calculateSpineAlignment,
    detectSlouching, detectTooCloseToCamera, detectTooFarFromCamera.
  rewrite Hshoulder, Hnose, ?orb_true_r. reflexivity.
Qed.

End DimFrames.

(** X6: a frame that passes the visibility gate while its nose and left
    shoulder stay below visibility 0.5 is scored exactly 9 and told
    "Excellent posture! Keep it up!": the five metrics are 0, the only
    issue flagged is ["head_neck_alignment"], and nothing else than its
    message can precede the praise. *)
Theorem dim_frame_is_rated_excellent :
  forall (M : MathLib) (ic : Obj.t Z) (lm : PoseLandmarks),
    classified lm = true ->
    visibility (leftShoulder lm) < 0.5 ->
    visibility (nose lm) < 0.5 ->
    let a := snd (analyzePosture ic lm) in
    score a == 9 /\
    (forall m, reported m a = 0) /\
    exists shown,
      issues a = (shown ++ ["Excellent posture! Keep it up!"])%list /\
      Forall
        (eq "Poor head and neck alignment - Try to align your head directly over your shoulders")
        shown.
Proof.
  intros M ic lm Hc Hs Hn a. subst a.
  pose proof (dim_evaluateIssues lm Hs Hn) as He.
  split; [|split].
  - unfold classified in Hc. apply negb_true_iff in Hc.
    unfold analyzePosture. rewrite Hc, He. vm_compute. reflexivity.
  - intros m. rewrite reported_after, Hc.
    apply ltb_true in Hs, Hn.
    destruct m; simpl;
      unfold calculateNeckAngle, calculateShoulderAlignment,
        calculateHeadPosition, calculateShoulderHeight,
        calculateSpineAlignment;
      rewrite ?Hs, ?Hn, ?orb_true_r; reflexivity.
  - rewrite issues_after by assumption. rewrite He.
    eexists. split; [reflexivity|].
    apply Forall_forall. intros message Hin.
    apply consistentIssues_In in Hin as (issue & count & _ & _ & Hf & Hm).
    rewrite flagged_flag in Hf. cbn in Hf. rewrite orb_false_r in Hf.
    apply String.eqb_eq in Hf. subst issue.
    injection Hm as <-. reflexivity.
Qed.

(** X6 on a frame whose joints all have visibility 0.3. *)
Lemma dim_frame_is_rated_excellent_witness :
  let a := snd (analyzePosture (M := approxMath) [] dimFrame) in
  score a == 9 /\
  (forall m, reported m a = 0) /\
  exists shown,
    issues a = (shown ++ ["Excellent posture! Keep it up!"])%list /\
    Forall
      (eq "Poor head and neck alignment - Try to align your head directly over your shoulders")
      shown.
Proof.
  apply (dim_frame_is_rated_excellent approxMath [] dimFrame);
    reflexivity.
Defined.

(** ** Counters along a run of the engine *)

Lemma detects_known {M : MathLib} lm issue :
  detects lm issue = true -> knownIssue issue.
Proof.
  unfold detects, knownIssue. cbv zeta.
  repeat match goal with
         | |- context [(issue =? ?k)%string] =>
             destruct (String.eqb_spec issue k);
             [ subst issue; intros _; unfold issueTable; simpl; tauto | ]
         end.
  discriminate.
Qed.

Lemma countersOk_nil : countersOk [].
Proof. split; [constructor|]. intros issue count []. Qed.

Lemma countersOk_counter ic issue : countersOk ic -> (0 <= counter ic issue)%Z.
Proof.
  intros [_ Hall]. unfold counter.
  destruct (Obj.get ic issue) as [c|] eqn:E; simpl; [|lia].
  apply get_In in E. now apply Hall in E.
Qed.

Lemma pruneZero_countersOk ic : countersOk ic -> countersOk (pruneZero ic).
Proof.
  intros [Hwf Hall]. split; [now apply pruneZero_wf|].
  intros issue count Hin.
  apply (In_get _ _ _ (pruneZero_wf ic Hwf)) in Hin.
  rewrite pruneZero_get in Hin by assumption.
  destruct (Obj.get ic issue) as [c|] eqn:E; [|discriminate].
  destruct (c =? 0)%Z; [discriminate|]. injection Hin as <-.
  apply Hall. now apply get_In.
Qed.

Lemma smoothPostureAnalysis_countersOk h current ic :
  countersOk ic -> countersOk (fst (smoothPostureAnalysis h current ic)).
Proof.
  intros Hok. destruct h as [|a h]; [exact Hok|].
  unfold smoothPostureAnalysis. cbv zeta. cbn [fst].
  apply pruneZero_countersOk. destruct (gtb _ 8.0); auto using countersOk_nil.
Qed.

Section CounterInvariant.
Context {M : MathLib}.

Lemma analyzePosture_countersOk ic lm :
  countersOk ic -> countersOk (fst (analyzePosture ic lm)).
Proof.
  intros Hok. pose proof Hok as [Hwf Hall].
  destruct (classified lm) eqn:Hc.
  - split; [now apply analyzePosture_wf|].
    intros issue count Hin.
    apply (In_get _ _ _ (analyzePosture_wf ic lm Hwf)) in Hin.
    rewrite counter_after in Hin by assumption.
    destruct (flagged (potentialIssues (evaluateIssues lm)) issue) eqn:Hf.
    + injection Hin as <-. split.
      * pose proof (countersOk_counter ic issue Hok). lia.
      * rewrite flagged_evaluateIssues in Hf. now apply detects_known in Hf.
    + destruct (Obj.get ic issue) as [c|] eqn:E; [|discriminate].
      injection Hin as <-. apply get_In, Hall in E. split; [lia|tauto].
  - unfold classified in Hc. apply negb_false_iff in Hc.
    unfold analyzePosture. now rewrite Hc.
Qed.

Lemma detectPoseBody_countersOk d now s :
  countersOk (issueConsistency s) ->
  countersOk (issueConsistency (fst (detectPoseBody d now s))).
Proof.
  intros Hok. unfold detectPoseBody.
  destruct d as [|[|keypoints poses]]; auto.
  destruct (extractLandmarks keypoints) as [raw|]; auto.
  destruct (smoothLandmarks _) as [landmarks|]; auto.
  pose proof (analyzePosture_countersOk (issueConsistency s) landmarks Hok)
    as Hok'.
  destruct (analyzePosture (issueConsistency s) landmarks) as [ic a].
  cbn [fst] in Hok'.
  destruct (UPDATE_INTERVAL <=? now - lastUpdateTime s)%Z; auto.
  pose proof (smoothPostureAnalysis_countersOk
                (pushBounded SMOOTHING_WINDOW (postureHistory s) a)
                (currentAnalysis s) ic Hok') as Hok''.
  destruct (smoothPostureAnalysis _ (currentAnalysis s) ic) as [ic' sm].
  exact Hok''.
Qed.

Lemma detectPose_issueConsistency d now w :
  issueConsistency (fst (fst (detectPose d now w)))
  = issueConsistency (fst (detectPoseBody d now (fst w))).
Proof.
  destruct w as [s b]. unfold detectPose. cbn [fst].
  destruct (detectPoseBody d now s) as [s' published]. cbn [fst].
  unfold reschedule. now destruct (negb (isPageVisible s')).
Qed.

End CounterInvariant.

(** X7: along every run of the detection loop, the consistency counters
    stay well formed: each key is tracked once, is one of the fifteen
    issue keys that have a message, and its count is never negative.  A
    fresh engine starts with such counters. *)
Theorem counters_stay_well_formed :
  forall (M : MathLib) (events : list Event) (w : Service * Browser),
    countersOk (issueConsistency (fst w)) ->
    countersOk (issueConsistency (fst (fst (runLoop events w)))).
Proof.
  intros M events. induction events as [|[d now|hidden] events IH];
    intros w Hok.
  - exact Hok.
  - simpl.
    pose proof (detectPose_issueConsistency d now w) as Hic.
    pose proof (detectPoseBody_countersOk d now (fst w) Hok) as Hok'.
    rewrite <- Hic in Hok'.
    destruct (detectPose d now w) as [w' published].
    specialize (IH w' Hok'). destruct (runLoop events w') as [w'' log].
    exact IH.
  - simpl. apply (IH (onVisibilityChange hidden (fst w), snd w)). exact Hok.
Qed.

(** X7 on a fresh engine that sees a pose, a failure, a hidden page and a
    pose again. *)
Lemma counters_stay_well_formed_witness :
  countersOk
    (issueConsistency
       (fst (fst (runLoop (M := approxMath)
                    [Tick (Poses [samplePose]) 5000; Tick DetectionFailure 5100;
                     VisibilityChange true; Tick (Poses [samplePose]) 5200]
                    (newService, newBrowser))))).
Proof.
  apply (counters_stay_well_formed approxMath
           [Tick (Poses [samplePose]) 5000; Tick DetectionFailure 5100;
            VisibilityChange true; Tick (Poses [samplePose]) 5200]
           (newService, newBrowser)).
  exact countersOk_nil.
Defined.

(** ** Appearing and fading of an issue *)

Lemma counter_smoothed_calm sm ic issue :
  Obj.wf ic -> calm sm = true ->
  counter (smoothCounters sm ic) issue = counter ic issue.
Proof.
  intros Hwf Hcalm. destruct sm as [[history current]|]; [|reflexivity].
  simpl in *. destruct history as [|h hs]; [reflexivity|].
  rewrite smoothPostureAnalysis_nonempty by discriminate. cbn [fst].
  apply negb_true_iff in Hcalm. rewrite Hcalm.
  unfold counter. rewrite pruneZero_get by assumption.
  destruct (Obj.get ic issue) as [c|]; [|reflexivity].
  destruct (Z.eqb_spec c 0); subst; reflexivity.
Qed.

Section Hysteresis.
Context {M : MathLib}.

Lemma counter_rises ic frames issue :
  Obj.wf ic ->
  Forall (fun e : PoseLandmarks * Smoothing =>
            qualifies issue (fst e) = true /\ calm (snd e) = true) frames ->
  counter (countersAfter ic frames) issue
  = (counter ic issue + Z.of_nat (List.length frames))%Z.
Proof.
  intros Hwf H. revert ic Hwf. unfold countersAfter.
  induction H as [|[lm sm] frames [Hq Hcalm] _ IH]; intros ic Hwf.
  - simpl. lia.
  - cbn [fold_left fst snd List.length] in *.
    pose proof (analyzePosture_wf ic lm Hwf) as Hwf'.
    rewrite IH by (now apply smoothCounters_wf).
    rewrite counter_smoothed_calm by assumption.
    unfold qualifies in Hq. apply andb_true_iff in Hq as [Hc Hf].
    unfold counter at 1. rewrite counter_after by assumption.
    rewrite Hf. cbn [orZero]. lia.
Qed.

Lemma counter_falls ic frames issue :
  Obj.wf ic -> (0 <= counter ic issue)%Z ->
  Forall (fun e : PoseLandmarks * Smoothing =>
            classified (fst e) = true /\
            flagged (potentialIssues (evaluateIssues (fst e))) issue = false /\
            calm (snd e) = true) frames ->
  counter (countersAfter ic frames) issue
  = Z.max 0 (counter ic issue - 3 * Z.of_nat (List.length frames)).
Proof.
  intros Hwf H0 H. revert ic Hwf H0. unfold countersAfter.
  induction H as [|[lm sm] frames (Hc & Hf & Hcalm) _ IH]; intros ic Hwf H0.
  - simpl. lia.
  - cbn [fold_left fst snd List.length] in *.
    pose proof (analyzePosture_wf ic lm Hwf) as Hwf'.
    assert (Hstep : counter (smoothCounters sm (fst (analyzePosture ic lm)))
                      issue = Z.max 0 (counter ic issue - 3)).
    { rewrite counter_smoothed_calm by assumption.
      unfold counter in *. rewrite counter_after by assumption.
      rewrite Hf. destruct (Obj.get ic issue); simpl in *; lia. }
    rewrite IH; [|now apply smoothCounters_wf|rewrite Hstep; lia].
    rewrite Hstep. lia.
Qed.

End Hysteresis.

(** X8: an issue flagged on three consecutive frames past the visibility
    gate is listed on the third, and on every consecutive qualifying
    frame after it: after at least two qualifying frames (with no
    counter-clearing smoothing pass in between) the next qualifying frame
    lists the issue, from any well-formed counters. *)
Theorem issue_listed_from_third_qualifying_frame :
  forall (M : MathLib) (ic : Obj.t Z)
         (earlier : list (PoseLandmarks * Smoothing)) (lm : PoseLandmarks)
         (issue message : string),
    countersOk ic ->
    issueMessage issue = Some message ->
    Forall (fun e => qualifies issue (fst e) = true /\ calm (snd e) = true)
      earlier ->
    (2 <= List.length earlier)%nat ->
    qualifies issue lm = true ->
    In message
      (issues (snd (analyzePosture (countersAfter ic earlier) lm))).
Proof.
  intros M ic earlier lm issue message Hok Hm Hall Hlen Hq.
  pose proof Hok as [Hwf _].
  pose proof (countersOk_counter ic issue Hok) as H0.
  pose proof (counter_rises ic earlier issue Hwf Hall) as Hrise.
  pose proof (countersAfter_wf ic earlier Hwf) as Hwf'.
  unfold qualifies in Hq. apply andb_true_iff in Hq as [Hc Hf].
  apply (shown_iff _ lm issue message Hwf' Hc Hm). split; [|exact Hf].
  unfold counter at 1. rewrite counter_after by assumption. rewrite Hf.
  cbn [orZero]. unfold CONSISTENCY_THRESHOLD. lia.
Qed.

(** X8 on the frames of [sampleRun] followed by one more. *)
Lemma issue_listed_from_third_qualifying_frame_witness :
  In "Forward head posture - Try pulling your chin back and aligning your ears over your shoulders"
    (issues
       (snd (analyzePosture (M := approxMath)
               (countersAfter (M := approxMath) [] sampleRun) visibleFrame))).
Proof.
  apply (issue_listed_from_third_qualifying_frame approxMath [] sampleRun
           visibleFrame "forward_head").
  - exact countersOk_nil.
  - reflexivity.
  - repeat constructor.
  - simpl. lia.
  - vm_compute. reflexivity.
Defined.

(** X9: an issue that stops being flagged loses 3 counts per frame past
    the visibility gate, down to 0: after n such frames (with no
    counter-clearing smoothing pass in between) its counter is
    max(0, c - 3n), so that a counter of c is forgotten after c/3 frames,
    rounded up. *)
Theorem counter_fades_three_per_frame :
  forall (M : MathLib) (ic : Obj.t Z)
         (frames : list (PoseLandmarks * Smoothing)) (issue : string),
    countersOk ic ->
    Forall (fun e =>
              classified (fst e) = true /\
              flagged (potentialIssues (evaluateIssues (fst e))) issue
              = false /\
              calm (snd e) = true) frames ->
    counter (countersAfter ic frames) issue
    = Z.max 0 (counter ic issue - 3 * Z.of_nat (List.length frames)).
Proof.
  intros M ic frames issue Hok Hall. pose proof Hok as [Hwf _].
  apply counter_falls; auto. now apply countersOk_counter.
Qed.

(** X9 on a slouching counter of 7 and the frames of [sampleRun], none of
    which slouches. *)
Lemma counter_fades_three_per_frame_witness :
  counter (countersAfter (M := approxMath) [("slouching", 7%Z)] sampleRun)
    "slouching"
  = Z.max 0 (counter [("slouching", 7%Z)] "slouching"
             - 3 * Z.of_nat (List.length sampleRun)).
Proof.
  apply (counter_fades_three_per_frame approxMath [("slouching", 7%Z)]
           sampleRun "slouching").
  - split.
    + repeat constructor. simpl. tauto.
    + intros issue count [[= <- <-]|[]]. split; [lia|].
      unfold knownIssue, issueTable. simpl. tauto.
  - repeat constructor.
Defined.

(** ** The rolling windows *)

Lemma pushBounded_length {A} (w : nat) (h : list A) (a : A) :
  (List.length h <= w)%nat -> (List.length (pushBounded w h a) <= w)%nat.
Proof.
  intros H. unfold pushBounded. cbv zeta.
  destruct (Nat.ltb_spec w (List.length (h ++ [a]))) as [E|E]; [|exact E].
  rewrite length_app in E. simpl in E.
  destruct (h ++ [a])%list as [|b l] eqn:Eq.
  - simpl. lia.
  - assert (List.length (b :: l) = (List.length h + 1)%nat)
      by (rewrite <- Eq, length_app; reflexivity).
    simpl in *. lia.
Qed.

Lemma pushBounded_In {A} (w : nat) (h : list A) (a b : A) :
  In b (pushBounded w h a) -> In b h \/ b = a.
Proof.
  unfold pushBounded. cbv zeta.
  assert (Happ : In b (h ++ [a])%list -> In b h \/ b = a).
  { intros Hin. apply in_app_or in Hin as [Hin|[<-|[]]]; auto. }
  destruct (w <? _)%nat; [|exact Happ].
  intros Hin. apply Happ. destruct (h ++ [a])%list; [destruct Hin|].
  now right.
Qed.

Section Windows.
Context {M : MathLib}.

Lemma detectPoseBody_windows d now s :
  (List.length (landmarkHistory s) <= LANDMARK_SMOOTHING_WINDOW)%nat ->
  (List.length (postureHistory s) <= SMOOTHING_WINDOW)%nat ->
  let s' := fst (detectPoseBody d now s) in
  (List.length (landmarkHistory s') <= LANDMARK_SMOOTHING_WINDOW)%nat /\
  (List.length (postureHistory s') <= SMOOTHING_WINDOW)%nat.
Proof.
  intros Hl Hp. unfold detectPoseBody.
  destruct d as [|[|keypoints poses]]; simpl; auto.
  destruct (extractLandmarks keypoints) as [raw|]; simpl; auto.
  pose proof (pushBounded_length _ _ raw Hl) as Hl'.
  destruct (smoothLandmarks _) as [landmarks|]; simpl; auto.
  destruct (analyzePosture (issueConsistency s) landmarks) as [ic a].
  pose proof (pushBounded_length _ _ a Hp) as Hp'.
  destruct (UPDATE_INTERVAL <=? now - lastUpdateTime s)%Z; simpl; auto.
  destruct (smoothPostureAnalysis _ (currentAnalysis s) ic) as [ic' sm].
  simpl. auto.
Qed.

Lemma detectPose_histories d now w :
  landmarkHistory (fst (fst (detectPose d now w)))
  = landmarkHistory (fst (detectPoseBody d now (fst w))) /\
  postureHistory (fst (fst (detectPose d now w)))
  = postureHistory (fst (detectPoseBody d now (fst w))).
Proof.
  destruct w as [s b]. unfold detectPose. cbn [fst].
  destruct (detectPoseBody d now s) as [s' published]. cbn [fst].
  unfold reschedule. now destruct (negb (isPageVisible s')).
Qed.

End Windows.

(** X10: along every run of the detection loop the landmark window never
    holds more than 6 frames and the analysis window never more than 12
    analyses, provided they start within these sizes (a fresh engine
    starts with both empty). *)
Theorem windows_stay_bounded :
  forall (M : MathLib) (events : list Event) (w : Service * Browser),
    (List.length (landmarkHistory (fst w)) <= 6)%nat ->
    (List.length (postureHistory (fst w)) <= 12)%nat ->
    let s' := fst (fst (runLoop events w)) in
    (List.length (landmarkHistory s') <= 6)%nat /\
    (List.length (postureHistory s') <= 12)%nat.
Proof.
  intros M events. induction events as [|[d now|hidden] events IH];
    intros w Hl Hp.
  - simpl. auto.
  - simpl.
    destruct (detectPose_histories d now w) as [El Ep].
    destruct (detectPoseBody_windows d now (fst w) Hl Hp) as [Hl' Hp'].
    rewrite <- El in Hl'. rewrite <- Ep in Hp'.
    destruct (detectPose d now w) as [w' published].
    specialize (IH w' Hl' Hp'). destruct (runLoop events w') as [w'' log].
    exact IH.
  - simpl. apply (IH (onVisibilityChange hidden (fst w), snd w)); assumption.
Qed.

(** X10 on a fresh engine fed the same pose eight times. *)
Lemma windows_stay_bounded_witness :
  let s' :=
    fst (fst (runLoop (M := approxMath)
                (map (fun t => Tick (Poses [samplePose]) t)
                   [100; 200; 300; 400; 500; 600; 700; 800]%Z)
                (newService, newBrowser))) in
  (List.length (landmarkHistory s') <= 6)%nat /\
  (List.length (postureHistory s') <= 12)%nat.
Proof.
  apply (windows_stay_bounded approxMath
           (map (fun t => Tick (Poses [samplePose]) t)
              [100; 200; 300; 400; 500; 600; 700; 800]%Z)
           (newService, newBrowser)); simpl; lia.
Defined.

(** ** What the engine publishes *)


Section Published.
Context {M : MathLib}.


Lemma analyzePosture_wellScored ic lm : wellScored (snd (analyzePosture ic lm)).
Proof.
  split.
  - unfold scoreInRange, analyzePosture.
    destruct (visibleLandmarks lm <? 2)%nat; cbn [snd].
    + rewrite lowVisibilityAnalysis_cases.
      destruct (shouldersCollapsed lm); simpl; lra.
    + simpl. split; [apply Math_max_ge_l|].
      apply Math_max_lub; [lra|apply Math_min_le_l].
  - intros m. rewrite reported_after. destruct (classified lm); [|lra].
    apply calculate_nonneg.
Qed.

End Published.

Lemma Math_round_range (q : Q) (lo hi : Z) :
  inject_Z lo <= q -> q <= inject_Z hi ->
  exists n, Math_round q = inject_Z n /\ (lo <= n <= hi)%Z.
Proof.
  intros Hlo Hhi. unfold Math_round. eexists. split; [reflexivity|]. split.
  - rewrite <- (Qfloor_Z lo). apply Qfloor_resp_le. lra.
  - assert (H : (Qfloor (q + 0.5) <= Qfloor (inject_Z hi + 0.5))%Z)
      by (apply Qfloor_resp_le; lra).
    assert (Hf : Qfloor (inject_Z hi + 0.5) = hi).
    { apply Z.le_antisymm.
      - apply Z.lt_succ_r. rewrite Zlt_Qlt.
        eapply Qle_lt_trans; [apply Qfloor_le|].
        rewrite <- Z.add_1_r, inject_Z_plus. change (inject_Z 1) with 1.
        lra.
      - rewrite <- (Qfloor_Z hi) at 1. apply Qfloor_resp_le. lra. }
    lia.
Qed.

Lemma Math_round_tenths_nonneg (q : Q) : 0 <= q -> 0 <= Math_round (q * 10) / 10.
Proof.
  intros H. unfold Math_round.
  assert (H0 : (0 <= Qfloor (q * 10 + 0.5))%Z).
  { rewrite <- (Qfloor_Z 0). apply Qfloor_resp_le.
    change (inject_Z 0) with 0. lra. }
  apply Qle_shift_div_l; [lra|]. rewrite Zle_Qle in H0.
  change (inject_Z 0) with 0 in H0. lra.
Qed.

Lemma smoothed_wholeScored history current ic :
  history <> [] -> Forall wellScored history ->
  wholeScored (snd (smoothPostureAnalysis history current ic)).
Proof.
  intros Hne Hall.
  rewrite smoothPostureAnalysis_nonempty by assumption. cbn [snd].
  assert (Hmap : forall f : PostureAnalysis -> Q, map f history <> []).
  { intros f Hf. apply map_eq_nil in Hf. contradiction. }
  split.
  - cbn [score]. apply (Math_round_range _ 2 10).
    + apply (mean_bounds 2 10); auto. apply Forall_forall. intros q Hq.
      apply in_map_iff in Hq as (a & <- & Ha).
      rewrite Forall_forall in Hall. apply (Hall a Ha).
    + apply (mean_bounds 2 10); auto. apply Forall_forall. intros q Hq.
      apply in_map_iff in Hq as (a & <- & Ha).
      rewrite Forall_forall in Hall. apply (Hall a Ha).
  - assert (Hmean : forall m, 0 <= mean (map (reported m) history)).
    { intros m.
      pose proof (len_pos _ (Hmap (reported m))) as Hpos.
      unfold mean. apply Qle_shift_div_l; [exact Hpos|].
      pose proof (sum_lower 0 (map (reported m) history) 0) as Hs.
      assert (Forall (fun q => 0 <= q) (map (reported m) history)).
      { apply Forall_forall. intros q Hq.
        apply in_map_iff in Hq as (a & <- & Ha).
        rewrite Forall_forall in Hall. apply (Hall a Ha). }
      specialize (Hs H). lra. }
    intros m. destruct m; cbn [reported neckAngle shoulderAlignment
      spineAlignment headPosition shoulderHeight];
      apply Math_round_tenths_nonneg.
    + apply (Hmean NeckAngle).
    + apply (Hmean ShoulderAlignment).
    + apply (Hmean SpineAlignment).
    + apply (Hmean HeadPosition).
    + apply (Hmean ShoulderHeight).
Qed.

Section PublishedRuns.
Context {M : MathLib}.

Lemma detectPoseBody_wellScored d now s :
  Forall wellScored (postureHistory s) ->
  Forall wellScored (postureHistory (fst (detectPoseBody d now s))) /\
  match snd (detectPoseBody d now s) with
  | Some a => wholeScored a
  | None => True
  end.
Proof.
  intros Hall. unfold detectPoseBody.
  destruct d as [|[|keypoints poses]]; simpl; auto.
  destruct (extractLandmarks keypoints) as [raw|]; simpl; auto.
  destruct (smoothLandmarks _) as [landmarks|]; simpl; auto.
  pose proof (analyzePosture_wellScored (issueConsistency s) landmarks) as Ha.
  destruct (analyzePosture (issueConsistency s) landmarks) as [ic a].
  cbn [snd] in Ha.
  assert (Hph : Forall wellScored
                  (pushBounded SMOOTHING_WINDOW (postureHistory s) a)).
  { apply Forall_forall. intros b Hb.
    apply pushBounded_In in Hb as [Hb| ->]; auto.
    rewrite Forall_forall in Hall. auto. }
  destruct (UPDATE_INTERVAL <=? now - lastUpdateTime s)%Z; simpl; auto.
  pose proof (smoothed_wholeScored
                (pushBounded SMOOTHING_WINDOW (postureHistory s) a)
                (currentAnalysis s) ic) as Hsm.
  destruct (smoothPostureAnalysis _ (currentAnalysis s) ic) as [ic' sm].
  simpl. split; auto. apply Hsm; auto.
  apply pushBounded_nonempty. unfold SMOOTHING_WINDOW. lia.
Qed.

Lemma detectPose_body d now w :
  snd (detectPose d now w) = snd (detectPoseBody d now (fst w)).
Proof.
  destruct w as [s b]. unfold detectPose. cbn [fst].
  now destruct (detectPoseBody d now s).
Qed.

End PublishedRuns.


Lemma runLoop_wholeScored :
  forall (M : MathLib) (events : list Event) (w : Service * Browser),
    Forall wellScored (postureHistory (fst w)) ->
    Forall (fun e => wholeScored (snd e)) (snd (runLoop events w)).
Proof.
  intros M events. induction events as [|[d now|hidden] events IH];
    intros w Hall.
  - constructor.
  - simpl.
    destruct (detectPoseBody_wellScored d now (fst w) Hall) as [Hh Hp].
    destruct (detectPose_histories d now w) as [_ Ep].
    rewrite <- Ep in Hh. rewrite <- detectPose_body in Hp.
    destruct (detectPose d now w) as [w' published]. cbn [fst snd] in *.
    specialize (IH w' Hh). destruct (runLoop events w') as [w'' log].
    cbn [snd] in *. destruct published; auto.
  - simpl. apply (IH (onVisibilityChange hidden (fst w), snd w)). exact Hall.
Qed.

(** X12: every analysis the engine publishes has a whole-number score
    from 2 to 10 and no negative metric, in every run that starts with an
    analysis window of per-frame analyses (a fresh engine starts with an
    empty one): the default score 85 of an empty window is never
    published. *)
Theorem published_scores_are_whole_from_2_to_10 :
  forall (M : MathLib) (events : list Event) (w : Service * Browser),
    Forall wellScored (postureHistory (fst w)) ->
    Forall (fun e => wholeScored (snd e)) (snd (runLoop events w)).
Proof. intros M events w H. now apply runLoop_wholeScored. Qed.

(** X12 on a fresh engine that publishes twice. *)
Lemma published_scores_are_whole_from_2_to_10_witness :
  Forall (fun e => wholeScored (snd e))
    (snd (runLoop (M := approxMath)
            [Tick (Poses [samplePose]) 5000; Tick (Poses [samplePose]) 5100;
             Tick (Poses [samplePose]) 7100]
            (newService, newBrowser))).
Proof.
  apply (published_scores_are_whole_from_2_to_10 approxMath
           [Tick (Poses [samplePose]) 5000; Tick (Poses [samplePose]) 5100;
            Tick (Poses [samplePose]) 7100]
           (newService, newBrowser)).
  constructor.
Defined.

(** ** Failed detections and visibility changes *)

Section Unproductive.
Context {M : MathLib}.

Lemma detectPoseBody_congruent d now s1 s2 :
  analysisState s1 = analysisState s2 ->
  snd (detectPoseBody d now s1) = snd (detectPoseBody d now s2) /\
  analysisState (fst (detectPoseBody d now s1))
  = analysisState (fst (detectPoseBody d now s2)).
Proof.
  destruct s1 as [i1 c1 f1 t1 v1 ph1 lh1 ic1].
  destruct s2 as [i2 c2 f2 t2 v2 ph2 lh2 ic2].
  unfold analysisState. cbn. intros [= -> -> -> -> ->].
  unfold detectPoseBody. cbn.
  destruct d as [|[|keypoints poses]]; auto.
  destruct (extractLandmarks keypoints) as [raw|]; auto.
  destruct (smoothLandmarks _) as [landmarks|]; auto.
  destruct (analyzePosture ic2 landmarks) as [ic a].
  destruct (UPDATE_INTERVAL <=? now - t2)%Z; auto.
  destruct (smoothPostureAnalysis _ c2 ic) as [ic' sm]. auto.
Qed.

Lemma detectPoseBody_unanalysed d now s :
  analysed d = false -> detectPoseBody d now s = (s, None).
Proof.
  unfold analysed, detectPoseBody.
  destruct d as [|[|keypoints poses]]; auto.
  destruct (extractLandmarks keypoints); [discriminate|auto].
Qed.

Lemma detectPose_analysisState d now w :
  analysisState (fst (fst (detectPose d now w)))
  = analysisState (fst (detectPoseBody d now (fst w))).
Proof.
  destruct w as [s b]. unfold detectPose. cbn [fst].
  destruct (detectPoseBody d now s) as [s' published]. cbn [fst].
  unfold reschedule. now destruct (negb (isPageVisible s')).
Qed.

Lemma runLoop_congruent events w1 w2 :
  analysisState (fst w1) = analysisState (fst w2) ->
  snd (runLoop events w1) = snd (runLoop events w2) /\
  analysisState (fst (fst (runLoop events w1)))
  = analysisState (fst (fst (runLoop events w2))).
Proof.
  revert w1 w2. induction events as [|[d now|hidden] events IH];
    intros w1 w2 Heq.
  - auto.
  - simpl.
    destruct (detectPoseBody_congruent d now _ _ Heq) as [Hp Hs].
    rewrite <- !detectPose_analysisState in Hs.
    rewrite <- !detectPose_body in Hp.
    destruct (detectPose d now w1) as [w1' p1].
    destruct (detectPose d now w2) as [w2' p2]. cbn [fst snd] in *.
    subst p2. destruct (IH w1' w2' Hs) as [Hlog Hfin].
    destruct (runLoop events w1') as [w1'' log1].
    destruct (runLoop events w2') as [w2'' log2]. cbn [fst snd] in *.
    now subst log2.
  - simpl. apply IH. destruct w1 as [s1 b1], w2 as [s2 b2].
    unfold analysisState in *. exact Heq.
Qed.

End Unproductive.

(** X13: detection failures, empty or truncated poses and page visibility
    changes are invisible to the consumers of the engine: removing these
    events from a run changes neither what is published, and when, nor
    the analysis state (current analysis, last publication time, both
    windows and the counters) the run ends in. *)
Theorem unproductive_events_change_nothing :
  forall (M : MathLib) (events : list Event) (w : Service * Browser),
    snd (runLoop events w) = snd (runLoop (filter productive events) w) /\
    analysisState (fst (fst (runLoop events w)))
    = analysisState (fst (fst (runLoop (filter productive events) w))).
Proof.
  intros M events. induction events as [|e events IH]; intros w.
  - auto.
  - assert (Hskip : productive e = false ->
                    exists w', runLoop (e :: events) w = runLoop events w' /\
                               analysisState (fst w') = analysisState (fst w)).
    { destruct e as [d now|hidden]; simpl; intros Hp.
      - pose proof (detectPose_body d now w) as Hb.
        pose proof (detectPose_analysisState d now w) as Hs.
        rewrite (detectPoseBody_unanalysed d now (fst w) Hp) in Hb, Hs.
        destruct (detectPose d now w) as [w' published]. cbn [fst snd] in *.
        subst published. exists w'. split; [|exact Hs].
        now destruct (runLoop events w').
      - eexists. split; [reflexivity|]. destruct w. reflexivity. }
    cbn [filter]. destruct (productive e) eqn:Hp.
    + destruct e as [d now|hidden]; [|discriminate]. simpl.
      destruct (detectPose d now w) as [w' published].
      destruct (IH w') as [Hlog Hfin].
      destruct (runLoop events w') as [w1 log1].
      destruct (runLoop (filter productive events) w') as [w2 log2].
      cbn [fst snd] in *. now subst log2.
    + destruct (Hskip eq_refl) as (w' & -> & Hw').
      destruct (IH w') as [Hlog Hfin].
      destruct (runLoop_congruent (filter productive events) w' w Hw')
        as [Hlog' Hfin'].
      split; congruence.
Qed.

(** * Properties of the tracking service *)

(** ** Posture history and average *)

Lemma step_postureHistory e s :
  Tracking.postureHistory (Tracking.data (fst (Tracking.step e s)))
  = match e with
    | Tracking.UpdatePostureScore q _ _ =>
        pushBounded 20 (Tracking.postureHistory (Tracking.data s)) q
    | _ => Tracking.postureHistory (Tracking.data s)
    end.
Proof.
  destruct e; try reflexivity.
  - simpl. unfold Tracking.addCommonIssue.
    now destruct (negb (Tracking.includes _ issue)).
  - simpl. unfold Tracking.breakAlertTick.
    now destruct (_ && _).
Qed.

Lemma run_cons e events s :
  Tracking.run (e :: events) s
  = (fst (Tracking.run events (fst (Tracking.step e s))),
     (map (fun c => (e, c)) (snd (Tracking.step e s))
      ++ snd (Tracking.run events (fst (Tracking.step e s))))%list).
Proof.
  cbn [Tracking.run]. destruct (Tracking.step e s) as [s' callbacks].
  cbn [fst snd]. now destruct (Tracking.run events s').
Qed.

Lemma scoresOf_cons e events :
  scoresOf (e :: events)
  = (match e with
     | Tracking.UpdatePostureScore q _ _ => [q]
     | _ => []
     end ++ scoresOf events)%list.
Proof. reflexivity. Qed.

Lemma run_postureHistory events s (seen : list Q) :
  Tracking.postureHistory (Tracking.data s) = lastN 20 seen ->
  Tracking.postureHistory (Tracking.data (fst (Tracking.run events s)))
  = lastN 20 (seen ++ scoresOf events).
Proof.
  revert s seen. induction events as [|e events IH]; intros s seen Hs.
  - simpl. now rewrite app_nil_r.
  - rewrite run_cons, scoresOf_cons. cbn [fst].
    destruct e;
      try (apply IH; rewrite step_postureHistory; exact Hs).
    rewrite app_assoc.
    apply IH. rewrite step_postureHistory, Hs.
    apply pushBounded_lastN. lia.
Qed.

Lemma step_averageIsMean e s :
  averageIsMean s -> averageIsMean (fst (Tracking.step e s)).
Proof.
  unfold averageIsMean. intros H. destruct e; try exact H.
  - simpl. unfold mean. now rewrite reduce_sum_map, map_id.
  - simpl. unfold Tracking.addCommonIssue.
    now destruct (negb (Tracking.includes _ issue)).
  - simpl. unfold Tracking.breakAlertTick. now destruct (_ && _).
Qed.

Lemma step_update_averageIsMean q i now s :
  averageIsMean (fst (Tracking.step (Tracking.UpdatePostureScore q i now) s)).
Proof.
  unfold averageIsMean. simpl. unfold mean.
  now rewrite reduce_sum_map, map_id.
Qed.

Lemma run_averageIsMean events s :
  averageIsMean s \/ scoresOf events <> [] ->
  averageIsMean (fst (Tracking.run events s)).
Proof.
  revert s. induction events as [|e events IH]; intros s H.
  - simpl. destruct H as [H|H]; [exact H|now contradiction H].
  - rewrite run_cons. cbn [fst]. apply IH.
    destruct H as [H|H].
    + left. now apply step_averageIsMean.
    + destruct e; try (right; exact H).
      left. apply step_update_averageIsMean.
Qed.

(** X14: the tracking service keeps the scores of the last 20 updates:
    after any sequence of method calls and interval ticks its posture
    history is the last 20 entries of what it held before followed by the
    scores handed to [updatePostureScore] since, and once a score has been
    handed over its average is the arithmetic mean of that history. *)
Theorem tracked_history_is_last_twenty :
  forall (events : list Tracking.Event) (s : Tracking.Service),
    (List.length (Tracking.postureHistory (Tracking.data s)) <= 20)%nat ->
    let s' := fst (Tracking.run events s) in
    Tracking.postureHistory (Tracking.data s')
    = lastN 20 (Tracking.postureHistory (Tracking.data s) ++ scoresOf events)
    /\ match scoresOf events with
       | [] => True
       | _ :: _ =>
           Tracking.averagePostureScore (Tracking.data s')
           = mean (Tracking.postureHistory (Tracking.data s'))
       end.
Proof.
  intros events s Hlen s'. subst s'. split.
  - apply run_postureHistory. symmetry. now apply lastN_all.
  - destruct (scoresOf events) eqn:E; [exact I|].
    apply run_averageIsMean. right. congruence.
Qed.

(** X14 on a fresh service that is handed the scores 7, 2 and 9 around a
    break. *)
Lemma tracked_history_is_last_twenty_witness :
  let events :=
    [Tracking.UpdatePostureScore 7 None 2000; Tracking.TakeBreak 2500;
     Tracking.UpdatePostureScore 2 (Some ["Slouching"]) 90000;
     Tracking.UpdatePostureScore 9 (Some []) 92000] in
  let s' := fst (Tracking.run events sampleTracking) in
  Tracking.postureHistory (Tracking.data s')
  = lastN 20
      (Tracking.postureHistory (Tracking.data sampleTracking)
       ++ scoresOf events)
  /\ match scoresOf events with
     | [] => True
     | _ :: _ =>
         Tracking.averagePostureScore (Tracking.data s')
         = mean (Tracking.postureHistory (Tracking.data s'))
     end.
Proof.
  apply (tracked_history_is_last_twenty
           [Tracking.UpdatePostureScore 7 None 2000; Tracking.TakeBreak 2500;
            Tracking.UpdatePostureScore 2 (Some ["Slouching"]) 90000;
            Tracking.UpdatePostureScore 9 (Some []) 92000]
           sampleTracking).
  simpl. lia.
Defined.

(** ** Posture alerts *)

Lemma postureAlertsOf_app l1 l2 :
  postureAlertsOf (l1 ++ l2) = (postureAlertsOf l1 ++ postureAlertsOf l2)%list.
Proof. unfold postureAlertsOf. apply flat_map_app. Qed.

(** What one event does to the posture alert. *)
Lemma step_postureAlert e s :
  let s' := fst (Tracking.step e s) in
  match postureAlertsOf (map (fun c => (e, c)) (snd (Tracking.step e s))) with
  | [] =>
      Tracking.lastPostureAlertTime s' = Tracking.lastPostureAlertTime s /\
      Tracking.postureAlertActive s'
      = (if resetsPostureAlert e then false
         else Tracking.postureAlertActive s)
  | [(now, l, q)] =>
      (Tracking.lastPostureAlertTime s + 60000 < now)%Z /\
      Tracking.lastPostureAlertTime s' = now /\
      q < 3 /\ List.length l = 1%nat /\
      Tracking.postureAlertActive s = false /\
      Tracking.postureAlertActive s' = true
  | _ => False
  end.
Proof.
  destruct e as [ | | st | q issues now | now | | | issue | issue | | | now
                | now | | ]; try (simpl; auto; fail).
  - simpl. unfold Tracking.updatePostureScore. cbv zeta.
    destruct issues as [[|mainIssue rest]|]; cbn; auto.
    destruct (Tracking.enableNotifications (Tracking.settings s)); cbn; auto.
    destruct (ltb q 3) eqn:Escore; cbn; auto.
    destruct (Tracking.postureAlertActive s); cbn; auto.
    destruct (60000 <? now - Tracking.lastPostureAlertTime s)%Z eqn:Et;
      cbn; auto.
    destruct (Tracking.hasPostureAlert s); cbn; auto.
    apply ltb_true in Escore. apply Z.ltb_lt in Et.
    repeat split; auto. lia.
  - simpl. unfold Tracking.addCommonIssue.
    destruct (negb (Tracking.includes _ issue)); auto.
  - simpl. unfold Tracking.breakAlertTick.
    destruct (_ && _); cbn; auto.
Qed.

Lemma run_postureAlerts events s :
  let alerts := postureAlertsOf (snd (Tracking.run events s)) in
  StronglySorted (fun a b => (alertTime a + 60000 < alertTime b)%Z) alerts /\
  Forall
    (fun a =>
       snd a < 3 /\ List.length (snd (fst a)) = 1%nat /\
       (Tracking.lastPostureAlertTime s + 60000 < alertTime a)%Z) alerts.
Proof.
  revert s. induction events as [|e events IH]; intros s.
  - simpl. split; constructor.
  - rewrite run_cons. cbn [snd]. cbv zeta. rewrite postureAlertsOf_app.
    pose proof (step_postureAlert e s) as Hstep. cbv zeta in Hstep.
    destruct (IH (fst (Tracking.step e s))) as [Hsorted Hall].
    destruct (postureAlertsOf (map (fun c => (e, c)) (snd (Tracking.step e s))))
      as [|[[now l] q] [|a more]]; [| |destruct Hstep].
    + destruct Hstep as [Hlast _]. rewrite Hlast in Hall. simpl. auto.
    + destruct Hstep as (Hgap & Hlast & Hq & Hl & _).
      rewrite Hlast in Hall. simpl. split.
      * constructor; auto. eapply Forall_impl; [|exact Hall].
        simpl. unfold alertTime. simpl. tauto.
      * constructor; [unfold alertTime; simpl; auto|].
        eapply Forall_impl; [|exact Hall]. simpl. intros a (H1 & H2 & H3).
        repeat split; auto. lia.
Qed.

(** X15: whatever is done to the tracking service, every posture alert it
    raises carries a score below 3 and exactly one issue, and any two
    alerts are more than 60000 ms apart (the cooldown runs from the
    previous alert, not from its dismissal). *)
Theorem posture_alerts_are_rate_limited :
  forall (events : list Tracking.Event) (s : Tracking.Service),
    let alerts := postureAlertsOf (snd (Tracking.run events s)) in
    StronglySorted (fun a b => (alertTime a + 60000 < alertTime b)%Z) alerts
    /\ Forall
         (fun a =>
            snd a < 3 /\ List.length (snd (fst a)) = 1%nat /\
            (Tracking.lastPostureAlertTime s + 60000 < alertTime a)%Z)
         alerts.
Proof. intros events s. apply run_postureAlerts. Qed.

Lemma run_postureAlert_active events s :
  noneOf resetsPostureAlert events = true ->
  let alerts := postureAlertsOf (snd (Tracking.run events s)) in
  (List.length alerts <= 1)%nat /\
  (Tracking.postureAlertActive s = true -> alerts = []).
Proof.
  revert s. induction events as [|e events IH]; intros s Hnone.
  - simpl. auto.
  - simpl in Hnone. apply andb_true_iff in Hnone as [He Hnone].
    apply negb_true_iff in He.
    rewrite run_cons. cbn [snd]. cbv zeta. rewrite postureAlertsOf_app.
    pose proof (step_postureAlert e s) as Hstep. cbv zeta in Hstep.
    destruct (IH (fst (Tracking.step e s)) Hnone) as [Hlen Hact].
    destruct (postureAlertsOf (map (fun c => (e, c)) (snd (Tracking.step e s))))
      as [|[[now l] q] [|a more]]; [| |destruct Hstep].
    + destruct Hstep as [_ Hsame]. rewrite He in Hsame. simpl.
      split; [exact Hlen|]. intros Ha. apply Hact. congruence.
    + destruct Hstep as (_ & _ & _ & _ & Hwas & Hnow).
      rewrite (Hact Hnow). simpl. split; [lia|]. congruence.
Qed.

(** X16: a posture alert stays active until it is dismissed (or tracking
    is started or the settings updated): a sequence of events without any
    of these raises at most one posture alert, and none at all if an
    alert was already active. *)
Theorem one_posture_alert_until_dismissed :
  forall (events : list Tracking.Event) (s : Tracking.Service),
    noneOf resetsPostureAlert events = true ->
    let alerts := postureAlertsOf (snd (Tracking.run events s)) in
    (List.length alerts <= 1)%nat /\
    (Tracking.postureAlertActive s = true -> alerts = []).
Proof. intros events s H. now apply run_postureAlert_active. Qed.

(** X16 on two bad scores more than a minute apart, with no dismissal in
    between: only the first one alerts. *)
Lemma one_posture_alert_until_dismissed_witness :
  let events :=
    [Tracking.UpdatePostureScore 2 (Some ["Slouching"]) 70000;
     Tracking.ScreenTimeTick;
     Tracking.UpdatePostureScore 2 (Some ["Slouching"]) 200000] in
  let alerts := postureAlertsOf (snd (Tracking.run events sampleTracking)) in
  (List.length alerts <= 1)%nat /\
  (Tracking.postureAlertActive sampleTracking = true -> alerts = []).
Proof.
  apply (one_posture_alert_until_dismissed
           [Tracking.UpdatePostureScore 2 (Some ["Slouching"]) 70000;
            Tracking.ScreenTimeTick;
            Tracking.UpdatePostureScore 2 (Some ["Slouching"]) 200000]
           sampleTracking).
  reflexivity.
Defined.

(** ** The engine feeding the tracking service *)

Lemma whole_below_three (a : PostureAnalysis) :
  wholeScored a -> score a < 3 -> score a == 2.
Proof.
  intros [(n & Hn & Hrange) _] Hlt. rewrite Hn in *.
  change 3 with (inject_Z 3) in Hlt. rewrite <- Zlt_Qlt in Hlt.
  assert (n = 2%Z) by lia. subst n. reflexivity.
Qed.

Lemma handlePostureAnalysis_callbacks a now s :
  snd (Tracking.handlePostureAnalysis a now s)
  = [Tracking.OnPostureChange (score a)] \/
  (score a < 3 /\
   exists mainIssue rest,
     issues a = mainIssue :: rest /\
     snd (Tracking.handlePostureAnalysis a now s)
     = [Tracking.OnPostureAlert [mainIssue] (score a);
        Tracking.OnPostureChange (score a)]).
Proof.
  unfold Tracking.handlePostureAnalysis, Tracking.updatePostureScore.
  cbv zeta. cbn [snd].
  destruct (issues a) as [|mainIssue rest]; [now left|].
  destruct (ltb (score a) 3) eqn:E.
  - apply ltb_true in E.
    match goal with
    | |- context [if ?c then _ else _] => destruct c
    end; [right|left; reflexivity].
    split; [exact E|]. now exists mainIssue, rest.
  - rewrite andb_false_r. cbn. now left.
Qed.

(** X17: when the application hands a published analysis to the tracking
    service, the service notifies the score change and nothing else,
    unless the smoothed score is exactly 2, the lowest the engine can
    publish; only then can it raise a posture alert, and the alert names
    the first issue of the analysis alone. *)
Theorem alert_only_for_lowest_published_score :
  forall (M : MathLib) (events : list Event) (w : Service * Browser),
    Forall wellScored (postureHistory (fst w)) ->
    Forall
      (fun e =>
         forall (now : Z) (s : Tracking.Service),
           let a := snd e in
           snd (Tracking.handlePostureAnalysis a now s)
           = [Tracking.OnPostureChange (score a)] \/
           (score a == 2 /\
            exists mainIssue rest,
              issues a = mainIssue :: rest /\
              snd (Tracking.handlePostureAnalysis a now s)
              = [Tracking.OnPostureAlert [mainIssue] (score a);
                 Tracking.OnPostureChange (score a)]))
      (snd (runLoop events w)).
Proof.
  intros M events w Hall.
  pose proof (runLoop_wholeScored M events w Hall) as Hlog.
  eapply Forall_impl; [|exact Hlog]. intros [t a] Hwhole now s. cbn [snd] in *.
  destruct (handlePostureAnalysis_callbacks a now s) as [H|(Hlt & H)];
    [now left|right].
  split; [now apply whole_below_three|exact H].
Qed.

(** X17 on a fresh engine that publishes twice. *)
Lemma alert_only_for_lowest_published_score_witness :
  Forall
    (fun e =>
       forall (now : Z) (s : Tracking.Service),
         let a := snd e in
         snd (Tracking.handlePostureAnalysis a now s)
         = [Tracking.OnPostureChange (score a)] \/
         (score a == 2 /\
          exists mainIssue rest,
            issues a = mainIssue :: rest /\
            snd (Tracking.handlePostureAnalysis a now s)
            = [Tracking.OnPostureAlert [mainIssue] (score a);
               Tracking.OnPostureChange (score a)]))
    (snd (runLoop (M := approxMath)
            [Tick (Poses [samplePose]) 5000; Tick (Poses [samplePose]) 5100;
             Tick (Poses [samplePose]) 7100]
            (newService, newBrowser))).
Proof.
  apply (alert_only_for_lowest_published_score approxMath
           [Tick (Poses [samplePose]) 5000; Tick (Poses [samplePose]) 5100;
            Tick (Poses [samplePose]) 7100]
           (newService, newBrowser)).
  constructor.
Defined.

(** ** Break alerts *)

Lemma breakAlertsOf_app l1 l2 :
  breakAlertsOf (l1 ++ l2) = (breakAlertsOf l1 ++ breakAlertsOf l2)%list.
Proof. unfold breakAlertsOf. apply flat_map_app. Qed.

Lemma minutes_to_ms (d : Z) (r : Q) :
  r <= inject_Z (d / 60000) -> r * 60000 <= inject_Z d.
Proof.
  intros H.
  assert (Hz : (60000 * (d / 60000) <= d)%Z) by (apply Z.mul_div_le; lia).
  rewrite Zle_Qle, inject_Z_mult in Hz.
  change (inject_Z 60000) with 60000 in Hz. lra.
Qed.

(** What one event does to the break alert. *)
Lemma step_breakAlert e s :
  let s' := fst (Tracking.step e s) in
  match breakAlertsOf (map (fun c => (e, c)) (snd (Tracking.step e s))) with
  | [] =>
      Tracking.lastBreakAlertTime s' = Tracking.lastBreakAlertTime s /\
      Tracking.breakAlertActive s'
      = (if resetsBreakAlert e then false else Tracking.breakAlertActive s)
  | [now] =>
      (Tracking.lastBreakAlertTime s + 300000 < now)%Z /\
      Tracking.lastBreakAlertTime s' = now /\
      Tracking.breakAlertActive s = false /\
      Tracking.breakAlertActive s' = true /\
      Tracking.reminderInterval (Tracking.settings s) * 60000
      <= inject_Z (now - Tracking.lastBreakTime (Tracking.data s))
  | _ => False
  end.
Proof.
  destruct e as [ | | st | q issues now | now | | | issue | issue | | | now
                | now | | ]; try (simpl; auto; fail).
  - simpl. unfold Tracking.updatePostureScore. cbv zeta. cbn [fst snd].
    assert (Hnone : forall l,
               breakAlertsOf
                 (map (fun c => (Tracking.UpdatePostureScore q issues now, c))
                    (l ++ [Tracking.OnPostureChange q])) = []).
    { intros l. unfold breakAlertsOf. rewrite flat_map_concat_map.
      rewrite map_map. induction l as [|c l IH]; [reflexivity|].
      simpl. exact IH. }
    rewrite Hnone. cbn. auto.
  - simpl. unfold Tracking.addCommonIssue.
    destruct (negb (Tracking.includes _ issue)); auto.
  - simpl. unfold Tracking.breakAlertTick. cbv zeta.
    destruct (geb _ _) eqn:Eg; cbn; auto.
    destruct (Tracking.hasBreakAlert s); cbn; auto.
    destruct (Tracking.breakAlertActive s) eqn:Ea; cbn; auto.
    destruct (300000 <? now - Tracking.lastBreakAlertTime s)%Z eqn:Et;
      cbn; auto.
    apply Z.ltb_lt in Et. apply geb_true in Eg.
    split; [lia|]. do 3 (split; [reflexivity|]).
    now apply minutes_to_ms.
Qed.

Lemma run_breakAlerts events s :
  let alerts := breakAlertsOf (snd (Tracking.run events s)) in
  StronglySorted (fun a b => (a + 300000 < b)%Z) alerts /\
  Forall (fun a => (Tracking.lastBreakAlertTime s + 300000 < a)%Z) alerts /\
  (noneOf resetsBreakAlert events = true ->
   (List.length alerts <= 1)%nat /\
   (Tracking.breakAlertActive s = true -> alerts = [])).
Proof.
  revert s. induction events as [|e events IH]; intros s.
  - simpl. repeat split; auto; constructor.
  - rewrite run_cons. cbn [snd]. cbv zeta. rewrite breakAlertsOf_app.
    pose proof (step_breakAlert e s) as Hstep. cbv zeta in Hstep.
    destruct (IH (fst (Tracking.step e s))) as (Hsorted & Hall & Hone).
    destruct (breakAlertsOf (map (fun c => (e, c)) (snd (Tracking.step e s))))
      as [|now [|a more]]; [| |destruct Hstep].
    + destruct Hstep as [Hlast Hsame]. rewrite Hlast in Hall. simpl.
      split; [exact Hsorted|]. split; [exact Hall|].
      intros Hnone. simpl in Hnone.
      apply andb_true_iff in Hnone as [He Hnone].
      apply negb_true_iff in He. rewrite He in Hsame.
      destruct (Hone Hnone) as [Hlen Hact]. split; [exact Hlen|].
      intros Ha. apply Hact. congruence.
    + destruct Hstep as (Hgap & Hlast & Hwas & Hnow & _).
      rewrite Hlast in Hall. simpl.
      split; [constructor; auto|].
      split; [constructor; auto; eapply Forall_impl; [|exact Hall];
              simpl; intros; lia|].
      intros Hnone. simpl in Hnone.
      apply andb_true_iff in Hnone as [_ Hnone].
      destruct (Hone Hnone) as [_ Hact]. rewrite (Hact Hnow).
      split; [simpl; lia|congruence].
Qed.

(** X18: whatever is done to the tracking service, any two break alerts
    are more than 300000 ms apart; and a break alert stays active until it
    is dismissed or a break is taken: a sequence of events without any of
    these raises at most one break alert, and none if one was already
    active. *)
Theorem break_alerts_are_rate_limited :
  forall (events : list Tracking.Event) (s : Tracking.Service),
    let alerts := breakAlertsOf (snd (Tracking.run events s)) in
    StronglySorted (fun a b => (a + 300000 < b)%Z) alerts /\
    (if noneOf resetsBreakAlert events
     then (List.length alerts <= 1)%nat /\
          (if Tracking.breakAlertActive s
           then alerts = [] else True)
     else True).
Proof.
  intros events s alerts. subst alerts.
  destruct (run_breakAlerts events s) as (Hsorted & _ & Hone).
  split; [exact Hsorted|].
  destruct (noneOf resetsBreakAlert events); [|exact I].
  destruct (Hone eq_refl) as [Hlen Hact]. split; [exact Hlen|].
  destruct (Tracking.breakAlertActive s); auto.
Qed.

Lemma step_lastBreakTime e s :
  isTakeBreak e = false ->
  Tracking.lastBreakTime (Tracking.data (fst (Tracking.step e s)))
  = Tracking.lastBreakTime (Tracking.data s).
Proof.
  destruct e; try discriminate; intros _; try reflexivity.
  - simpl. unfold Tracking.addCommonIssue.
    now destruct (negb (Tracking.includes _ issue)).
  - simpl. unfold Tracking.breakAlertTick. now destruct (_ && _).
Qed.

Lemma run_lastBreakTime events s :
  noneOf isTakeBreak events = true ->
  Tracking.lastBreakTime (Tracking.data (fst (Tracking.run events s)))
  = Tracking.lastBreakTime (Tracking.data s).
Proof.
  revert s. induction events as [|e events IH]; intros s Hnone.
  - reflexivity.
  - simpl in Hnone. apply andb_true_iff in Hnone as [He Hnone].
    apply negb_true_iff in He. rewrite run_cons. cbn [fst].
    rewrite IH by assumption. now apply step_lastBreakTime.
Qed.

(** X19: no break reminder comes sooner than the reminder interval after
    a break: once [takeBreak] ran at time t, and whatever happens next
    short of another break, the break alert check raises an alert at time
    [now] only if [now - t] is at least the reminder interval (in minutes)
    times 60000 ms. *)
Theorem no_break_alert_before_interval :
  forall (t now : Z) (events : list Tracking.Event) (s : Tracking.Service),
    noneOf isTakeBreak events = true ->
    let s1 := fst (Tracking.run events (Tracking.takeBreak t s)) in
    In Tracking.OnBreakAlert (snd (Tracking.breakAlertTick now s1)) ->
    Tracking.reminderInterval (Tracking.settings s1) * 60000
    <= inject_Z (now - t).
Proof.
  intros t now events s Hnone s1 Hin.
  assert (Hlb : Tracking.lastBreakTime (Tracking.data s1) = t).
  { subst s1. now rewrite run_lastBreakTime. }
  pose proof (step_breakAlert (Tracking.BreakAlertTick now) s1) as Hstep.
  cbv zeta in Hstep. cbn [Tracking.step] in Hstep.
  unfold Tracking.breakAlertTick in Hin, Hstep. cbv zeta in Hin, Hstep.
  destruct (_ && _); [|destruct Hin].
  cbn in Hstep. destruct Hstep as (_ & _ & _ & _ & Hms).
  now rewrite Hlb in Hms.
Qed.

(** X19 on a break at time 1000, a screen-time tick, and the check 46
    minutes later, with the default reminder interval of 45 minutes. *)
Lemma no_break_alert_before_interval_witness :
  let s1 :=
    fst (Tracking.run [Tracking.ScreenTimeTick]
           (Tracking.takeBreak 1000 sampleTracking)) in
  Tracking.reminderInterval (Tracking.settings s1) * 60000
  <= inject_Z (2761000 - 1000).
Proof.
  apply (no_break_alert_before_interval 1000 2761000
           [Tracking.ScreenTimeTick] sampleTracking).
  - reflexivity.
  - vm_compute. tauto.
Defined.

(** ** Common issues *)

Lemma includes_In l issue : Tracking.includes l issue = true <-> In issue l.
Proof.
  unfold Tracking.includes. rewrite existsb_exists. split.
  - intros (x & Hin & Heq). apply String.eqb_eq in Heq. now subst.
  - intros Hin. exists issue. split; [exact Hin|apply String.eqb_refl].
Qed.

Lemma includes_filter l issue other :
  Tracking.includes
    (filter (fun i => negb (String.eqb i issue)) l) other
  = negb (String.eqb other issue) && Tracking.includes l other.
Proof.
  unfold Tracking.includes. induction l as [|x l IH].
  - simpl. now rewrite andb_false_r.
  - simpl. destruct (String.eqb x issue) eqn:Ex; simpl; rewrite IH.
    + apply String.eqb_eq in Ex. subst x.
      destruct (String.eqb other issue); reflexivity.
    + destruct (String.eqb other x) eqn:Eo; simpl.
      * apply String.eqb_eq in Eo. subst x. now rewrite Ex.
      * reflexivity.
Qed.

Lemma step_commonIssues e s :
  NoDup (commonIssuesOf s) ->
  NoDup (commonIssuesOf (fst (Tracking.step e s))).
Proof.
  unfold commonIssuesOf. intros Hs.
  destruct e as [ | | st | q issues now | now | | | issue | issue | | | now
                | now | | ]; try (simpl; auto; fail).
  - simpl. unfold Tracking.addCommonIssue.
    destruct (Tracking.includes _ issue) eqn:Ei; simpl; [exact Hs|].
    apply NoDup_rev in Hs. rewrite <- (rev_involutive (_ ++ [issue])).
    apply NoDup_rev. rewrite rev_app_distr. simpl. constructor; [|exact Hs].
    rewrite <- in_rev. intros Hin. apply includes_In in Hin. congruence.
  - simpl. now apply NoDup_filter.
  - simpl. unfold Tracking.breakAlertTick. now destruct (_ && _).
Qed.

(** X20: the list of common issues never holds an issue twice: whatever
    is done to the tracking service, a list without duplicates stays
    without duplicates. *)
Theorem common_issues_stay_distinct :
  forall (events : list Tracking.Event) (s : Tracking.Service),
    NoDup (commonIssuesOf s) ->
    NoDup (commonIssuesOf (fst (Tracking.run events s))).
Proof.
  intros events. induction events as [|e events IH]; intros s Hs.
  - exact Hs.
  - rewrite run_cons. cbn [fst]. apply IH. now apply step_commonIssues.
Qed.

(** X20 on a new service to which an issue is added twice. *)
Lemma common_issues_stay_distinct_witness :
  NoDup
    (commonIssuesOf
       (fst (Tracking.run
               [Tracking.AddCommonIssue "Forward head posture";
                Tracking.AddCommonIssue "Forward head posture";
                Tracking.RemoveCommonIssue "Rounded shoulders"]
               sampleTracking))).
Proof.
  apply (common_issues_stay_distinct
           [Tracking.AddCommonIssue "Forward head posture";
            Tracking.AddCommonIssue "Forward head posture";
            Tracking.RemoveCommonIssue "Rounded shoulders"]
           sampleTracking).
  constructor.
Defined.

(** X21: [addCommonIssue] and [removeCommonIssue] treat the common
    issues as a set: after adding an issue the list includes it and
    whatever it included before, after removing it the list includes
    whatever it included before but the issue, and removing an issue
    just added leaves the list as removing it at once does. *)
Theorem common_issues_form_a_set :
  forall (issue other : string) (s : Tracking.Service),
    Tracking.includes
      (commonIssuesOf (Tracking.addCommonIssue issue s)) other
    = String.eqb other issue || Tracking.includes (commonIssuesOf s) other
    /\
    Tracking.includes
      (commonIssuesOf (Tracking.removeCommonIssue issue s)) other
    = negb (String.eqb other issue)
      && Tracking.includes (commonIssuesOf s) other
    /\
    commonIssuesOf
      (Tracking.removeCommonIssue issue (Tracking.addCommonIssue issue s))
    = commonIssuesOf (Tracking.removeCommonIssue issue s).
Proof.
  intros issue other s. unfold commonIssuesOf. repeat split.
  - unfold Tracking.addCommonIssue.
    destruct (Tracking.includes _ issue) eqn:Ei; simpl.
    + destruct (String.eqb other issue) eqn:Eo; [|reflexivity].
      apply String.eqb_eq in Eo. subst other. exact Ei.
    + unfold Tracking.includes. rewrite existsb_app. simpl.
      rewrite orb_false_r. apply orb_comm.
  - simpl. apply includes_filter.
  - unfold Tracking.addCommonIssue.
    destruct (Tracking.includes _ issue) eqn:Ei; simpl; [reflexivity|].
    rewrite filter_app. simpl. rewrite String.eqb_refl. simpl.
    apply app_nil_r.
Qed.

(** ** Persistence *)



